(** * The secure submission connector of FLEX-FORM, embedded in Rocq

    A shallow embedding of [SecureSupabaseConnector]: the sensitivity
    classifier, the integrity digest, the field cipher, the schema generator,
    the submission pipeline and the audit trail, followed by the properties the
    specification states about them.

    Conventions of the embedding.
    - A JavaScript string is a [string]; every [ascii] stands for one UTF-16
      code unit below 256, so the model covers the Latin-1 strings.
    - A number is an integer [Z] (the records of the specification carry no
      fractional values that any property depends on).
    - An object is an association list in own-property enumeration order.
      Property names are field names: none is an array index or [__proto__],
      so a new property is enumerated last.
    - The [flexform_security_log] item of [localStorage] is absent or holds
      what the connector wrote there, and [localStorage] accepts every write.
    - [console.log] and friends are not observable and are left out. *)

From Stdlib Require Import List String Ascii ZArith Bool Arith Lia.
From Stdlib Require Import Sorting.Permutation Numbers.DecimalString.
Import ListNotations.

Local Open Scope string_scope.
Local Open Scope nat_scope.
Local Open Scope list_scope.

Infix "+++" := String.append (right associativity, at level 60).

(* ================================================================== *)
(** * JavaScript values, strings and objects *)
(* ================================================================== *)

Module JS.

Inductive value : Type :=
| Undefined
| Null
| Bool (b : bool)
| Num (n : Z)
| Str (s : string).

Definition value_eqb (a b : value) : bool :=
  match a, b with
  | Undefined, Undefined => true
  | Null, Null => true
  | Bool x, Bool y => Bool.eqb x y
  | Num x, Num y => (x =? y)%Z
  | Str x, Str y => (x =? y)%string
  | _, _ => false
  end.

(** [ToBoolean]: what [!v], [v || d] and [a && v] look at. *)
Definition truthy (v : value) : bool :=
  match v with
  | Undefined | Null => false
  | Bool b => b
  | Num n => negb (n =? 0)%Z
  | Str s => negb (s =? "")%string
  end.

(** [a || b] on values. *)
Definition orElse (a b : value) : value := if truthy a then a else b.

Definition decimal (n : Z) : string := NilEmpty.string_of_int (Z.to_int n).

(** [v.toString()]: a [TypeError] ([None]) on [undefined] and [null]. *)
Definition toStringMethod (v : value) : option string :=
  match v with
  | Undefined | Null => None
  | Bool true => Some "true"
  | Bool false => Some "false"
  | Num n => Some (decimal n)
  | Str s => Some s
  end.

(** [ToString], as a template literal or [+] applies it. *)
Definition toStr (v : value) : string :=
  match v with
  | Undefined => "undefined"
  | Null => "null"
  | Bool true => "true"
  | Bool false => "false"
  | Num n => decimal n
  | Str s => s
  end.

(** ** Characters *)

Definition code (c : ascii) : nat := nat_of_ascii c.

Definition between (lo hi : nat) (c : ascii) : bool :=
  (lo <=? code c) && (code c <=? hi).

Definition isDigit (c : ascii) : bool := between 48 57 c.
Definition isUpper (c : ascii) : bool := between 65 90 c.
Definition isLower (c : ascii) : bool := between 97 122 c.
(** [\w], which is also the class [[a-zA-Z0-9_]]. *)
Definition isWordChar (c : ascii) : bool :=
  isLower c || isUpper c || isDigit c || (code c =? 95).
(** White space and line terminators ([\s], [trim]) below 256. *)
Definition isSpace (c : ascii) : bool :=
  between 9 13 c || (code c =? 32) || (code c =? 160).
Definition isLineTerminator (c : ascii) : bool :=
  (code c =? 10) || (code c =? 13).

Definition dquote : ascii := "034"%char.
Definition backslash : ascii := "092"%char.
Definition underscore : ascii := "_"%char.
Definition newline : string := String "010"%char "".

(** [toLowerCase] on one code unit below 256. *)
Definition lowerChar (c : ascii) : ascii :=
  if isUpper c || (between 192 222 c && negb (code c =? 215))
  then ascii_of_nat (code c + 32) else c.

(** [Canonicalize] of a case-insensitive pattern: the upper-case form when it
    is a single code unit of the same range. *)
Definition canonicalize (c : ascii) : ascii :=
  if isLower c || (between 224 254 c && negb (code c =? 247))
  then ascii_of_nat (code c - 32) else c.

(** ** Strings *)

Fixpoint mapString (f : ascii -> ascii) (s : string) : string :=
  match s with
  | EmptyString => EmptyString
  | String c t => String (f c) (mapString f t)
  end.

Definition toLowerCase (s : string) : string := mapString lowerChar s.

Fixpoint allChars (p : ascii -> bool) (s : string) : bool :=
  match s with
  | EmptyString => true
  | String c t => p c && allChars p t
  end.

Fixpoint trimStart (s : string) : string :=
  match s with
  | EmptyString => EmptyString
  | String c t => if isSpace c then trimStart t else s
  end.

Fixpoint trimEnd (s : string) : string :=
  match s with
  | EmptyString => EmptyString
  | String c t =>
      match trimEnd t with
      | EmptyString => if isSpace c then EmptyString else String c EmptyString
      | t' => String c t'
      end
  end.

Definition trim (s : string) : string := trimEnd (trimStart s).

(** [hay.includes(needle)]. *)
Fixpoint includes (needle hay : string) : bool :=
  String.prefix needle hay ||
  match hay with
  | EmptyString => false
  | String _ t => includes needle t
  end.

(** [xs.join(sep)]. *)
Definition join (sep : string) (xs : list string) : string :=
  String.concat sep xs.

(** ** Objects: own properties in enumeration order *)

Definition object : Type := list (string * value).

Definition keys (o : object) : list string := map fst o.

Fixpoint get (k : string) (o : object) : option value :=
  match o with
  | [] => None
  | (k', v) :: rest => if (k' =? k)%string then Some v else get k rest
  end.

(** [o.k] or [o[k]]: [undefined] when the property is absent. *)
Definition prop (k : string) (o : object) : value :=
  match get k o with Some v => v | None => Undefined end.

(** [o[k] = v]: an existing property keeps its place, a new one goes last. *)
Fixpoint set (k : string) (v : value) (o : object) : object :=
  match o with
  | [] => [(k, v)]
  | (k', v') :: rest =>
      if (k' =? k)%string then (k, v) :: rest else (k', v') :: set k v rest
  end.

Definition wellFormed (o : object) : Prop := NoDup (keys o).

(** ** Array.prototype.sort, default comparison (code units) *)

Fixpoint insertSorted (x : string) (l : list string) : list string :=
  match l with
  | [] => [x]
  | y :: t => if (x <=? y)%string then x :: l else y :: insertSorted x t
  end.

Definition sort (l : list string) : list string :=
  fold_right insertSorted [] l.

(** ** JSON.stringify *)

Definition hexDigit (n : nat) : ascii :=
  if n <? 10 then ascii_of_nat (48 + n) else ascii_of_nat (87 + n).

Definition escapeChar (c : ascii) : string :=
  let n := code c in
  if n =? 8 then String backslash "b"
  else if n =? 9 then String backslash "t"
  else if n =? 10 then String backslash "n"
  else if n =? 12 then String backslash "f"
  else if n =? 13 then String backslash "r"
  else if n =? 34 then String backslash (String dquote "")
  else if n =? 92 then String backslash (String backslash "")
  else if n <? 32 then
    String backslash ("u00" +++ String (hexDigit (n / 16)) (String (hexDigit (n mod 16)) ""))
  else String c "".

Fixpoint escape (s : string) : string :=
  match s with
  | EmptyString => EmptyString
  | String c t => escapeChar c +++ escape t
  end.

(** [QuoteJSONString]. *)
Definition quote (s : string) : string :=
  String dquote (escape s +++ String dquote "").

(** [SerializeJSONProperty] on a primitive: [None] for [undefined], which
    makes the enclosing object skip the property. *)
Definition serializeValue (v : value) : option string :=
  match v with
  | Undefined => None
  | Null => Some "null"
  | Bool true => Some "true"
  | Bool false => Some "false"
  | Num n => Some (decimal n)
  | Str s => Some (quote s)
  end.

Definition member (k : string) (o : object) : list string :=
  match get k o with
  | Some v =>
      match serializeValue v with
      | Some t => [quote k +++ ":" +++ t]
      | None => []
      end
  | None => []
  end.

(** [SerializeJSONObject] with property list [K]. *)
Definition serializeObject (K : list string) (o : object) : string :=
  "{" +++ join "," (flat_map (fun k => member k o) K) +++ "}".

(** The property list of an array replacer: first occurrences, in order. *)
Fixpoint propertyList (seen replacer : list string) : list string :=
  match replacer with
  | [] => []
  | k :: t =>
      if existsb (String.eqb k) seen then propertyList seen t
      else k :: propertyList (k :: seen) t
  end.

(** [JSON.stringify(o)]. *)
Definition stringify (o : object) : string := serializeObject (keys o) o.

(** [JSON.stringify(o, replacer)] with an array of keys as replacer. *)
Definition stringifyWith (replacer : list string) (o : object) : string :=
  serializeObject (propertyList [] replacer) o.

(** What [JSON.parse(JSON.stringify(o))] gives back: the properties whose
    value is [undefined] are gone. *)
Definition jsonClone (o : object) : object :=
  filter (fun kv => match snd kv with Undefined => false | _ => true end) o.

End JS.

(* ================================================================== *)
(** * Regular expressions, as far as the connector uses them *)
(* ================================================================== *)

Module RegExp.
Import JS.

Inductive node : Type :=
| Empty
| Chr (c : ascii)
| Dot
| Class (negated : bool) (ranges : list (ascii * ascii))
| Seq (a b : node)
| Or (a b : node)
| Star (a : node)
| Plus (a : node)
| Opt (a : node)
| Times (n : nat) (a : node)
| AtLeast (n : nat) (a : node)
| Bol
| Eol
| WordBoundary.

Record pattern : Type := { body : node; ignoreCase : bool }.

(** A position in the subject: the code unit before it and what follows. *)
Record cursor : Type := { before : option ascii; rest : string }.

Definition sameChar (i : bool) (c d : ascii) : bool :=
  if i then Ascii.eqb (canonicalize c) (canonicalize d) else Ascii.eqb c d.

Definition inRange (i : bool) (d : ascii) (r : ascii * ascii) : bool :=
  let hit x := (code (fst r) <=? code x) && (code x <=? code (snd r)) in
  if i then hit d || hit (canonicalize d) || hit (lowerChar d) else hit d.

Definition eat (ok : ascii -> bool) (p : cursor) : list cursor :=
  match rest p with
  | String d t => if ok d then [{| before := Some d; rest := t |}] else []
  | EmptyString => []
  end.

Definition shorter (p q : cursor) : bool :=
  String.length (rest q) <? String.length (rest p).

(** Zero or more rounds of [f]; a round that consumes nothing adds no new
    position, so only the rounds that advance are followed. *)
Fixpoint iterate (f : cursor -> list cursor) (fuel : nat) (p : cursor) : list cursor :=
  p :: match fuel with
       | O => []
       | S n => flat_map (iterate f n) (filter (shorter p) (f p))
       end.

Definition closure (f : cursor -> list cursor) (p : cursor) : list cursor :=
  iterate f (String.length (rest p)) p.

Fixpoint power (f : cursor -> list cursor) (n : nat) (ps : list cursor) : list cursor :=
  match n with
  | O => ps
  | S m => power f m (flat_map f ps)
  end.

Definition wordAt (c : option ascii) : bool :=
  match c with Some d => isWordChar d | None => false end.

Definition next (p : cursor) : option ascii :=
  match rest p with String d _ => Some d | EmptyString => None end.

(** All the positions where a match of [r] that starts at [p] can end. *)
Fixpoint run (i : bool) (r : node) (p : cursor) : list cursor :=
  match r with
  | Empty => [p]
  | Chr c => eat (sameChar i c) p
  | Dot => eat (fun d => negb (isLineTerminator d)) p
  | Class neg rs => eat (fun d => xorb neg (existsb (inRange i d) rs)) p
  | Seq a b => flat_map (run i b) (run i a p)
  | Or a b => run i a p ++ run i b p
  | Star a => closure (run i a) p
  | Plus a => flat_map (closure (run i a)) (run i a p)
  | Opt a => p :: run i a p
  | Times n a => power (run i a) n [p]
  | AtLeast n a => flat_map (closure (run i a)) (power (run i a) n [p])
  | Bol => match before p with None => [p] | Some _ => [] end
  | Eol => match rest p with EmptyString => [p] | String _ _ => [] end
  | WordBoundary => if xorb (wordAt (before p)) (wordAt (next p)) then [p] else []
  end.

Definition matchesAt (re : pattern) (p : cursor) : bool :=
  match run (ignoreCase re) (body re) p with [] => false | _ :: _ => true end.

Fixpoint search (re : pattern) (prev : option ascii) (s : string) : bool :=
  matchesAt re {| before := prev; rest := s |} ||
  match s with
  | EmptyString => false
  | String c t => search re (Some c) t
  end.

(** [re.test(s)] for a pattern without the [g] or [y] flag. *)
Definition test (re : pattern) (s : string) : bool := search re None s.

(** ** Writing patterns *)

Fixpoint lit (s : string) : node :=
  match s with
  | EmptyString => Empty
  | String c t => Seq (Chr c) (lit t)
  end.

Definition seq (rs : list node) : node := fold_right Seq Empty rs.

Definition caseInsensitive (r : node) : pattern := {| body := r; ignoreCase := true |}.
Definition caseSensitive (r : node) : pattern := {| body := r; ignoreCase := false |}.

Definition range (lo hi : string) : ascii * ascii :=
  match lo, hi with
  | String a _, String b _ => (a, b)
  | _, _ => (zero, zero)
  end.
Definition one (c : string) : ascii * ascii := range c c.

Definition digit : node := Class false [range "0" "9"].
Definition space : list (ascii * ascii) :=
  [("009"%char, "013"%char); (" "%char, " "%char); ("160"%char, "160"%char)].

End RegExp.

(* ================================================================== *)
(** * The pure part of the connector *)
(* ================================================================== *)

Module Connector.
Import JS RegExp.

(** ** FieldSensitivityClassifier *)

(** A field descriptor; [label] is absent on the descriptors that
    [encryptSensitiveData] builds from a key alone. *)
Record field : Type := {
  name : string;
  label : option string;
  type : string;
  required : bool
}.

Definition ofName (key : string) : field :=
  {| name := key; label := None; type := ""; required := false |}.

Definition sensitivePatterns : list pattern :=
  map caseInsensitive
    [ lit "email"; lit "phone"; lit "ssn"; lit "social"; seq [lit "id"; Eol];
      seq [lit "name"; Eol]; lit "address"; lit "dob"; lit "birth"; lit "medical";
      lit "salary"; lit "wage"; lit "income"; lit "credit"; lit "password" ].

Definition isSensitiveField (f : field) : bool :=
  let fieldName := name f in
  let fieldLabel := match label f with Some l => l | None => "" end in
  existsb (fun p => test p fieldName || test p fieldLabel) sensitivePatterns.

Inductive classification : Type := internal | confidential | restricted.

Definition levelName (c : classification) : string :=
  match c with
  | internal => "internal"
  | confidential => "confidential"
  | restricted => "restricted"
  end.

Definition classification_eqb (a b : classification) : bool :=
  match a, b with
  | internal, internal | confidential, confidential | restricted, restricted => true
  | _, _ => false
  end.

Definition restrictedPatterns : list pattern :=
  map caseInsensitive
    [ lit "proprietary"; lit "confidential"; seq [lit "trade"; Star Dot; lit "secret"];
      lit "patent"; seq [lit "intellectual"; Star Dot; lit "property"]; lit "classified" ].

Definition confidentialPatterns : list pattern :=
  map caseInsensitive
    [ seq [lit "social"; Star Dot; lit "security"]; lit "ssn"; lit "medical"; lit "health";
      lit "financial"; lit "salary"; lit "wage"; lit "credit"; lit "bank" ].

Definition piiPatterns : list pattern :=
  let mailChars := [range "A" "Z"; range "a" "z"; range "0" "9"; one "."; one "_";
                    one "%"; one "+"; one "-"] in
  let hostChars := [range "A" "Z"; range "a" "z"; range "0" "9"; one "."; one "-"] in
  map caseSensitive
    [ (* Email *)
      seq [WordBoundary; Plus (Class false mailChars); lit "@";
           Plus (Class false hostChars); lit ".";
           AtLeast 2 (Class false [range "A" "Z"; one "|"; range "a" "z"]); WordBoundary];
      (* SSN *)
      seq [WordBoundary; Times 3 digit; lit "-"; Times 2 digit; lit "-"; Times 4 digit;
           WordBoundary];
      (* Phone *)
      seq [WordBoundary; Times 3 digit; Opt (Class false (one "-" :: one "." :: space));
           Times 3 digit; Opt (Class false (one "-" :: one "." :: space)); Times 4 digit;
           WordBoundary];
      (* Credit card *)
      seq [WordBoundary; Times 4 digit; Class false (one "-" :: space); Times 4 digit;
           Class false (one "-" :: space); Times 4 digit; Class false (one "-" :: space);
           Times 4 digit; WordBoundary] ].

Definition containsPII (data : object) : bool :=
  let dataString := stringify data in
  existsb (fun p => test p dataString) piiPatterns.

Definition classifyData (data : object) : classification :=
  let dataString := toLowerCase (stringify data) in
  if existsb (fun p => test p dataString) restrictedPatterns then restricted
  else if existsb (fun p => test p dataString) confidentialPatterns then confidential
  else if containsPII data then internal
  else internal.

(** ** Identifiers *)

Definition identifier : pattern :=
  caseSensitive
    (seq [Bol; Class false [range "a" "z"; range "A" "Z"];
          Star (Class false [range "a" "z"; range "A" "Z"; range "0" "9"; one "_"]); Eol]).

Definition isValidTableName (n : string) : bool :=
  test identifier n && (String.length n <=? 63).

(** [s.replace(/[^a-zA-Z0-9_]/g, '_')]: every code unit outside the class
    becomes an underscore. *)
Definition replaceNonWord (s : string) : string :=
  mapString (fun c => if isWordChar c then c else underscore) s.

(** [s.replace(/^[0-9]/, '_$&')]: a leading digit gets an underscore in
    front of it. *)
Definition prefixLeadingDigit (s : string) : string :=
  match s with
  | String c _ => if isDigit c then String underscore s else s
  | EmptyString => s
  end.

Definition sanitizeColumnName (n : string) : string :=
  toLowerCase (prefixLeadingDigit (replaceNonWord n)).

(** ** SchemaPolicyGenerator *)

Definition typeMap : list (string * string) :=
  [ ("text", "TEXT"); ("email", "TEXT"); ("number", "NUMERIC"); ("date", "DATE");
    ("datetime-local", "TIMESTAMPTZ"); ("textarea", "TEXT"); ("select", "TEXT");
    ("radio", "TEXT"); ("checkbox", "BOOLEAN"); ("file", "TEXT"); ("tel", "TEXT");
    ("url", "TEXT"); ("time", "TIME"); ("month", "TEXT"); ("week", "TEXT") ].

Fixpoint lookupType (t : string) (m : list (string * string)) : option string :=
  match m with
  | [] => None
  | (k, v) :: rest => if (k =? t)%string then Some v else lookupType t rest
  end.

(** [typeMap[fieldType] || 'TEXT'], for the type names of the form designer. *)
Definition mapFieldTypeToPostgreSQL (fieldType : string) : string :=
  match lookupType fieldType typeMap with
  | Some pg => pg
  | None => "TEXT"
  end.

(** The options as [generateSecureTableSchema] destructures them;
    [accessLevel] is the text that the template literal prints. *)
Record schemaOptions : Type := {
  enableAuditLog : bool;
  enableEncryption : bool;
  departmentLevel : bool;
  accessLevel : string
}.

(** The caller's [securityOptions]: any of them may be left out. *)
Record securityOptions : Type := {
  optAuditLog : option bool;
  optEncryption : option bool;
  optDepartmentLevel : option bool;
  optAccessLevel : option string
}.

Definition withDefault {A} (d : A) (o : option A) : A :=
  match o with Some a => a | None => d end.

(** The destructuring defaults of [createSecureTable]. *)
Definition createTableOptions (o : securityOptions) : schemaOptions :=
  {| enableAuditLog := withDefault true (optAuditLog o);
     enableEncryption := withDefault true (optEncryption o);
     departmentLevel := withDefault true (optDepartmentLevel o);
     accessLevel := withDefault "internal" (optAccessLevel o) |}.

(** [generateSecureTableSchema] called on the caller's options as they are:
    an absent flag is [undefined], which is falsy and prints as such. *)
Definition directOptions (o : securityOptions) : schemaOptions :=
  {| enableAuditLog := withDefault false (optAuditLog o);
     enableEncryption := withDefault false (optEncryption o);
     departmentLevel := withDefault false (optDepartmentLevel o);
     accessLevel := withDefault "undefined" (optAccessLevel o) |}.

Definition quoted (s : string) : string := String dquote (s +++ String dquote "").

(** The body of [fields.forEach((field, index) => ...)]. *)
Definition addField (opts : schemaOptions) (count index : nat) (f : field)
    (createTable : string) : string :=
  let columnName := sanitizeColumnName (name f) in
  let pgType := mapFieldTypeToPostgreSQL (type f) in
  let nullable := if required f then "NOT NULL" else "" in
  if enableEncryption opts && isSensitiveField f then
    createTable
      +++ "    " +++ quoted (columnName +++ "_encrypted") +++ " TEXT," +++ newline
      +++ "    " +++ quoted (columnName +++ "_hash") +++ " TEXT," +++ newline
  else
    createTable
      +++ "    " +++ quoted columnName +++ " " +++ pgType +++ " " +++ nullable
      +++ (if (index <? count - 1) || enableAuditLog opts then "," else "")
      +++ newline.

Fixpoint forEachField (opts : schemaOptions) (count index : nat) (fields : list field)
    (createTable : string) : string :=
  match fields with
  | [] => createTable
  | f :: rest =>
      forEachField opts count (S index) rest (addField opts count index f createTable)
  end.

(** The [createTable] text of [generateSecureTableSchema]; the audit trigger
    and the retention policy it returns besides are built from the table name
    alone and are not part of the model. *)
Definition generateSecureTableSchema (tableName : string) (fields : list field)
    (opts : schemaOptions) : string :=
  let createTable := "-- Create secure table: " +++ tableName +++ newline in
  let createTable := createTable +++ "CREATE TABLE IF NOT EXISTS " +++ quoted tableName
                       +++ " (" +++ newline in
  let createTable := createTable +++ "    id BIGSERIAL PRIMARY KEY," +++ newline in
  let createTable := createTable +++ "    created_at TIMESTAMPTZ DEFAULT NOW()," +++ newline in
  let createTable := createTable +++ "    updated_at TIMESTAMPTZ DEFAULT NOW()," +++ newline in
  let createTable := createTable +++ "    created_by TEXT DEFAULT auth.email()," +++ newline in
  let createTable :=
    if departmentLevel opts
    then createTable +++ "    department TEXT NOT NULL DEFAULT 'general'," +++ newline
    else createTable in
  let createTable := createTable +++ "    security_classification TEXT DEFAULT '"
                       +++ accessLevel opts +++ "'," +++ newline in
  let createTable := createTable +++ "    data_hash TEXT," +++ newline in
  let createTable :=
    if enableAuditLog opts
    then createTable +++ "    audit_log JSONB DEFAULT '[]'::jsonb," +++ newline
    else createTable in
  let createTable := forEachField opts (List.length fields) 0 fields createTable in
  let createTable := createTable +++ ");" in
  let createTable := createTable +++ newline +++ newline
                       +++ "-- Enable Row Level Security" +++ newline in
  let createTable := createTable +++ "ALTER TABLE " +++ quoted tableName
                       +++ " ENABLE ROW LEVEL SECURITY;" +++ newline in
  let createTable := createTable +++ newline +++ "-- Performance indexes" +++ newline in
  let createTable := createTable +++ "CREATE INDEX IF NOT EXISTS idx_" +++ tableName
                       +++ "_created_at ON " +++ quoted tableName +++ " (created_at);"
                       +++ newline in
  let createTable := createTable +++ "CREATE INDEX IF NOT EXISTS idx_" +++ tableName
                       +++ "_created_by ON " +++ quoted tableName +++ " (created_by);"
                       +++ newline in
  if departmentLevel opts
  then createTable +++ "CREATE INDEX IF NOT EXISTS idx_" +++ tableName
         +++ "_department ON " +++ quoted tableName +++ " (department);" +++ newline
  else createTable.

End Connector.

(* ================================================================== *)
(** * The stateful part: connector, browser and network *)
(* ================================================================== *)

Module Runtime.
Import JS RegExp Connector.

Record logEntry : Type := {
  timestamp : string;
  event : string;
  user : value;
  ip : string;
  userAgent : string;
  details : object
}.

(** The fields of [this]. *)
Record connector : Type := {
  supabaseUrl : string;
  supabaseKey : string;
  connected : bool;
  encryptionKey : option nat;
  currentUser : option object;
  auditLog : list logEntry
}.

(** One [fetch] call. [payload] is the record whose [JSON.stringify] is the
    body of the request. *)
Record request : Type := {
  endpoint : string;
  headers : list (string * string);
  payload : object
}.

Definition bodyOf (r : request) : string := stringify (payload r).

(** What [response.json()] resolves to (the endpoint answers with an array
    of rows or with an error object), or the message it rejects with. *)
Inductive jsonBody : Type :=
| Unparsable (message : string)
| JsonNull
| JsonArray (rows : list object)
| JsonObject (o : object).

Inductive reply : Type :=
| NetworkError (message : string)
| Response (ok : bool) (body : jsonBody).

(** What the connector has around it: the parsed content of the
    [flexform_security_log] item of [localStorage] (empty when the item is
    absent), how often the clock and the random source were read, and the
    requests that went out, oldest first. *)
Record browser : Type := {
  securityLog : list logEntry;
  clock : nat;
  entropy : nat;
  network : list request
}.

Record state : Type := { this : connector; window : browser }.

Inductive result (A : Type) : Type :=
| Ok (a : A)
| Throw (message : string).
Arguments Ok {A} a.
Arguments Throw {A} message.

(** Computations that read and write the state and may throw. *)
Definition M (A : Type) : Type := state -> result A * state.

Definition ret {A} (a : A) : M A := fun st => (Ok a, st).
Definition throw {A} (message : string) : M A := fun st => (Throw message, st).
Definition bind {A B} (c : M A) (k : A -> M B) : M B :=
  fun st =>
    match c st with
    | (Ok a, st') => k a st'
    | (Throw m, st') => (Throw m, st')
    end.
Definition tryCatch {A} (c : M A) (handler : string -> M A) : M A :=
  fun st =>
    match c st with
    | (Ok a, st') => (Ok a, st')
    | (Throw m, st') => handler m st'
    end.
Definition gets {A} (f : state -> A) : M A := fun st => (Ok (f st), st).
Definition modify (f : state -> state) : M unit := fun st => (Ok tt, f st).

Notation "x <- c ;; k" := (bind c (fun x => k))
  (at level 61, c at next level, right associativity).
Notation "c ;; k" := (bind c (fun _ => k))
  (at level 61, right associativity).

Definition withThis (f : connector -> connector) (st : state) : state :=
  {| this := f (this st); window := window st |}.
Definition withWindow (f : browser -> browser) (st : state) : state :=
  {| this := this st; window := f (window st) |}.

Definition pushAudit (e : logEntry) (c : connector) : connector :=
  {| supabaseUrl := supabaseUrl c; supabaseKey := supabaseKey c;
     connected := connected c; encryptionKey := encryptionKey c;
     currentUser := currentUser c; auditLog := auditLog c ++ [e] |}.
Definition setKey (k : option nat) (c : connector) : connector :=
  {| supabaseUrl := supabaseUrl c; supabaseKey := supabaseKey c;
     connected := connected c; encryptionKey := k;
     currentUser := currentUser c; auditLog := auditLog c |}.
Definition setSecurityLog (l : list logEntry) (b : browser) : browser :=
  {| securityLog := l; clock := clock b; entropy := entropy b; network := network b |}.
Definition tick (b : browser) : browser :=
  {| securityLog := securityLog b; clock := S (clock b); entropy := entropy b;
     network := network b |}.
Definition draw (b : browser) : browser :=
  {| securityLog := securityLog b; clock := clock b; entropy := S (entropy b);
     network := network b |}.
Definition sent (r : request) (b : browser) : browser :=
  {| securityLog := securityLog b; clock := clock b; entropy := entropy b;
     network := network b ++ [r] |}.

(** The capacity of the persisted log. *)
Definition capacity : nat := 1000.

(** [if (l.length > 1000) l.splice(0, l.length - 1000)]. *)
Definition keepLast (l : list logEntry) : list logEntry :=
  if capacity <? List.length l then skipn (List.length l - capacity) l else l.

(** An entry as it comes back from [localStorage]. *)
Definition stored (e : logEntry) : logEntry :=
  {| timestamp := timestamp e; event := event e; user := user e; ip := ip e;
     userAgent := userAgent e; details := jsonClone (details e) |}.

Section Environment.

(** [navigator.userAgent]. *)
Variable navigatorUserAgent : string.
(** [new Date().toISOString()] at the n-th reading of the clock. *)
Variable isoTime : nat -> string.
(** The lower-case hex of the SHA-256 digest of the UTF-8 encoding of a text;
    [None] when the primitive fails. *)
Variable subtleDigest : string -> option string.
(** [crypto.subtle.generateKey], by the state of the random source. *)
Variable subtleGenerateKey : nat -> option nat.
(** AES-GCM under a key and a nonce, as the base64 of nonce and cipher text;
    [None] when the primitive fails. *)
Variable subtleEncrypt : nat -> nat -> string -> option string.
(** The remote endpoint: its answer to the n-th request. *)
Variable fetch : nat -> request -> reply.

Definition getClientIP : string := "client-ip-protected".

Definition now : M string :=
  t <- gets (fun st => isoTime (clock (window st))) ;;
  modify (withWindow tick) ;;
  ret t.

Definition random : M nat :=
  n <- gets (fun st => entropy (window st)) ;;
  modify (withWindow draw) ;;
  ret n.

(** ** AuditTrail *)

Definition logSecurityEvent (event : string) (details : object) : M unit :=
  t <- now ;;
  who <- gets (fun st => currentUser (this st)) ;;
  let email := match who with Some u => prop "email" u | None => Undefined end in
  let logEntry :=
    {| timestamp := t; event := event; user := orElse email (Str "anonymous");
       ip := getClientIP; userAgent := String.substring 0 100 navigatorUserAgent;
       details := details |} in
  modify (withThis (pushAudit logEntry)) ;;
  existingLogs <- gets (fun st => securityLog (window st)) ;;
  let existingLogs := existingLogs ++ [stored logEntry] in
  let existingLogs := keepLast existingLogs in
  modify (withWindow (setSecurityLog existingLogs)).

(** ** IntegrityDigest *)

Definition hash (c : connector) (data : string) : string :=
  match subtleDigest (data +++ "salt-" +++ supabaseUrl c) with
  | Some hex => hex
  | None => data
  end.

Definition generateDataHash (c : connector) (data : object) : string :=
  let dataString := stringifyWith (sort (keys data)) data in
  hash c dataString.

(** ** FieldCipher *)

Definition initializeEncryption : M unit :=
  n <- random ;;
  match subtleGenerateKey n with
  | Some k => modify (withThis (setKey (Some k)))
  | None => ret tt
  end.

Definition encrypt (data : string) : M string :=
  key <- gets (fun st => encryptionKey (this st)) ;;
  match key with None => initializeEncryption | Some _ => ret tt end ;;
  iv <- random ;;
  key <- gets (fun st => encryptionKey (this st)) ;;
  match key with
  | Some k =>
      match subtleEncrypt k iv data with
      | Some token => ret token
      | None => ret data
      end
  | None => ret data
  end.

(** One round of the loop of [encryptSensitiveData]. *)
Definition encryptEntry (kv : string * value) (encryptedData : object) : M object :=
  let (key, v) := kv in
  if isSensitiveField (ofName key) && truthy v then
    match toStringMethod v with
    | Some text =>
        token <- encrypt text ;;
        c <- gets this ;;
        ret (set (key +++ "_hash") (Str (hash c text))
               (set (key +++ "_encrypted") (Str token) encryptedData))
    | None => ret (set key v encryptedData)
    end
  else ret (set key v encryptedData).

Fixpoint forEntries (entries : list (string * value)) (encryptedData : object) : M object :=
  match entries with
  | [] => ret encryptedData
  | kv :: more =>
      encryptedData <- encryptEntry kv encryptedData ;;
      forEntries more encryptedData
  end.

Definition encryptSensitiveData (data : object) : M object := forEntries data [].

(** ** SecureSubmissionPipeline *)

Record validation : Type := {
  isValid : bool;
  errors : list string;
  warnings : list string
}.

Definition isEmptyValue (v : value) : bool :=
  negb (truthy v) ||
  match toStringMethod v with
  | Some text => (trim text =? "")%string
  | None => false
  end.

Definition validateSubmission (formData : object) (tableName : string)
    (securityContext : object) : M validation :=
  let unauthenticated := negb (truthy (prop "userEmail" securityContext)) in
  let errors := if unauthenticated then ["User authentication required"] else [] in
  let classification := classifyData formData in
  let forbidden :=
    classification_eqb classification restricted &&
    negb (value_eqb (prop "role" securityContext) (Str "admin")) in
  let errors :=
    if forbidden then errors ++ ["Restricted data requires admin permissions"] else errors in
  let isValid := negb unauthenticated && negb forbidden in
  let warnings :=
    map (fun kv => "Empty field: " +++ fst kv)
        (filter (fun kv => isEmptyValue (snd kv)) formData) in
  logSecurityEvent "VALIDATION_ATTEMPT"
    [ ("tableName", Str tableName);
      ("classification", Str (levelName classification));
      ("isValid", Bool isValid);
      ("errorCount", Num (Z.of_nat (List.length errors)));
      ("warningCount", Num (Z.of_nat (List.length warnings))) ] ;;
  ret {| isValid := isValid; errors := errors; warnings := warnings |}.

(** What [submitSecureData] resolves to. *)
Inductive submission : Type :=
| Saved (data : option object) (recordId : value) (message : string)
| Failed (error : string).

Definition post (r : request) : M reply :=
  n <- gets (fun st => List.length (network (window st))) ;;
  modify (withWindow (sent r)) ;;
  ret (fetch n r).

Definition nullAccess : string := "Cannot read properties of null (reading '0')".
Definition nullMessage : string := "Cannot read properties of null (reading 'message')".

Definition submitSecureData (tableName : string) (formData securityContext : object)
    : M submission :=
  tryCatch
    ( isConnected <- gets (fun st => connected (this st)) ;;
      (if isConnected then ret tt
       else throw "Not connected to database. Please connect first.") ;;
      validation <- validateSubmission formData tableName securityContext ;;
      (if isValid validation then ret tt
       else throw ("Validation failed: " +++ join ", " (errors validation))) ;;
      let secureData :=
        set "created_by" (orElse (prop "userEmail" securityContext) (Str "anonymous"))
          (set "security_classification" (Str (levelName (classifyData formData)))
             (set "department" (orElse (prop "department" securityContext) (Str "general"))
                formData)) in
      encryptedData <- encryptSensitiveData secureData ;;
      c <- gets this ;;
      let encryptedData := set "data_hash" (Str (generateDataHash c formData)) encryptedData in
      response <- post
        {| endpoint := supabaseUrl c +++ "/rest/v1/" +++ tableName;
           headers :=
             [ ("apikey", supabaseKey c);
               ("Authorization", "Bearer " +++ supabaseKey c);
               ("Content-Type", "application/json");
               ("Prefer", "return=representation");
               ("X-User-Email", toStr (orElse (prop "userEmail" securityContext) (Str "")));
               ("X-Department", toStr (orElse (prop "department" securityContext) (Str "")));
               ("X-Client-IP", getClientIP) ];
           payload := encryptedData |} ;;
      match response with
      | NetworkError message => throw message
      | Response true body =>
          row <- match body with
                 | Unparsable message => throw message
                 | JsonNull => throw nullAccess
                 | JsonArray rows => ret (List.hd_error rows)
                 | JsonObject _ => ret None
                 end ;;
          let recordId := match row with Some r => prop "id" r | None => Undefined end in
          logSecurityEvent "DATA_SUBMITTED"
            [ ("tableName", Str tableName);
              ("recordId", recordId);
              ("classification", prop "security_classification" encryptedData);
              ("fieldCount", Num (Z.of_nat (List.length (keys formData)))) ] ;;
          ret (Saved row recordId "Form data saved securely")
      | Response false body =>
          match body with
          | Unparsable message => throw message
          | JsonNull => throw nullMessage
          | JsonArray _ => throw "Failed to submit secure data"
          | JsonObject o =>
              throw (toStr (orElse (prop "message" o) (Str "Failed to submit secure data")))
          end
      end )
    (fun message =>
       logSecurityEvent "DATA_SUBMISSION_FAILED"
         [ ("tableName", Str tableName);
           ("error", Str message);
           ("fieldCount", Num (Z.of_nat (List.length (keys formData)))) ] ;;
       ret (Failed message)).

End Environment.

End Runtime.

(* ================================================================== *)
(** * A concrete browser and endpoint, to run the model on *)
(* ================================================================== *)

Module Samples.
Import JS RegExp Connector Runtime.

Definition agent : string := "Mozilla/5.0 (X11; Linux x86_64)".
Definition time (n : nat) : string :=
  "2025-01-01T00:00:00." +++ decimal (Z.of_nat n) +++ "Z".
Definition digest (text : string) : option string := Some ("sha256(" +++ text +++ ")").
Definition keygen (n : nat) : option nat := Some n.
Definition cipher (k iv : nat) (text : string) : option string :=
  Some ("aes(" +++ decimal (Z.of_nat iv) +++ "," +++ text +++ ")").
(** An endpoint that stores every record and answers with the new row. *)
Definition accepting (n : nat) (r : request) : reply :=
  Response true (JsonArray [set "id" (Num (Z.of_nat (S n))) (payload r)]).
(** An endpoint that refuses every record. *)
Definition refusing (n : nat) (r : request) : reply :=
  Response false (JsonObject [("message", Str "permission denied")]).

Definition fresh : browser :=
  {| securityLog := []; clock := 0; entropy := 0; network := [] |}.

Definition session (isConnected : bool) : connector :=
  {| supabaseUrl := "https://demo.supabase.co";
     supabaseKey := "public-anon-key-0123456789";
     connected := isConnected;
     encryptionKey := None;
     currentUser := Some [("email", Str "admin@company.com"); ("role", Str "admin")];
     auditLog := [] |}.

Definition start (isConnected : bool) : state :=
  {| this := session isConnected; window := fresh |}.

Definition clerk : object :=
  [("userEmail", Str "clerk@company.com"); ("department", Str "sales"); ("role", Str "user")].
Definition admin : object :=
  [("userEmail", Str "admin@company.com"); ("department", Str "it"); ("role", Str "admin")].
Definition nobody : object := [("department", Str "sales"); ("role", Str "user")].

Definition submit := submitSecureData agent time digest keygen cipher accepting.

End Samples.

(* ================================================================== *)
(** * The rest of the connector: connecting, provisioning, reporting *)
(* ================================================================== *)

Module Session.
Import JS RegExp Connector Runtime.

(** ** Text helpers *)

Fixpoint dropChars (n : nat) (s : string) : string :=
  match n, s with
  | S m, String _ t => dropChars m t
  | _, _ => s
  end.

(** The expansion of the [$] sequences of a replacement text for a text
    pattern: [$$] is a dollar sign, [$&] the matched text, [$`] the text
    before it and [$'] the text after it. A text pattern has no groups, so
    [$1] and [$<] stay as they are. *)
Fixpoint getSubstitution (matched before after replacement : string) : string :=
  match replacement with
  | String "$" (String "$" rest) =>
      String "$" (getSubstitution matched before after rest)
  | String "$" (String "&" rest) =>
      matched +++ getSubstitution matched before after rest
  | String "$" (String "`" rest) =>
      before +++ getSubstitution matched before after rest
  | String "$" (String "'" rest) =>
      after +++ getSubstitution matched before after rest
  | String c rest => String c (getSubstitution matched before after rest)
  | EmptyString => EmptyString
  end.

(** [s.replace(pattern, replacement)] with a text pattern, from the position
    that follows [before]: the first occurrence only. *)
Fixpoint replaceFrom (pattern replacement before s : string) : string :=
  if String.prefix pattern s
  then let after := dropChars (String.length pattern) s in
       getSubstitution pattern before after replacement +++ after
  else match s with
       | EmptyString => EmptyString
       | String c t =>
           String c (replaceFrom pattern replacement (before +++ String c "") t)
       end.

Definition replaceFirst (pattern replacement s : string) : string :=
  replaceFrom pattern replacement "" s.

(** ** Inherited properties *)

(** The names under which a lookup [o[name]] finds something on every
    object, whatever its own properties are. The maps of the connector (the
    type table, the event summary) are read under names that are not among
    these. *)
Definition inheritedNames : list string :=
  [ "constructor"; "hasOwnProperty"; "isPrototypeOf"; "propertyIsEnumerable";
    "toLocaleString"; "toString"; "valueOf"; "__proto__"; "__defineGetter__";
    "__defineSetter__"; "__lookupGetter__"; "__lookupSetter__" ].

Definition ownName (n : string) : bool := negb (existsb (String.eqb n) inheritedNames).

(** A template literal, line by line. *)
Definition lines (ls : list string) : string := join newline ls.

(** ** The SQL that goes with a table *)

Definition generateAuditTrigger (tableName : string) : string :=
  lines
    [ "";
      "-- Create audit trigger for " +++ tableName;
      "CREATE OR REPLACE FUNCTION audit_" +++ tableName +++ "()";
      "RETURNS TRIGGER AS $$";
      "BEGIN";
      "    IF TG_OP = 'INSERT' THEN";
      "        NEW.audit_log = NEW.audit_log || jsonb_build_object(";
      "            'action', 'INSERT',";
      "            'timestamp', NOW(),";
      "            'user', auth.email(),";
      "            'ip', current_setting('request.headers', true)::json->>'x-real-ip',";
      "            'user_agent', current_setting('request.headers', true)::json->>'user-agent'";
      "        );";
      "        RETURN NEW;";
      "    ELSIF TG_OP = 'UPDATE' THEN";
      "        NEW.audit_log = NEW.audit_log || jsonb_build_object(";
      "            'action', 'UPDATE',";
      "            'timestamp', NOW(),";
      "            'user', auth.email(),";
      "            'changes', to_jsonb(NEW) - to_jsonb(OLD),";
      "            'ip', current_setting('request.headers', true)::json->>'x-real-ip'";
      "        );";
      "        NEW.updated_at = NOW();";
      "        RETURN NEW;";
      "    ELSIF TG_OP = 'DELETE' THEN";
      "        INSERT INTO " +++ quoted (tableName +++ "_audit") +++ " (";
      "            original_id, action, timestamp, user_email, data";
      "        ) VALUES (";
      "            OLD.id, 'DELETE', NOW(), auth.email(), to_jsonb(OLD)";
      "        );";
      "        RETURN OLD;";
      "    END IF;";
      "    RETURN NULL;";
      "END;";
      "$$ LANGUAGE plpgsql SECURITY DEFINER;";
      "";
      "CREATE TRIGGER audit_" +++ tableName +++ "_trigger";
      "    BEFORE INSERT OR UPDATE OR DELETE ON " +++ quoted tableName;
      "    FOR EACH ROW EXECUTE FUNCTION audit_" +++ tableName +++ "();";
      "        " ].

Definition daysPlaceholder : string := "{{DAYS}}".

Definition generateRetentionPolicy (tableName : string) : string :=
  lines
    [ "";
      "-- Create retention policy for " +++ tableName;
      "CREATE OR REPLACE FUNCTION cleanup_" +++ tableName +++ "()";
      "RETURNS void AS $$";
      "BEGIN";
      "    -- Archive old data before deletion";
      "    INSERT INTO " +++ quoted (tableName +++ "_archive") +++ " ";
      "    SELECT * FROM " +++ quoted tableName +++ " ";
      "    WHERE created_at < NOW() - INTERVAL '" +++ daysPlaceholder +++ " days';";
      "    ";
      "    -- Delete old data";
      "    DELETE FROM " +++ quoted tableName +++ " ";
      "    WHERE created_at < NOW() - INTERVAL '" +++ daysPlaceholder +++ " days';";
      "    ";
      "    RAISE NOTICE 'Cleaned up old records from " +++ tableName +++ "';";
      "END;";
      "$$ LANGUAGE plpgsql SECURITY DEFINER;";
      "";
      "-- Schedule cleanup (requires pg_cron extension)";
      "-- SELECT cron.schedule('cleanup-" +++ tableName
        +++ "', '0 2 * * 0', 'SELECT cleanup_" +++ tableName +++ "();');";
      "        " ].

(** The four policies of [setupRLSPolicies], in the order it applies them. *)
Definition policies (tableName : string) : list string :=
  let header kind :=
    "CREATE POLICY " +++ quoted (tableName +++ "_" +++ kind +++ "_policy")
      +++ " ON " +++ quoted tableName in
  [ lines
      [ header "read";
        "             FOR SELECT USING (";
        "                 auth.email() = created_by OR";
        "                 (department = (auth.jwt() ->> 'department') AND auth.role() = 'authenticated') OR";
        "                 (auth.jwt() ->> 'role' = 'admin')";
        "             );" ];
    lines
      [ header "insert";
        "             FOR INSERT WITH CHECK (";
        "                 auth.role() = 'authenticated' AND";
        "                 created_by = auth.email()";
        "             );" ];
    lines
      [ header "update";
        "             FOR UPDATE USING (";
        "                 auth.email() = created_by OR";
        "                 (auth.jwt() ->> 'role' = 'admin')";
        "             );" ];
    lines
      [ header "delete";
        "             FOR DELETE USING (";
        "                 auth.jwt() ->> 'role' = 'admin'";
        "             );" ] ].

(** ** The connector with its surroundings *)

(** The liveness request of [testConnection]. *)
Record probe : Type := {
  target : string;
  credentials : list (string * string)
}.

Inductive probeReply : Type :=
| Reachable
| HttpStatus (status : Z) (statusText : string)
| Unreachable (message : string).

(** The state of the submission pipeline, the liveness requests that went
    out, the statements handed to [executeSQL], oldest first, and the
    [innerHTML] of the connection status element of the page, if the page has
    one. *)
Record world : Type := {
  core : state;
  probes : list probe;
  executed : list string;
  statusElement : option string
}.

Definition W (A : Type) : Type := world -> result A * world.

Definition retW {A} (a : A) : W A := fun w => (Ok a, w).
Definition throwW {A} (message : string) : W A := fun w => (Throw message, w).
Definition bindW {A B} (c : W A) (k : A -> W B) : W B :=
  fun w =>
    match c w with
    | (Ok a, w') => k a w'
    | (Throw m, w') => (Throw m, w')
    end.
Definition tryCatchW {A} (c : W A) (handler : string -> W A) : W A :=
  fun w =>
    match c w with
    | (Ok a, w') => (Ok a, w')
    | (Throw m, w') => handler m w'
    end.

Definition withCore (st : state) (w : world) : world :=
  {| core := st; probes := probes w; executed := executed w;
     statusElement := statusElement w |}.

(** A computation of the pipeline, run inside the world. *)
Definition lift {A} (c : M A) : W A :=
  fun w => let (r, st) := c (core w) in (r, withCore st w).

Definition getsW {A} (f : world -> A) : W A := fun w => (Ok (f w), w).
Definition modifyW (f : world -> world) : W unit := fun w => (Ok tt, f w).

Declare Scope world_scope.
Delimit Scope world_scope with world.
Notation "x <- c ;; k" := (bindW c (fun x => k))
  (at level 61, c at next level, right associativity) : world_scope.
Notation "c ;; k" := (bindW c (fun _ => k))
  (at level 61, right associativity) : world_scope.

Definition probed (p : probe) (w : world) : world :=
  {| core := core w; probes := probes w ++ [p]; executed := executed w;
     statusElement := statusElement w |}.
Definition ran (sql : string) (w : world) : world :=
  {| core := core w; probes := probes w; executed := executed w ++ [sql];
     statusElement := statusElement w |}.
(** [if (statusElement) statusElement.innerHTML = html]. *)
Definition showStatus (html : string) (w : world) : world :=
  {| core := core w; probes := probes w; executed := executed w;
     statusElement := match statusElement w with
                      | Some _ => Some html
                      | None => None
                      end |}.

Definition setSession (url key : string) (who : option object) (c : connector)
    : connector :=
  {| supabaseUrl := url; supabaseKey := key; connected := connected c;
     encryptionKey := encryptionKey c; currentUser := who; auditLog := auditLog c |}.
Definition setConnected (b : bool) (c : connector) : connector :=
  {| supabaseUrl := supabaseUrl c; supabaseKey := supabaseKey c; connected := b;
     encryptionKey := encryptionKey c; currentUser := currentUser c;
     auditLog := auditLog c |}.

(** [new SecureSupabaseConnector()]. *)
Definition newConnector : connector :=
  {| supabaseUrl := ""; supabaseKey := ""; connected := false;
     encryptionKey := None; currentUser := None; auditLog := [] |}.

(** ** Results *)

Inductive connection : Type :=
| Connected (message url securityLevel : string)
| Refused (error : string).

Inductive provisioned : Type :=
| Created (tableName : string) (securityLevel : value) (features : list string)
| NotCreated (error : string).

Record securityStatus : Type := {
  encryptionEnabled : bool;
  connectionSecure : bool;
  auditingEnabled : bool;
  lastActivity : option string
}.

Record report : Type := {
  generatedAt : string;
  totalEvents : nat;
  recentEvents : list logEntry;
  eventSummary : object;
  status : securityStatus
}.

(** A configuration source of the page: the URL and the key it gives, the
    empty text standing for a missing or falsy one. *)
Record config : Type := { configUrl : string; configKey : string }.

(** [window.EMBEDDED_CONFIG], what [secureConfigLoader.getSecureConfig]
    resolves to when [FLEXFORM_SECURE_CONFIG] and the loader are there, and
    [window.FLEXFORM_CONFIG]. *)
Record page : Type := {
  embeddedConfig : option config;
  secureConfig : option (result config);
  standardConfig : option config
}.

Section Environment.

Variable navigatorUserAgent : string.
Variable isoTime : nat -> string.
Variable subtleGenerateKey : nat -> option nat.
(** The endpoint's answer to the n-th liveness request. *)
Variable probeFetch : nat -> probe -> probeReply.
(** The two markup texts that [autoConnect] writes into the status element
    (a coloured bullet, which is outside the range of the model, and the
    words "Connected to database" or "Database connection failed"). *)
Variable connectedMarkup : string.
Variable failedMarkup : string.

Local Open Scope world_scope.

Definition logEvent (event : string) (details : object) : W unit :=
  lift (logSecurityEvent navigatorUserAgent isoTime event details).

(** ** Validation of the endpoint *)

Definition hostLabel : list (ascii * ascii) :=
  [range "a" "z"; range "A" "Z"; range "0" "9"; one "-"].

Definition supabaseUrl_re : pattern :=
  caseSensitive
    (seq [Bol; lit "https://"; Plus (Class false hostLabel); lit ".supabase.co"; Eol]).

Definition isValidSupabaseUrl (url : string) : bool := test supabaseUrl_re url.

(** ** Connecting *)

Inductive tested : Type := Passed | NotPassed (error : string).

Definition testConnection : W tested :=
  c <- getsW (fun w => this (core w)) ;;
  let p := {| target := supabaseUrl c +++ "/rest/v1/";
              credentials := [ ("apikey", supabaseKey c);
                               ("Authorization", "Bearer " +++ supabaseKey c);
                               ("Content-Type", "application/json") ] |} in
  n <- getsW (fun w => List.length (probes w)) ;;
  modifyW (probed p) ;;
  match probeFetch n p with
  | Reachable => retW Passed
  | HttpStatus status statusText =>
      retW (NotPassed ("HTTP " +++ decimal status +++ ": " +++ statusText))
  | Unreachable message => retW (NotPassed message)
  end.

Definition connectToSupabase (url apiKey : string) (userContext : object)
    : W connection :=
  tryCatchW
    ( (if isValidSupabaseUrl url then retW tt
       else throwW "Invalid Supabase URL format") ;;
      (if (apiKey =? "")%string || (String.length apiKey <? 20)
       then throwW "Invalid API key format" else retW tt) ;;
      lift (modify (withThis (setSession url apiKey (Some userContext)))) ;;
      testResult <- testConnection ;;
      match testResult with
      | Passed =>
          lift (modify (withThis (setConnected true))) ;;
          lift (initializeEncryption subtleGenerateKey) ;;
          logEvent "CONNECTION_SUCCESS" [("url", Str url)] ;;
          retW (Connected "Connected to secure database" url "enterprise")
      | NotPassed error => throwW error
      end )
    (fun message =>
       logEvent "CONNECTION_FAILED" [("error", Str message)] ;;
       retW (Refused message)).

Definition disconnect : W unit :=
  lift (modify (withThis (fun c =>
    {| supabaseUrl := ""; supabaseKey := ""; connected := false;
       encryptionKey := None; currentUser := None; auditLog := auditLog c |}))) ;;
  logEvent "DISCONNECTED" [].

(** [autoConnect] on a page: the first configuration source that is there
    is used, and the connection is made as the built-in administrator. *)
Definition autoConnect (pg : page) : W connection :=
  tryCatchW
    ( cfg <- match embeddedConfig pg, secureConfig pg, standardConfig pg with
             | Some c, _, _ => retW c
             | None, Some (Ok c), _ => retW c
             | None, Some (Throw message), _ => throwW message
             | None, None, Some c => retW c
             | None, None, None => retW {| configUrl := ""; configKey := "" |}
             end ;;
      if negb (configUrl cfg =? "")%string && negb (configKey cfg =? "")%string
         && negb (configKey cfg =? "your-anon-key-here")%string
      then
        result <- connectToSupabase (configUrl cfg) (configKey cfg)
                    [("email", Str "admin@company.com"); ("role", Str "admin")] ;;
        match result with
        | Connected _ _ _ =>
            modifyW (showStatus connectedMarkup)
        | Refused _ => retW tt
        end ;;
        retW result
      else throwW "No valid configuration found" )
    (fun message =>
       modifyW (showStatus failedMarkup) ;;
       retW (Refused message)).

(** ** Provisioning a table *)

(** [executeSQL] only simulates the execution: it records nothing but the
    statement and always reports success. *)
Definition executeSQL (sql : string) : W bool :=
  modifyW (ran sql) ;;
  retW true.

Fixpoint forEachPolicy (ps : list string) : W unit :=
  match ps with
  | [] => retW tt
  | policy :: more =>
      tryCatchW (_ <- executeSQL policy ;; retW tt) (fun _ => retW tt) ;;
      forEachPolicy more
  end.

Definition setupRLSPolicies (tableName : string) (accessLevel : value) : W unit :=
  forEachPolicy (policies tableName).

(** A destructuring default: it applies to a property that is absent or
    [undefined]. *)
Definition defaulted (d v : value) : value :=
  match v with Undefined => d | _ => v end.

(** The options as [createSecureTable] passes them on; the schema generator
    only tests the flags and prints the access level. *)
Definition passedOn (enableAuditLog enableEncryption departmentLevel accessLevel : value)
    : schemaOptions :=
  {| Connector.enableAuditLog := truthy enableAuditLog;
     Connector.enableEncryption := truthy enableEncryption;
     Connector.departmentLevel := truthy departmentLevel;
     Connector.accessLevel := toStr accessLevel |}.

(** [createSecureTable]. The [securityOptions] property of the details of
    TABLE_CREATED, an object, is kept as its JSON text. *)
Definition createSecureTable (tableName : string) (fields : list field)
    (securityOptions : object) : W provisioned :=
  tryCatchW
    ( isConnected <- getsW (fun w => connected (this (core w))) ;;
      (if isConnected then retW tt
       else throwW "Not connected to database. Please connect first.") ;;
      (if isValidTableName tableName then retW tt
       else throwW "Invalid table name. Use only letters, numbers, and underscores.") ;;
      let enableAuditLog := defaulted (Bool true) (prop "enableAuditLog" securityOptions) in
      let enableEncryption := defaulted (Bool true) (prop "enableEncryption" securityOptions) in
      let departmentLevel := defaulted (Bool true) (prop "departmentLevel" securityOptions) in
      let retentionDays := defaulted Null (prop "retentionDays" securityOptions) in
      let accessLevel := defaulted (Str "internal") (prop "accessLevel" securityOptions) in
      let createTable :=
        generateSecureTableSchema tableName fields
          (passedOn enableAuditLog enableEncryption departmentLevel accessLevel) in
      let auditTrigger := generateAuditTrigger tableName in
      let retentionPolicy := generateRetentionPolicy tableName in
      success <- executeSQL createTable ;;
      if success then
        setupRLSPolicies tableName accessLevel ;;
        (if truthy enableAuditLog
         then _ <- executeSQL auditTrigger ;; retW tt else retW tt) ;;
        (if truthy retentionDays
         then _ <- executeSQL
                     (replaceFirst daysPlaceholder (toStr retentionDays) retentionPolicy) ;;
              retW tt
         else retW tt) ;;
        logEvent "TABLE_CREATED"
          [ ("tableName", Str tableName);
            ("fieldsCount", Num (Z.of_nat (List.length fields)));
            ("securityOptions", Str (stringify securityOptions)) ] ;;
        retW (Created tableName accessLevel
                (map fst (filter (fun kv => truthy (snd kv)) securityOptions)))
      else throwW "Failed to create table" )
    (fun message =>
       logEvent "TABLE_CREATION_FAILED"
         [ ("tableName", Str tableName); ("error", Str message) ] ;;
       retW (NotCreated message)).

(** ** Reporting *)

(** [(summary[e] || 0) + 1]; a summary holds only the numbers written
    here. *)
Definition increment (v : value) : value :=
  match orElse v (Num 0) with
  | Num n => Num (n + 1)
  | other => other
  end.

Definition summarizeEvents (logs : list logEntry) : object :=
  fold_left
    (fun summary log => set (event log) (increment (prop (event log) summary)) summary)
    logs [].

(** [logs.slice(-50)]. *)
Definition lastFifty (logs : list logEntry) : list logEntry :=
  skipn (List.length logs - 50) logs.

Definition getSecurityReport : W report :=
  logs <- getsW (fun w => securityLog (window (core w))) ;;
  t <- lift (now isoTime) ;;
  c <- getsW (fun w => this (core w)) ;;
  retW {| generatedAt := t;
          totalEvents := List.length logs;
          recentEvents := lastFifty logs;
          eventSummary := summarizeEvents logs;
          status :=
            {| encryptionEnabled :=
                 match encryptionKey c with Some _ => true | None => false end;
               connectionSecure := connected c;
               auditingEnabled := true;
               lastActivity := option_map timestamp (List.last (map Some logs) None) |} |}.

End Environment.
End Session.

(* ================================================================== *)
(** * Properties of the classifier and of the schema generator *)
(* ================================================================== *)

Module ClassifierFacts.
Import JS RegExp Connector.

Definition note (text : string) : object := [("note", Str text)].

(** C2, as the specification states it, fails on its first example: the
    word "confidential" is itself one of the restricted patterns, so the
    record is not classified [confidential]. *)
Lemma classify_confidential_salary_not_confidential :
  classifyData (note "confidential salary data") <> confidential.
Proof. vm_compute. discriminate. Qed.

(** C2 (amended): [classifyData] gives [restricted] on
    [{note:"confidential salary data"}] and on
    [{note:"patent pending trade secret"}], and [internal] on
    [{note:"hello world"}]. *)
Theorem classify_examples :
  classifyData (note "confidential salary data") = restricted /\
  classifyData (note "patent pending trade secret") = restricted /\
  classifyData (note "hello world") = internal.
Proof. repeat split; vm_compute; reflexivity. Qed.

(** The confidential level is reached by a record that matches a
    confidential pattern and no restricted one. *)
Example classify_salary_alone :
  classifyData (note "salary data") = confidential.
Proof. vm_compute; reflexivity. Qed.

(** Detected PII alone leaves the level at [internal]. *)
Example classify_pii_is_internal :
  containsPII (note "reach me at bob@example.com") = true /\
  classifyData (note "reach me at bob@example.com") = internal.
Proof. split; vm_compute; reflexivity. Qed.

Example sensitive_names :
  isSensitiveField (ofName "user_email") = true /\
  isSensitiveField (ofName "favorite_color") = false.
Proof. split; vm_compute; reflexivity. Qed.

End ClassifierFacts.

Module SchemaFacts.
Import JS RegExp Connector.

Definition ssnField : field :=
  {| name := "ssn"; label := None; type := "text"; required := true |}.

(** The caller's options [{enableEncryption: true}], with the two flags the
    call leaves out made explicit. *)
Definition encryptionOn (audit dept : option bool) : securityOptions :=
  {| optAuditLog := audit; optEncryption := Some true;
     optDepartmentLevel := dept; optAccessLevel := None |}.

Definition hasEncryptedPair (sql : string) : Prop :=
  includes (quoted "ssn_encrypted") sql = true /\
  includes (quoted "ssn_hash") sql = true /\
  includes (quoted "ssn") sql = false.

(** C3: for the table "orders" with the one required text field "ssn" and
    encryption enabled, the CREATE TABLE text has the columns "ssn_encrypted"
    and "ssn_hash" and has no plain "ssn" column, whether the options go
    through the defaults of [createSecureTable] or reach
    [generateSecureTableSchema] as they are, and whatever the other two flags
    are. *)
Theorem ssn_column_is_encrypted (audit dept : option bool) :
  hasEncryptedPair
    (generateSecureTableSchema "orders" [ssnField]
       (createTableOptions (encryptionOn audit dept))) /\
  hasEncryptedPair
    (generateSecureTableSchema "orders" [ssnField]
       (directOptions (encryptionOn audit dept))).
Proof.
  destruct audit as [[|]|], dept as [[|]|];
    split; repeat split; vm_compute; reflexivity.
Qed.

(** With encryption switched off the same field is a plain column. *)
Example ssn_plain_without_encryption :
  includes (quoted "ssn" +++ " TEXT NOT NULL")
    (generateSecureTableSchema "orders" [ssnField]
       (createTableOptions
          {| optAuditLog := None; optEncryption := Some false;
             optDepartmentLevel := None; optAccessLevel := None |})) = true.
Proof. vm_compute; reflexivity. Qed.

End SchemaFacts.

Module IdentifierFacts.
Import JS RegExp Connector.

(** The grammar that sanitized names do satisfy:
    [/^[a-z_][a-z0-9_]*$/]. *)
Definition headRanges : list (ascii * ascii) := [range "a" "z"; one "_"].
Definition tailRanges : list (ascii * ascii) := [range "a" "z"; range "0" "9"; one "_"].

Definition sanitizedIdentifier : pattern :=
  caseSensitive (seq [Bol; Class false headRanges; Star (Class false tailRanges); Eol]).

Definition replaced (c : ascii) : ascii := if isWordChar c then c else underscore.

Ltac every_char c := destruct c as [[|] [|] [|] [|] [|] [|] [|] [|]].

Lemma tail_char_ok (c : ascii) :
  existsb (inRange false (lowerChar (replaced c))) tailRanges = true.
Proof. every_char c; reflexivity. Qed.

Lemma head_char_ok (c : ascii) :
  isDigit (replaced c) = false ->
  existsb (inRange false (lowerChar (replaced c))) headRanges = true.
Proof. every_char c; intros H; try reflexivity; discriminate H. Qed.

Lemma underscore_head_ok :
  existsb (inRange false (lowerChar underscore)) headRanges = true.
Proof. reflexivity. Qed.

Lemma replaceNonWord_cons c t :
  replaceNonWord (String c t) = String (replaced c) (replaceNonWord t).
Proof. reflexivity. Qed.

Lemma tail_ok (s : string) :
  allChars (fun d => existsb (inRange false d) tailRanges)
    (toLowerCase (replaceNonWord s)) = true.
Proof.
  induction s as [|c t IH]; [reflexivity|].
  rewrite replaceNonWord_cons. unfold toLowerCase in *.
  cbn [mapString allChars]. rewrite tail_char_ok, IH. reflexivity.
Qed.

(** The shape of a sanitized non-empty name. *)
Lemma sanitize_shape (c : ascii) (t : string) :
  exists h r,
    sanitizeColumnName (String c t) = String h r /\
    existsb (inRange false h) headRanges = true /\
    allChars (fun d => existsb (inRange false d) tailRanges) r = true.
Proof.
  unfold sanitizeColumnName. rewrite replaceNonWord_cons.
  unfold prefixLeadingDigit.
  destruct (isDigit (replaced c)) eqn:D.
  - exists (lowerChar underscore), (toLowerCase (String (replaced c) (replaceNonWord t))).
    split; [reflexivity|]. split; [exact underscore_head_ok|].
    rewrite <- replaceNonWord_cons. apply tail_ok.
  - exists (lowerChar (replaced c)), (toLowerCase (replaceNonWord t)).
    split; [reflexivity|]. split; [apply head_char_ok; exact D | apply tail_ok].
Qed.

(** A run of characters of a class takes [Star] of the class to the end. *)
Lemma closure_reaches_end (ok : ascii -> bool) (t : string) :
  allChars ok t = true ->
  forall b, exists b',
    In {| before := b'; rest := "" |}
       (iterate (eat ok) (String.length t) {| before := b; rest := t |}).
Proof.
  induction t as [|d t IH]; intros H b.
  - exists b. left. reflexivity.
  - cbn [allChars] in H. apply andb_true_iff in H as [Hd Ht].
    destruct (IH Ht (Some d)) as [b' Hin].
    exists b'. cbn [String.length iterate]. right.
    assert (E : eat ok {| before := b; rest := String d t |}
                = [{| before := Some d; rest := t |}]).
    { unfold eat. cbn [rest]. rewrite Hd. reflexivity. }
    rewrite E. cbn [filter]. unfold shorter. cbn [rest String.length].
    replace (String.length t <? S (String.length t)) with true
      by (symmetry; apply Nat.ltb_lt; lia).
    cbn [flat_map]. rewrite app_nil_r. exact Hin.
Qed.

Lemma flat_map_hit {A B} (f : A -> list B) (x : A) (l : list A) :
  In x l -> f x <> [] -> flat_map f l <> [].
Proof.
  intros Hin Hx E. apply Hx.
  destruct (f x) as [|y ys] eqn:Fx; [reflexivity|].
  assert (Hy : In y (flat_map f l)).
  { apply in_flat_map. exists x. split; [exact Hin|]. rewrite Fx. left. reflexivity. }
  rewrite E in Hy. destruct Hy.
Qed.

Lemma anchored_match (A B : list (ascii * ascii)) (h : ascii) (r : string) :
  existsb (inRange false h) A = true ->
  allChars (fun d => existsb (inRange false d) B) r = true ->
  test (caseSensitive (seq [Bol; Class false A; Star (Class false B); Eol]))
       (String h r) = true.
Proof.
  intros Hh Hr. unfold test. cbn [search]. apply orb_true_iff. left.
  unfold matchesAt, caseSensitive, seq. cbn [body ignoreCase fold_right run before flat_map].
  rewrite app_nil_r.
  assert (E : eat (fun d => xorb false (existsb (inRange false d) A))
                {| before := None; rest := String h r |}
              = [{| before := Some h; rest := r |}]).
  { unfold eat. cbn [rest]. rewrite Hh. reflexivity. }
  rewrite E. cbn [flat_map]. rewrite app_nil_r.
  destruct (closure_reaches_end (fun d => xorb false (existsb (inRange false d) B)) r)
    with (b := Some h) as [b' Hin].
  { clear -Hr. induction r as [|d r IH]; [reflexivity|].
    cbn [allChars] in *. apply andb_true_iff in Hr as [H1 H2].
    rewrite H1, (IH H2). reflexivity. }
  match goal with |- match ?l with _ => _ end = true => destruct l eqn:El end;
    [|reflexivity].
  exfalso. revert El. apply flat_map_hit with (x := {| before := b'; rest := "" |}).
  - exact Hin.
  - cbn. discriminate.
Qed.

(** C9, as the specification states it, fails: a name that starts with a
    digit is sanitized to one that starts with an underscore, which the
    identifier grammar [[a-zA-Z][a-zA-Z0-9_]*] rejects. *)
Lemma sanitized_leading_digit_not_identifier :
  sanitizeColumnName "1abc" = "_1abc" /\
  test identifier (sanitizeColumnName "1abc") = false.
Proof. split; vm_compute; reflexivity. Qed.

(** The empty name stays empty, and matches no identifier grammar. *)
Example sanitize_empty :
  sanitizeColumnName "" = "" /\ test identifier "" = false.
Proof. split; vm_compute; reflexivity. Qed.

(** C9 (amended): the sanitized form of every non-empty name matches
    [[a-z_][a-z0-9_]*]: a lower-case letter or an underscore, then lower-case
    letters, digits or underscores. The empty name is sanitized to itself. *)
Theorem sanitized_grammar (s : string) :
  (s = "" /\ sanitizeColumnName s = "") \/
  (s <> "" /\ test sanitizedIdentifier (sanitizeColumnName s) = true).
Proof.
  destruct s as [|c t].
  - left. split; reflexivity.
  - right. split; [discriminate|].
    destruct (sanitize_shape c t) as (h & r & -> & Hh & Hr).
    apply anchored_match; assumption.
Qed.

End IdentifierFacts.

(* ================================================================== *)
(** * Reading and writing properties *)
(* ================================================================== *)

Module ObjectFacts.
Import JS.

Lemma get_none (k : string) (o : object) : ~ In k (keys o) -> get k o = None.
Proof.
  induction o as [|[k' v] o IH]; intros H; [reflexivity|].
  cbn [get]. destruct (String.eqb_spec k' k) as [->|N].
  - exfalso. apply H. left. reflexivity.
  - apply IH. intros Hin. apply H. right. exact Hin.
Qed.

Lemma get_in (k : string) (v : value) (o : object) :
  wellFormed o -> In (k, v) o -> get k o = Some v.
Proof.
  unfold wellFormed. induction o as [|[k' v'] o IH]; intros W Hin; [destruct Hin|].
  cbn [keys map fst] in W. inversion W as [|? ? Hnot W']; subst.
  cbn [get]. destruct Hin as [E|Hin].
  - inversion E; subst. rewrite String.eqb_refl. reflexivity.
  - destruct (String.eqb_spec k' k) as [->|N].
    + exfalso. apply Hnot. change (In k (keys o)). unfold keys.
      apply in_map_iff. exists (k, v). split; [reflexivity|exact Hin].
    + apply IH; assumption.
Qed.

Lemma get_some_in (k : string) (v : value) (o : object) :
  get k o = Some v -> In (k, v) o.
Proof.
  induction o as [|[k' v'] o IH]; cbn [get]; [discriminate|].
  destruct (String.eqb_spec k' k) as [->|N]; intros H.
  - inversion H; subst. left. reflexivity.
  - right. apply IH. exact H.
Qed.

Lemma in_keys (k : string) (v : value) (o : object) : In (k, v) o -> In k (keys o).
Proof.
  intros H. unfold keys. apply in_map_iff. exists (k, v). split; [reflexivity|exact H].
Qed.

Lemma value_unique (k : string) (v v' : value) (o : object) :
  wellFormed o -> In (k, v) o -> In (k, v') o -> v = v'.
Proof.
  intros W H H'. apply (get_in _ _ _ W) in H. apply (get_in _ _ _ W) in H'.
  congruence.
Qed.

Lemma get_set_same (k : string) (v : value) (o : object) : get k (set k v o) = Some v.
Proof.
  induction o as [|[k' v'] o IH]; cbn [set get].
  - rewrite String.eqb_refl. reflexivity.
  - destruct (String.eqb_spec k' k) as [->|N]; cbn [get].
    + rewrite String.eqb_refl. reflexivity.
    + destruct (String.eqb_spec k' k); [contradiction|exact IH].
Qed.

Lemma get_set_other (k k' : string) (v : value) (o : object) :
  k <> k' -> get k (set k' v o) = get k o.
Proof.
  intros N. induction o as [|[k0 v0] o IH]; cbn [set get].
  - destruct (String.eqb_spec k' k); [congruence|reflexivity].
  - destruct (String.eqb_spec k0 k') as [->|N0]; cbn [get].
    + destruct (String.eqb_spec k' k); [congruence|reflexivity].
    + destruct (String.eqb_spec k0 k); [reflexivity|exact IH].
Qed.

(** ** Keys with a suffix *)

Lemma chars_append (a b : string) :
  list_ascii_of_string (a +++ b) = list_ascii_of_string a ++ list_ascii_of_string b.
Proof.
  induction a as [|c a IH]; [reflexivity|]. cbn. rewrite IH. reflexivity.
Qed.

Lemma chars_inj (a b : string) :
  list_ascii_of_string a = list_ascii_of_string b -> a = b.
Proof.
  intros H. rewrite <- (string_of_list_ascii_of_string a),
    <- (string_of_list_ascii_of_string b), H. reflexivity.
Qed.

Lemma suffix_cancel (a b s : string) : a +++ s = b +++ s -> a = b.
Proof.
  intros H. apply chars_inj. apply (f_equal list_ascii_of_string) in H.
  rewrite !chars_append in H. eapply app_inv_tail. exact H.
Qed.

Lemma suffixes_differ (a b : string) : a +++ "_hash" <> b +++ "_encrypted".
Proof.
  intros H. apply (f_equal list_ascii_of_string) in H.
  rewrite !chars_append in H. apply (f_equal (@rev ascii)) in H.
  rewrite !rev_app_distr in H. cbn in H. discriminate H.
Qed.

End ObjectFacts.

(* ================================================================== *)
(** * The record digest does not depend on the order of the fields *)
(* ================================================================== *)

Module DigestFacts.
Import JS RegExp Connector Runtime ObjectFacts.

(** ** The default comparison of [sort] is a total order *)

Lemma leb_not_gt (a b : string) : (a <=? b)%string = true <-> (a ?= b)%string <> Gt.
Proof.
  unfold String.leb. destruct (a ?= b)%string; split; intros H;
    try reflexivity; try discriminate; try (intros E; discriminate E).
  exfalso. apply H. reflexivity.
Qed.

Lemma compare_not_gt_trans (a : string) :
  forall b c, (a ?= b)%string <> Gt -> (b ?= c)%string <> Gt -> (a ?= c)%string <> Gt.
Proof.
  induction a as [|x a IH]; intros [|y b] [|z c]; cbn [String.compare];
    try discriminate; try congruence.
  unfold Ascii.compare.
  destruct (N.compare_spec (N_of_ascii x) (N_of_ascii y)) as [E1|L1|G1];
    destruct (N.compare_spec (N_of_ascii y) (N_of_ascii z)) as [E2|L2|G2];
    destruct (N.compare_spec (N_of_ascii x) (N_of_ascii z)) as [E3|L3|G3];
    intros H1 H2; try congruence; try lia.
  apply IH with b; assumption.
Qed.

Lemma leb_trans (a b c : string) :
  (a <=? b)%string = true -> (b <=? c)%string = true -> (a <=? c)%string = true.
Proof. rewrite !leb_not_gt. apply compare_not_gt_trans. Qed.

Lemma leb_false_flip (a b : string) :
  (a <=? b)%string = false -> (b <=? a)%string = true.
Proof.
  intros H. destruct (String.leb_total a b) as [T|T]; [congruence|exact T].
Qed.

(** ** Sorting forgets the order of its input *)

Lemma insertSorted_swap (x y : string) (l : list string) :
  insertSorted x (insertSorted y l) = insertSorted y (insertSorted x l).
Proof.
  induction l as [|z l IH]; cbn [insertSorted].
  - destruct (x <=? y)%string eqn:XY, (y <=? x)%string eqn:YX; try reflexivity.
    + rewrite (String.leb_antisym _ _ XY YX). reflexivity.
    + apply leb_false_flip in XY. congruence.
  - destruct (y <=? z)%string eqn:YZ, (x <=? z)%string eqn:XZ; cbn [insertSorted].
    + destruct (x <=? y)%string eqn:XY, (y <=? x)%string eqn:YX;
        rewrite ?XZ, ?YZ; try reflexivity.
      * rewrite (String.leb_antisym _ _ XY YX). reflexivity.
      * apply leb_false_flip in XY. congruence.
    + assert (XY : (x <=? y)%string = false).
      { destruct (x <=? y)%string eqn:E; [|reflexivity].
        rewrite (leb_trans _ _ _ E YZ) in XZ. discriminate. }
      rewrite XY, YZ. cbn [insertSorted]. rewrite XZ. reflexivity.
    + assert (YX : (y <=? x)%string = false).
      { destruct (y <=? x)%string eqn:E; [|reflexivity].
        rewrite (leb_trans _ _ _ E XZ) in YZ. discriminate. }
      rewrite YX, XZ. cbn [insertSorted]. rewrite YZ. reflexivity.
    + rewrite XZ, YZ. f_equal. exact IH.
Qed.

Lemma sort_permutation (l1 l2 : list string) :
  Permutation l1 l2 -> sort l1 = sort l2.
Proof.
  unfold sort. induction 1; cbn [fold_right].
  - reflexivity.
  - f_equal. assumption.
  - apply insertSorted_swap.
  - congruence.
Qed.

(** ** Reading a property forgets the order of a well-formed object *)

Lemma get_permutation (k : string) (o1 o2 : object) :
  wellFormed o1 -> Permutation o1 o2 -> get k o1 = get k o2.
Proof.
  intros W P.
  assert (W2 : wellFormed o2).
  { unfold wellFormed, keys in *. eapply Permutation_NoDup; [|exact W].
    apply Permutation_map. exact P. }
  destruct (get k o1) as [v|] eqn:G1.
  - symmetry. apply get_in; [exact W2|].
    eapply Permutation_in; [exact P|]. apply get_some_in. exact G1.
  - destruct (get k o2) as [v|] eqn:G2; [|reflexivity].
    apply get_some_in in G2. eapply Permutation_in in G2; [|symmetry; exact P].
    rewrite (get_in _ _ _ W G2) in G1. discriminate.
Qed.

Lemma serializeObject_permutation (K : list string) (o1 o2 : object) :
  wellFormed o1 -> Permutation o1 o2 -> serializeObject K o1 = serializeObject K o2.
Proof.
  intros W P. unfold serializeObject.
  assert (E : flat_map (fun k => member k o1) K = flat_map (fun k => member k o2) K).
  { apply flat_map_ext. intros k. unfold member.
    rewrite (get_permutation k o1 o2 W P). reflexivity. }
  rewrite E. reflexivity.
Qed.

Section Digest.

Variable subtleDigest : string -> option string.

(** C1: two records with the same key-value pairs, listed in any two
    orders, have the same integrity digest. *)
Theorem digest_order_independent (c : connector) (R1 R2 : object) :
  wellFormed R1 -> Permutation R1 R2 ->
  generateDataHash subtleDigest c R1 = generateDataHash subtleDigest c R2.
Proof.
  intros W P. unfold generateDataHash, stringifyWith.
  assert (K : sort (keys R1) = sort (keys R2)).
  { apply sort_permutation. unfold keys. apply Permutation_map. exact P. }
  rewrite K. rewrite (serializeObject_permutation _ R1 R2 W P). reflexivity.
Qed.

End Digest.

(** The canonical text is the one with the keys in code-unit order. *)
Example canonical_text :
  stringifyWith (sort (keys [("b", Num 2); ("a", Str "x")])) [("b", Num 2); ("a", Str "x")]
  = stringify [("a", Str "x"); ("b", Num 2)].
Proof. vm_compute; reflexivity. Qed.

Definition sampleRecord : object := [("name", Str "Ada"); ("age", Num 36); ("ok", Bool true)].
Definition sampleShuffled : object := [("ok", Bool true); ("name", Str "Ada"); ("age", Num 36)].

Lemma digest_order_independent_witness :
  generateDataHash Samples.digest (Samples.session true) sampleRecord
  = generateDataHash Samples.digest (Samples.session true) sampleShuffled.
Proof.
  apply (digest_order_independent Samples.digest (Samples.session true) sampleRecord sampleShuffled).
  - unfold wellFormed. cbn. repeat constructor; cbn; intuition discriminate.
  - unfold sampleRecord, sampleShuffled.
    apply Permutation_sym, Permutation_cons_app with (l1 := [("name", Str "Ada"); ("age", Num 36)]) (l2 := []).
    rewrite app_nil_r. apply Permutation_refl.
Defined.

End DigestFacts.

(* ================================================================== *)
(** * The audit trail *)
(* ================================================================== *)

Module AuditFacts.
Import JS RegExp Connector Runtime.

Section Trail.

Variable navigatorUserAgent : string.
Variable isoTime : nat -> string.

(** The entry that [logSecurityEvent] builds in a given state. *)
Definition entryAt (st : state) (event : string) (details : object) : logEntry :=
  {| timestamp := isoTime (clock (window st));
     event := event;
     user := orElse (match currentUser (this st) with
                     | Some u => prop "email" u
                     | None => Undefined
                     end) (Str "anonymous");
     ip := "client-ip-protected";
     userAgent := String.substring 0 100 navigatorUserAgent;
     details := details |}.

(** The state that [logSecurityEvent] leaves. *)
Definition logged (event : string) (details : object) (st : state) : state :=
  snd (logSecurityEvent navigatorUserAgent isoTime event details st).

Lemma logSecurityEvent_run (event : string) (details : object) (st : state) :
  logSecurityEvent navigatorUserAgent isoTime event details st
  = (Ok tt, logged event details st).
Proof. reflexivity. Qed.

Lemma logged_this event details st :
  this (logged event details st) = pushAudit (entryAt st event details) (this st).
Proof. reflexivity. Qed.

Lemma logged_auditLog event details st :
  auditLog (this (logged event details st))
  = auditLog (this st) ++ [entryAt st event details].
Proof. reflexivity. Qed.

Lemma logged_securityLog event details st :
  securityLog (window (logged event details st))
  = keepLast (securityLog (window st) ++ [stored (entryAt st event details)]).
Proof. reflexivity. Qed.

Lemma logged_network event details st :
  network (window (logged event details st)) = network (window st).
Proof. reflexivity. Qed.

Lemma logged_connected event details st :
  connected (this (logged event details st)) = connected (this st).
Proof. reflexivity. Qed.

Lemma logged_supabaseUrl event details st :
  supabaseUrl (this (logged event details st)) = supabaseUrl (this st).
Proof. reflexivity. Qed.

(** ** Trimming keeps the newest entries *)

Lemma keepLast_length (l : list logEntry) :
  List.length (keepLast l) = Nat.min capacity (List.length l).
Proof.
  unfold keepLast. destruct (capacity <? List.length l) eqn:E.
  - apply Nat.ltb_lt in E. rewrite length_skipn. lia.
  - apply Nat.ltb_ge in E. lia.
Qed.

Lemma keepLast_suffix (l : list logEntry) :
  exists evicted, l = evicted ++ keepLast l /\
                  List.length evicted = List.length l - capacity.
Proof.
  unfold keepLast. destruct (capacity <? List.length l) eqn:E.
  - apply Nat.ltb_lt in E. exists (firstn (List.length l - capacity) l). split.
    + symmetry. apply firstn_skipn.
    + rewrite length_firstn. lia.
  - apply Nat.ltb_ge in E. exists []. split; [reflexivity|]. cbn. lia.
Qed.

Lemma keepLast_below (l : list logEntry) :
  List.length l <= capacity -> keepLast l = l.
Proof.
  intros H. unfold keepLast.
  destruct (capacity <? List.length l) eqn:E; [|reflexivity].
  apply Nat.ltb_lt in E. lia.
Qed.

Lemma keepLast_full (oldest e : logEntry) (others : list logEntry) :
  List.length (oldest :: others) = capacity ->
  keepLast ((oldest :: others) ++ [e]) = others ++ [e].
Proof.
  intros H. unfold keepLast. rewrite length_app. cbn [List.length] in *.
  replace (capacity <? S (List.length others) + 1) with true
    by (symmetry; apply Nat.ltb_lt; lia).
  replace (S (List.length others) + 1 - capacity) with 1 by lia.
  reflexivity.
Qed.

(** C7: [logSecurityEvent] returns, and after it the persisted log holds at
    most 1000 entries, whatever it held before; it is what remains of the old log
    followed by the new entry once the oldest entries are dropped, so a log
    of 1000 entries loses its first entry and keeps the other 999, in order,
    before the new one, and a shorter log only grows by the new entry. *)
Theorem persisted_log_bounded_fifo (event : string) (details : object) (st : state) :
  let before := securityLog (window st) in
  let after := securityLog (window (logged event details st)) in
  let new := stored (entryAt st event details) in
  fst (logSecurityEvent navigatorUserAgent isoTime event details st) = Ok tt /\
  List.length after <= 1000 /\
  (exists evicted, before ++ [new] = evicted ++ after /\
                   List.length evicted = List.length before + 1 - 1000) /\
  (forall oldest others,
      before = oldest :: others -> List.length before = 1000 ->
      after = others ++ [new]) /\
  (List.length before < 1000 -> after = before ++ [new]).
Proof.
  intros before after new. subst after. rewrite logged_securityLog.
  fold before. fold new. repeat split.
  - rewrite keepLast_length. apply Nat.le_min_l.
  - destruct (keepLast_suffix (before ++ [new])) as (evicted & E & L).
    exists evicted. split; [exact E|]. rewrite L, length_app. reflexivity.
  - intros oldest others E L. rewrite E in *. apply keepLast_full. exact L.
  - intros L. apply keepLast_below. rewrite length_app. cbn [List.length].
    unfold capacity. lia.
Qed.

(** The bound is an invariant of every run of events. *)
Fixpoint logAll (events : list (string * object)) (st : state) : state :=
  match events with
  | [] => st
  | (event, details) :: more => logAll more (logged event details st)
  end.

Lemma persisted_log_invariant (events : list (string * object)) (st : state) :
  List.length (securityLog (window st)) <= 1000 ->
  List.length (securityLog (window (logAll events st))) <= 1000.
Proof.
  revert st. induction events as [|[event details] more IH]; intros st H.
  - exact H.
  - cbn [logAll]. apply IH. rewrite logged_securityLog, keepLast_length.
    apply Nat.le_min_l.
Qed.

(** The log of the connector itself is not trimmed. *)
Lemma auditLog_grows (event : string) (details : object) (st : state) :
  List.length (auditLog (this (logged event details st)))
  = S (List.length (auditLog (this st))).
Proof. rewrite logged_auditLog, length_app. cbn. lia. Qed.

End Trail.

(** A full log: entry number 1 is the oldest. *)
Definition numbered (n : nat) : logEntry :=
  {| timestamp := Samples.time n; event := "CONNECTION_SUCCESS"; user := Str "anonymous";
     ip := "client-ip-protected"; userAgent := Samples.agent; details := [] |}.

Definition fullLog : list logEntry := map numbered (List.seq 1 1000).

Definition fullState : state :=
  {| this := Samples.session true;
     window := {| securityLog := fullLog; clock := 1001; entropy := 0; network := [] |} |}.

(** Entry number 1001 pushes entry number 1 out. *)
Example entry_1001_evicts_entry_1 :
  let after :=
    securityLog (window (logged Samples.agent Samples.time "DISCONNECTED" [] fullState)) in
  List.length after = 1000 /\
  map timestamp (firstn 2 after) = [Samples.time 2; Samples.time 3] /\
  map event (skipn 998 after) = ["CONNECTION_SUCCESS"; "DISCONNECTED"].
Proof. vm_compute. repeat split. Qed.

End AuditFacts.

(* ================================================================== *)
(** * The field cipher *)
(* ================================================================== *)

Module CipherFacts.
Import JS RegExp Connector Runtime ObjectFacts.

(** Encryption touches the key and the random source, nothing else. *)
Record sameSession (st st' : state) : Prop := {
  same_url : supabaseUrl (this st') = supabaseUrl (this st);
  same_key : supabaseKey (this st') = supabaseKey (this st);
  same_connected : connected (this st') = connected (this st);
  same_user : currentUser (this st') = currentUser (this st);
  same_auditLog : auditLog (this st') = auditLog (this st);
  same_securityLog : securityLog (window st') = securityLog (window st);
  same_clock : clock (window st') = clock (window st);
  same_network : network (window st') = network (window st)
}.

Lemma sameSession_refl (st : state) : sameSession st st.
Proof. constructor; reflexivity. Qed.

Lemma sameSession_trans (a b c : state) :
  sameSession a b -> sameSession b c -> sameSession a c.
Proof. intros [] []. constructor; congruence. Qed.

Create HintDb session.
#[local] Hint Resolve sameSession_refl : session.

Section Cipher.

Variable subtleDigest : string -> option string.
Variable subtleGenerateKey : nat -> option nat.
Variable subtleEncrypt : nat -> nat -> string -> option string.

Lemma encrypt_returns (text : string) (st : state) :
  exists token st',
    encrypt subtleGenerateKey subtleEncrypt text st = (Ok token, st') /\
    sameSession st st'.
Proof.
  unfold encrypt, initializeEncryption, random, bind, gets, modify, ret.
  cbn [fst snd].
  destruct (encryptionKey (this st)) as [k|] eqn:K.
  - cbn [this withWindow withThis window encryptionKey]. rewrite K.
    destruct (subtleEncrypt k (entropy (window st)) text);
      eexists; eexists; (split; [reflexivity|constructor; reflexivity]).
  - destruct (subtleGenerateKey (entropy (window st))) as [k|];
      cbn [this withWindow withThis window encryptionKey setKey draw entropy].
    + destruct (subtleEncrypt k (S (entropy (window st))) text);
        eexists; eexists; (split; [reflexivity|constructor; reflexivity]).
    + rewrite K. eexists; eexists; (split; [reflexivity|constructor; reflexivity]).
Qed.

(** The properties that one round of the loop may assign. *)
Definition writes (kv : string * value) : list string :=
  if isSensitiveField (ofName (fst kv)) && truthy (snd kv)
  then [fst kv +++ "_encrypted"; fst kv +++ "_hash"]
  else [fst kv].

Lemma encryptEntry_frame (kv : string * value) (acc : object) (st : state) :
  exists out st',
    encryptEntry subtleDigest subtleGenerateKey subtleEncrypt kv acc st = (Ok out, st') /\
    sameSession st st' /\
    forall k, ~ In k (writes kv) -> get k out = get k acc.
Proof.
  destruct kv as [key v]. unfold encryptEntry, writes. cbn [fst snd].
  destruct (isSensitiveField (ofName key) && truthy v) eqn:E.
  - destruct (toStringMethod v) as [text|] eqn:TS.
    + destruct (encrypt_returns text st) as (token & st' & R & S).
      unfold bind, gets, ret. rewrite R.
      eexists; eexists. split; [reflexivity|]. split; [exact S|].
      intros k N. rewrite !get_set_other; [reflexivity| |];
        intros ->; apply N; cbn; auto.
    + (* a value without [toString] is not truthy *)
      exfalso. apply andb_true_iff in E as [_ T].
      destruct v as [| |[|]| |]; cbn in TS, T; discriminate.
  - eexists; eexists. split; [reflexivity|]. split; [auto with session|].
    intros k N. apply get_set_other. intros ->. apply N. left. reflexivity.
Qed.

Lemma forEntries_frame (entries : list (string * value)) :
  forall (acc : object) (st : state),
  exists out st',
    forEntries subtleDigest subtleGenerateKey subtleEncrypt entries acc st = (Ok out, st') /\
    sameSession st st' /\
    forall k, (forall kv, In kv entries -> ~ In k (writes kv)) -> get k out = get k acc.
Proof.
  induction entries as [|kv more IH]; intros acc st.
  - exists acc, st. split; [reflexivity|]. split; [auto with session|]. reflexivity.
  - destruct (encryptEntry_frame kv acc st) as (a & st1 & R1 & S1 & F1).
    destruct (IH a st1) as (out & st2 & R2 & S2 & F2).
    exists out, st2. cbn [forEntries]. unfold bind at 1. rewrite R1.
    split; [exact R2|]. split; [eapply sameSession_trans; eassumption|].
    intros k N. rewrite F2, F1; [reflexivity| |].
    + apply N. left. reflexivity.
    + intros kv' Hin. apply N. right. exact Hin.
Qed.

Lemma forEntries_app (pre post : list (string * value)) :
  forall (acc : object) (st : state),
  forEntries subtleDigest subtleGenerateKey subtleEncrypt (pre ++ post) acc st
  = bind (forEntries subtleDigest subtleGenerateKey subtleEncrypt pre acc)
         (forEntries subtleDigest subtleGenerateKey subtleEncrypt post) st.
Proof.
  induction pre as [|kv pre IH]; intros acc st.
  - reflexivity.
  - cbn [app forEntries]. unfold bind.
    destruct (encryptEntry _ _ _ kv acc st) as [[a|m] st1]; [|reflexivity].
    rewrite IH. reflexivity.
Qed.

Lemma encryptSensitiveData_returns (data : object) (st : state) :
  exists out st',
    encryptSensitiveData subtleDigest subtleGenerateKey subtleEncrypt data st
    = (Ok out, st') /\ sameSession st st'.
Proof.
  destruct (forEntries_frame data [] st) as (out & st' & R & S & _).
  exists out, st'. split; assumption.
Qed.

(** C10: a field whose name is sensitive and whose value is falsy (the
    empty string, 0, false, null or undefined) goes through its round of the
    loop of [encryptSensitiveData] as the single assignment
    [encryptedData[key] = value], with no call of the cipher. In the
    encrypted form of a record that holds the field, a property
    [key_encrypted] or [key_hash] is there only if the record itself has a
    field of that name, and [key] still holds the plain value unless the
    encrypted or hashed column of another field has that very name. *)
Theorem falsy_sensitive_field_stays_plain (key : string) (v : value) :
  isSensitiveField (ofName key) = true ->
  truthy v = false ->
  (forall acc st,
      encryptEntry subtleDigest subtleGenerateKey subtleEncrypt (key, v) acc st
      = (Ok (set key v acc), st)) /\
  (forall data st, wellFormed data -> In (key, v) data ->
     exists out st',
       encryptSensitiveData subtleDigest subtleGenerateKey subtleEncrypt data st
       = (Ok out, st') /\
       (get (key +++ "_encrypted") out <> None -> In (key +++ "_encrypted") (keys data)) /\
       (get (key +++ "_hash") out <> None -> In (key +++ "_hash") (keys data)) /\
       ((forall k' v', In (k', v') data ->
            isSensitiveField (ofName k') && truthy v' = true ->
            key <> k' +++ "_encrypted" /\ key <> k' +++ "_hash") ->
        get key out = Some v)).
Proof.
  intros Sens Falsy. split.
  - intros acc st. unfold encryptEntry. rewrite Sens, Falsy. reflexivity.
  - intros data st W Hin.
    assert (Derived : forall suffix k' v',
               In (k', v') data ->
               isSensitiveField (ofName k') && truthy v' = true ->
               k' +++ suffix <> key +++ suffix).
    { intros suffix k' v' Hin' T E. apply suffix_cancel in E. subst k'.
      rewrite (value_unique _ _ _ _ W Hin' Hin), Falsy, andb_false_r in T.
      discriminate T. }
    unfold encryptSensitiveData.
    destruct (forEntries_frame data [] st) as (out & st' & R & _ & F).
    exists out, st'. split; [exact R|]. repeat split.
    + intros Present.
      destruct (in_dec string_dec (key +++ "_encrypted") (keys data)) as [I|NI];
        [exact I|].
      exfalso. apply Present. rewrite F; [reflexivity|].
      intros [k' v'] Hin'. unfold writes. cbn [fst snd].
      destruct (isSensitiveField (ofName k') && truthy v') eqn:T.
      * intros [E|[E|[]]].
        -- exact (Derived _ _ _ Hin' T E).
        -- exact (suffixes_differ _ _ E).
      * intros [E|[]]. apply NI. rewrite <- E. eapply in_keys. exact Hin'.
    + intros Present.
      destruct (in_dec string_dec (key +++ "_hash") (keys data)) as [I|NI];
        [exact I|].
      exfalso. apply Present. rewrite F; [reflexivity|].
      intros [k' v'] Hin'. unfold writes. cbn [fst snd].
      destruct (isSensitiveField (ofName k') && truthy v') eqn:T.
      * intros [E|[E|[]]].
        -- symmetry in E. exact (suffixes_differ _ _ E).
        -- exact (Derived _ _ _ Hin' T E).
      * intros [E|[]]. apply NI. rewrite <- E. eapply in_keys. exact Hin'.
    + intros Free.
      destruct (in_split _ _ Hin) as (pre & post & ->).
      rewrite forEntries_app in R. unfold bind in R.
      destruct (forEntries_frame pre [] st) as (a & st1 & R1 & _ & _).
      rewrite R1 in R. cbn [forEntries] in R. unfold bind in R.
      unfold encryptEntry at 1 in R. rewrite Sens, Falsy in R. cbn [andb ret] in R.
      destruct (forEntries_frame post (set key v a) st1) as (out' & st2 & R2 & _ & F2).
      rewrite R2 in R. inversion R; subst out' st2.
      rewrite F2; [apply get_set_same|].
      intros [k' v'] Hin'. unfold writes. cbn [fst snd].
      assert (Hin'' : In (k', v') (pre ++ (key, v) :: post)).
      { apply in_or_app. right. right. exact Hin'. }
      destruct (isSensitiveField (ofName k') && truthy v') eqn:T.
      * destruct (Free k' v' Hin'' T) as [N1 N2].
        intros [E|[E|[]]]; congruence.
      * intros [E|[]]. subst k'.
        unfold wellFormed, keys in W. rewrite map_app in W. cbn [map fst] in W.
        apply NoDup_remove_2 in W. apply W. apply in_or_app. right.
        change (In key (keys post)). eapply in_keys. exact Hin'.
Qed.

End Cipher.

Definition emptyEmail : object := [("qty", Num 3); ("email", Str ""); ("ssn", Str "123-45-6789")].

(** An empty e-mail address stays where it was, in plain text, next to the
    encrypted social security number. *)
Example empty_email_stays_plain :
  fst (encryptSensitiveData Samples.digest Samples.keygen Samples.cipher emptyEmail
         (Samples.start true))
  = Ok [("qty", Num 3); ("email", Str "");
        ("ssn_encrypted", Str "aes(1,123-45-6789)");
        ("ssn_hash", Str "sha256(123-45-6789salt-https://demo.supabase.co)")].
Proof. vm_compute; reflexivity. Qed.

Lemma falsy_sensitive_field_stays_plain_witness :
  isSensitiveField (ofName "email") = true /\
  truthy (Str "") = false /\
  encryptEntry Samples.digest Samples.keygen Samples.cipher ("email", Str "") []
    (Samples.start true)
  = (Ok [("email", Str "")], Samples.start true).
Proof.
  split; [reflexivity|]. split; [reflexivity|].
  apply (proj1 (falsy_sensitive_field_stays_plain Samples.digest Samples.keygen
                  Samples.cipher "email" (Str "") eq_refl eq_refl)).
Defined.

(** The values 0, false and null of a sensitive field are sent as they are. *)
Example zero_and_false_stay_plain :
  fst (encryptSensitiveData Samples.digest Samples.keygen Samples.cipher
         [("salary", Num 0); ("has_medical_record", Bool false); ("dob", Null);
          ("phone", Str "555-0100")]
         (Samples.start true))
  = Ok [("salary", Num 0); ("has_medical_record", Bool false); ("dob", Null);
        ("phone_encrypted", Str "aes(1,555-0100)");
        ("phone_hash", Str "sha256(555-0100salt-https://demo.supabase.co)")].
Proof. vm_compute; reflexivity. Qed.

End CipherFacts.

(* ================================================================== *)
(** * The submission pipeline *)
(* ================================================================== *)

Module PipelineFacts.
Import JS RegExp Connector Runtime ObjectFacts AuditFacts CipherFacts.

Section Pipeline.

Variable navigatorUserAgent : string.
Variable isoTime : nat -> string.
Variable subtleDigest : string -> option string.
Variable subtleGenerateKey : nat -> option nat.
Variable subtleEncrypt : nat -> nat -> string -> option string.
Variable fetch : nat -> request -> reply.

Let validate := validateSubmission navigatorUserAgent isoTime.
Let submit :=
  submitSecureData navigatorUserAgent isoTime subtleDigest subtleGenerateKey
    subtleEncrypt fetch.
Let record := logged navigatorUserAgent isoTime.
Let entry := entryAt navigatorUserAgent isoTime.

(** ** Validation *)

Definition unauthenticated (securityContext : object) : bool :=
  negb (truthy (prop "userEmail" securityContext)).

Definition forbidden (formData securityContext : object) : bool :=
  classification_eqb (classifyData formData) restricted &&
  negb (value_eqb (prop "role" securityContext) (Str "admin")).

Lemma validateSubmission_run (formData : object) (tableName : string)
    (securityContext : object) (st : state) :
  exists v d,
    validate formData tableName securityContext st
    = (Ok v, record "VALIDATION_ATTEMPT" d st) /\
    isValid v = negb (unauthenticated securityContext)
                && negb (forbidden formData securityContext) /\
    errors v = (if unauthenticated securityContext
                then ["User authentication required"] else [])
               ++ (if forbidden formData securityContext
                   then ["Restricted data requires admin permissions"] else []).
Proof.
  unfold validate, validateSubmission, unauthenticated, forbidden.
  eexists; eexists. split; [reflexivity|]. cbn [isValid errors].
  split; [reflexivity|].
  destruct (negb (truthy (prop "userEmail" securityContext)));
    destruct (classification_eqb _ _ && _); reflexivity.
Qed.

(** ** The runs of [submitSecureData] *)

Definition failureDetails (tableName message : string) (formData : object) : object :=
  [ ("tableName", Str tableName);
    ("error", Str message);
    ("fieldCount", Num (Z.of_nat (List.length (keys formData)))) ].

Definition terminalEvent (outcome : submission) : string :=
  match outcome with
  | Saved _ _ _ => "DATA_SUBMITTED"
  | Failed _ => "DATA_SUBMISSION_FAILED"
  end.

Definition secureDataOf (formData securityContext : object) : object :=
  set "created_by" (orElse (prop "userEmail" securityContext) (Str "anonymous"))
    (set "security_classification" (Str (levelName (classifyData formData)))
       (set "department" (orElse (prop "department" securityContext) (Str "general"))
          formData)).

Definition notConnected : string := "Not connected to database. Please connect first.".
Definition validationFailed (v : validation) : string :=
  "Validation failed: " +++ join ", " (errors v).

(** The three ways a submission can go, with the state each one leaves. *)
Inductive run (tableName : string) (formData securityContext : object) (st : state)
  : submission -> state -> Prop :=
| Disconnected :
    connected (this st) = false ->
    run tableName formData securityContext st
      (Failed notConnected)
      (record "DATA_SUBMISSION_FAILED" (failureDetails tableName notConnected formData) st)
| Rejected v st1 :
    connected (this st) = true ->
    validate formData tableName securityContext st = (Ok v, st1) ->
    isValid v = false ->
    run tableName formData securityContext st
      (Failed (validationFailed v))
      (record "DATA_SUBMISSION_FAILED"
         (failureDetails tableName (validationFailed v) formData) st1)
| Transmitted v st1 encryptedData st2 r outcome d :
    connected (this st) = true ->
    validate formData tableName securityContext st = (Ok v, st1) ->
    isValid v = true ->
    encryptSensitiveData subtleDigest subtleGenerateKey subtleEncrypt
      (secureDataOf formData securityContext) st1 = (Ok encryptedData, st2) ->
    payload r = set "data_hash" (Str (generateDataHash subtleDigest (this st2) formData))
                  encryptedData ->
    endpoint r = supabaseUrl (this st2) +++ "/rest/v1/" +++ tableName ->
    run tableName formData securityContext st
      outcome
      (record (terminalEvent outcome) d (withWindow (sent r) st2)).

Ltac unfold_monad :=
  cbv beta iota zeta delta [tryCatch bind gets ret throw modify post].

Lemma submit_runs (tableName : string) (formData securityContext : object) (st : state) :
  exists outcome st',
    submit tableName formData securityContext st = (Ok outcome, st') /\
    run tableName formData securityContext st outcome st'.
Proof.
  unfold submit, submitSecureData. unfold_monad.
  destruct (connected (this st)) eqn:C.
  2:{ rewrite logSecurityEvent_run. eexists; eexists. split; [reflexivity|].
      apply Disconnected. exact C. }
  destruct (validateSubmission_run formData tableName securityContext st)
    as (v & d & V & _). unfold validate in V.
  rewrite V. unfold_monad.
  destruct (isValid v) eqn:Valid.
  2:{ rewrite logSecurityEvent_run. eexists; eexists. split; [reflexivity|].
      eapply Rejected; eassumption. }
  fold (secureDataOf formData securityContext).
  destruct (encryptSensitiveData_returns subtleDigest subtleGenerateKey subtleEncrypt
              (secureDataOf formData securityContext) (record "VALIDATION_ATTEMPT" d st))
    as (enc & st2 & E & _).
  unfold record in *. rewrite E. unfold_monad.
  match goal with
  | |- context [fetch ?n ?r] => set (req := r); set (answer := fetch n req)
  end.
  assert (T : forall outcome d,
             run tableName formData securityContext st outcome
               (logged navigatorUserAgent isoTime (terminalEvent outcome) d
                  (withWindow (sent req) st2))).
  { intros outcome d'. eapply Transmitted; try eassumption; reflexivity. }
  destruct answer as [message|[|] [message| |rows|o]];
    unfold_monad; rewrite logSecurityEvent_run;
    eexists; eexists; (split; [reflexivity|]);
    match goal with
    | |- run _ _ _ _ ?out (logged _ _ _ ?d _) => exact (T out d)
    end.
Qed.

(** ** What a run leaves behind *)

Lemma encryptSensitiveData_session (data out : object) (st st' : state) :
  encryptSensitiveData subtleDigest subtleGenerateKey subtleEncrypt data st = (Ok out, st') ->
  sameSession st st'.
Proof.
  intros E.
  destruct (encryptSensitiveData_returns subtleDigest subtleGenerateKey subtleEncrypt data st)
    as (out' & st'' & E' & S).
  rewrite E in E'. inversion E'; subst. exact S.
Qed.

Lemma validate_state formData tableName securityContext st v st1 :
  validate formData tableName securityContext st = (Ok v, st1) ->
  exists d, st1 = record "VALIDATION_ATTEMPT" d st.
Proof.
  intros V.
  destruct (validateSubmission_run formData tableName securityContext st)
    as (v' & d & V' & _).
  rewrite V in V'. inversion V'; subst. exists d. reflexivity.
Qed.

Lemma generateDataHash_url (c c' : connector) (data : object) :
  supabaseUrl c' = supabaseUrl c ->
  generateDataHash subtleDigest c' data = generateDataHash subtleDigest c data.
Proof. intros U. unfold generateDataHash, hash. rewrite U. reflexivity. Qed.

Lemma value_eqb_str (v : value) (s : string) :
  value_eqb v (Str s) = true <-> v = Str s.
Proof.
  destruct v; cbn; split; intros H; try discriminate H.
  - apply String.eqb_eq in H. congruence.
  - inversion H. apply String.eqb_refl.
Qed.

(** The requests that a run adds to the network: none, or the one that
    carries the transformed record. *)
Lemma run_network tableName formData securityContext st outcome st' :
  run tableName formData securityContext st outcome st' ->
  (network (window st') = network (window st) /\
   (connected (this st) = false \/
    exists v st1, validate formData tableName securityContext st = (Ok v, st1) /\
                  isValid v = false)) \/
  (exists v st1 encryptedData st2 r,
      connected (this st) = true /\
      validate formData tableName securityContext st = (Ok v, st1) /\
      isValid v = true /\
      encryptSensitiveData subtleDigest subtleGenerateKey subtleEncrypt
        (secureDataOf formData securityContext) st1 = (Ok encryptedData, st2) /\
      payload r = set "data_hash" (Str (generateDataHash subtleDigest (this st) formData))
                    encryptedData /\
      network (window st') = network (window st) ++ [r]).
Proof.
  intros R. inversion R as [C|v st1 C V I|v st1 enc st2 r out d C V I E P U]; subst.
  - left. split; [apply logged_network|]. left. exact C.
  - left. destruct (validate_state _ _ _ _ _ _ V) as (d & ->). split.
    + unfold record. rewrite !logged_network. reflexivity.
    + right. exists v. eexists. split; [exact V|exact I].
  - right. exists v, st1, enc, st2, r.
    destruct (validate_state _ _ _ _ _ _ V) as (d' & ->).
    pose proof (encryptSensitiveData_session _ _ _ _ E) as S.
    repeat split; try assumption.
    + rewrite P. f_equal. f_equal. apply generateDataHash_url.
      rewrite (same_url _ _ S). apply logged_supabaseUrl.
    + unfold record. rewrite logged_network. cbn [withWindow window sent network].
      rewrite (same_network _ _ S). unfold record. rewrite logged_network. reflexivity.
Qed.

(** C4: when the connector is connected and the validation passes,
    [submitSecureData] sends exactly one request, and the [data_hash] of the
    record it carries is [generateDataHash] of the form data as the caller
    passed them, before the metadata were attached and before any field was
    encrypted; in every other case nothing is sent. *)
Theorem data_hash_is_digest_of_input (tableName : string)
    (formData securityContext : object) (st : state) :
  let st' := snd (submit tableName formData securityContext st) in
  let valid := match fst (validate formData tableName securityContext st) with
               | Ok v => isValid v
               | Throw _ => false
               end in
  if connected (this st) && valid
  then exists r,
         network (window st') = network (window st) ++ [r] /\
         get "data_hash" (payload r)
         = Some (Str (generateDataHash subtleDigest (this st) formData))
  else network (window st') = network (window st).
Proof.
  intros st' valid. subst st' valid.
  destruct (submit_runs tableName formData securityContext st) as (out & st' & Eq & R).
  rewrite Eq. cbn [snd].
  destruct (run_network _ _ _ _ _ _ R)
    as [[N [C|(v & st1 & V & I)]]|(v & st1 & enc & st2 & r & C & V & I & _ & P & N)].
  - rewrite C. exact N.
  - rewrite V. cbn [fst]. rewrite I, andb_false_r. exact N.
  - rewrite C, V. cbn [fst]. rewrite I. cbn [andb].
    exists r. split; [exact N|]. rewrite P. apply get_set_same.
Qed.

(** C5: a record classified [restricted] fails the validation for every
    security context whose role is not admin. With the role admin the same
    record passes that check; if the context also names a user the
    validation succeeds, and a connected connector goes on to transform the
    record and to send it. *)
Theorem restricted_needs_admin (tableName : string)
    (formData securityContext : object) (st : state) :
  classifyData formData = restricted ->
  exists v st1,
    validate formData tableName securityContext st = (Ok v, st1) /\
    (prop "role" securityContext <> Str "admin" ->
       isValid v = false /\
       In "Restricted data requires admin permissions" (errors v)) /\
    (prop "role" securityContext = Str "admin" ->
       ~ In "Restricted data requires admin permissions" (errors v) /\
       (truthy (prop "userEmail" securityContext) = true ->
          isValid v = true /\
          (connected (this st) = true ->
             exists encryptedData st2 r,
               encryptSensitiveData subtleDigest subtleGenerateKey subtleEncrypt
                 (secureDataOf formData securityContext) st1 = (Ok encryptedData, st2) /\
               payload r
               = set "data_hash" (Str (generateDataHash subtleDigest (this st) formData))
                   encryptedData /\
               network (window (snd (submit tableName formData securityContext st)))
               = network (window st) ++ [r]))).
Proof.
  intros Restricted.
  destruct (validateSubmission_run formData tableName securityContext st)
    as (v & d & V & I & Errs).
  exists v. eexists. split; [exact V|].
  unfold forbidden in *. rewrite Restricted in *. cbn [classification_eqb andb] in *.
  split.
  - intros NotAdmin.
    assert (F : value_eqb (prop "role" securityContext) (Str "admin") = false).
    { destruct (value_eqb _ _) eqn:E; [|reflexivity].
      apply value_eqb_str in E. contradiction. }
    rewrite F in *. cbn [negb] in *. split.
    + rewrite I. apply andb_false_r.
    + rewrite Errs. apply in_or_app. right. left. reflexivity.
  - intros Admin.
    assert (T : value_eqb (prop "role" securityContext) (Str "admin") = true)
      by (apply value_eqb_str; exact Admin).
    rewrite T in *. cbn [negb] in *. split.
    + rewrite Errs, app_nil_r.
      destruct (unauthenticated securityContext); cbn; [|tauto].
      intros [E|[]]. discriminate E.
    + intros Authenticated. unfold unauthenticated in I.
      rewrite Authenticated in I. cbn in I. split; [exact I|].
      intros C.
      destruct (submit_runs tableName formData securityContext st)
        as (out & st' & Eq & R).
      rewrite Eq. cbn [snd].
      destruct (run_network _ _ _ _ _ _ R)
        as [[_ [C'|(v' & st1' & V' & I')]]
           |(v' & st1' & enc & st2 & r & _ & V' & _ & E & P & N)].
      * congruence.
      * rewrite V in V'. inversion V'; subst. congruence.
      * rewrite V in V'. inversion V'; subst. exists enc, st2, r. auto.
Qed.

(** C6: whatever the record, a security context whose [userEmail] is
    absent or empty (or falsy in any other way) fails the validation with
    the error "User authentication required", and [submitSecureData] returns
    a failure and sends nothing; on a connected connector the failure carries
    that error. *)
Theorem unauthenticated_submission_fails (tableName : string)
    (formData securityContext : object) (st : state) :
  truthy (prop "userEmail" securityContext) = false ->
  (exists v st1,
      validate formData tableName securityContext st = (Ok v, st1) /\
      isValid v = false /\
      In "User authentication required" (errors v)) /\
  (exists message st',
      submit tableName formData securityContext st = (Ok (Failed message), st') /\
      network (window st') = network (window st) /\
      (connected (this st) = true ->
         includes "User authentication required" message = true)).
Proof.
  intros Anonymous.
  destruct (validateSubmission_run formData tableName securityContext st)
    as (v & d & V & I & Errs).
  unfold unauthenticated in *. rewrite Anonymous in *. cbn [negb andb] in *.
  split.
  - exists v. eexists. split; [exact V|]. split; [exact I|].
    rewrite Errs. left. reflexivity.
  - destruct (submit_runs tableName formData securityContext st) as (out & st' & Eq & R).
    inversion R as [C|v' st1 C V' I'|v' st1 enc st2 r out' d' C V' I' E P U]; subst.
    + eexists; eexists. split; [exact Eq|]. split; [apply logged_network|].
      intros C'. congruence.
    + rewrite V in V'. inversion V'; subst v' st1.
      eexists; eexists. split; [exact Eq|]. split.
      * unfold record. rewrite !logged_network. reflexivity.
      * intros _. unfold validationFailed. rewrite Errs.
        destruct (forbidden formData securityContext); vm_compute; reflexivity.
    + rewrite V in V'. inversion V'; subst. congruence.
Qed.

(** C8 (amended): every call of [submitSecureData] returns a result, and
    the last entry it appends to the audit log is the one terminal entry of
    the submission: DATA_SUBMITTED when it succeeded, DATA_SUBMISSION_FAILED
    when it failed. On a connected connector the validation has appended a
    VALIDATION_ATTEMPT entry before it, so the submission emits two entries;
    on a connector that is not connected it emits the terminal entry alone. *)
Theorem one_terminal_entry (tableName : string)
    (formData securityContext : object) (st : state) :
  exists outcome st' attempts terminal,
    submit tableName formData securityContext st = (Ok outcome, st') /\
    auditLog (this st') = auditLog (this st) ++ attempts ++ [terminal] /\
    map event attempts = (if connected (this st) then ["VALIDATION_ATTEMPT"] else []) /\
    event terminal = terminalEvent outcome.
Proof.
  destruct (submit_runs tableName formData securityContext st) as (out & st' & Eq & R).
  exists out, st'.
  inversion R as [C|v st1 C V I|v st1 enc st2 r out' d C V I E P U]; subst.
  - exists [], (entry st "DATA_SUBMISSION_FAILED"
                  (failureDetails tableName notConnected formData)).
    rewrite C. repeat split; try reflexivity. exact Eq.
  - destruct (validate_state _ _ _ _ _ _ V) as (d & ->).
    exists [entry st "VALIDATION_ATTEMPT" d].
    eexists. rewrite C. split; [exact Eq|]. split; [|split; [reflexivity|]].
    + unfold record. rewrite logged_auditLog, logged_auditLog, <- app_assoc. reflexivity.
    + reflexivity.
  - destruct (validate_state _ _ _ _ _ _ V) as (d' & ->).
    pose proof (encryptSensitiveData_session _ _ _ _ E) as S.
    exists [entry st "VALIDATION_ATTEMPT" d'].
    eexists. rewrite C. split; [exact Eq|]. split; [|split; [reflexivity|]].
    + unfold record. rewrite logged_auditLog. cbn [withWindow this].
      rewrite (same_auditLog _ _ S). unfold record. rewrite logged_auditLog, <- app_assoc.
      reflexivity.
    + reflexivity.
Qed.

End Pipeline.

(** ** The pipeline on the sample browser *)

Definition patent : object := [("note", Str "patent pending trade secret")].
Definition greeting : object := [("note", Str "hello world")].

Lemma restricted_needs_admin_witness :
  exists v st1,
    validateSubmission Samples.agent Samples.time patent "orders" Samples.clerk
      (Samples.start true) = (Ok v, st1) /\
    isValid v = false /\
    In "Restricted data requires admin permissions" (errors v).
Proof.
  destruct (restricted_needs_admin Samples.agent Samples.time Samples.digest
              Samples.keygen Samples.cipher Samples.accepting
              "orders" patent Samples.clerk (Samples.start true) eq_refl)
    as (v & st1 & V & NotAdmin & _).
  exists v, st1. split; [exact V|]. apply NotAdmin. vm_compute. discriminate.
Defined.

(** The same record from an administrator is transformed and sent. *)
Example restricted_from_admin_is_sent :
  map endpoint
    (network (window (snd (Samples.submit "orders" patent Samples.admin (Samples.start true)))))
  = ["https://demo.supabase.co/rest/v1/orders"] /\
  prop "security_classification"
    (match network (window (snd (Samples.submit "orders" patent Samples.admin
                                   (Samples.start true)))) with
     | r :: _ => payload r
     | [] => []
     end)
  = Str "restricted".
Proof. split; vm_compute; reflexivity. Qed.

Lemma unauthenticated_submission_fails_witness :
  exists message st',
    Samples.submit "orders" greeting Samples.nobody (Samples.start true)
    = (Ok (Failed message), st') /\
    network (window st') = [] /\
    includes "User authentication required" message = true.
Proof.
  destruct (unauthenticated_submission_fails Samples.agent Samples.time Samples.digest
              Samples.keygen Samples.cipher Samples.accepting
              "orders" greeting Samples.nobody (Samples.start true) eq_refl)
    as (_ & message & st' & Run & Quiet & Why).
  exists message, st'. split; [exact Run|]. split; [exact Quiet|].
  apply Why. reflexivity.
Defined.

(** C8, as the specification states it, fails: a submission that the
    validation rejects has emitted two entries when it returns, the
    validation attempt and the failure. *)
Lemma rejected_submission_emits_two_entries :
  auditLog (this (Samples.start true)) = [] /\
  map event
    (auditLog (this (snd (Samples.submit "orders" greeting Samples.nobody
                            (Samples.start true)))))
  = ["VALIDATION_ATTEMPT"; "DATA_SUBMISSION_FAILED"].
Proof. split; vm_compute; reflexivity. Qed.

(** So does a submission that succeeds; one that finds the connector
    disconnected emits the failure alone. *)
Example accepted_submission_emits_two_entries :
  map event
    (auditLog (this (snd (Samples.submit "orders" greeting Samples.clerk
                            (Samples.start true)))))
  = ["VALIDATION_ATTEMPT"; "DATA_SUBMITTED"] /\
  map event
    (auditLog (this (snd (Samples.submit "orders" greeting Samples.clerk
                            (Samples.start false)))))
  = ["DATA_SUBMISSION_FAILED"].
Proof. split; vm_compute; reflexivity. Qed.

(** A record that the endpoint refuses ends in a failure with the
    endpoint's message, after it was sent. *)
Example refused_submission :
  let run := submitSecureData Samples.agent Samples.time Samples.digest Samples.keygen
               Samples.cipher Samples.refusing "orders" greeting Samples.clerk
               (Samples.start true) in
  fst run = Ok (Failed "permission denied") /\
  List.length (network (window (snd run))) = 1 /\
  map event (auditLog (this (snd run))) = ["VALIDATION_ATTEMPT"; "DATA_SUBMISSION_FAILED"].
Proof. repeat split; vm_compute; reflexivity. Qed.

(** The digest that travels is the digest of the raw record, although the
    record that travels has its sensitive field encrypted. *)
Example data_hash_of_raw_record :
  let raw := [("ssn", Str "123-45-6789"); ("qty", Num 2)] in
  map (fun r => (get "ssn" (payload r), get "data_hash" (payload r)))
    (network (window (snd (Samples.submit "orders" raw Samples.clerk (Samples.start true)))))
  = [(None, Some (Str (generateDataHash Samples.digest (Samples.session true) raw)))].
Proof. vm_compute; reflexivity. Qed.

End PipelineFacts.

(* ================================================================== *)
(** * How the patterns of the connector match *)
(* ================================================================== *)

Module RegExpFacts.
Import JS RegExp.

Lemma in_seq (i : bool) (a b : node) (p q : cursor) :
  In q (run i (Seq a b) p) <-> exists m, In m (run i a p) /\ In q (run i b m).
Proof. cbn [run]. apply in_flat_map. Qed.

(** ** Literal text *)

Lemma lit_sound (w : string) :
  forall p q, In q (run false (lit w) p) -> rest p = w +++ rest q.
Proof.
  induction w as [|c w IH]; intros p q H.
  - cbn in H. destruct H as [<-|[]]. reflexivity.
  - cbn [lit] in H. apply in_seq in H as (m & Hm & Hq).
    cbn [run] in Hm. unfold eat in Hm.
    destruct (rest p) as [|d t] eqn:R; [destruct Hm|].
    unfold sameChar in Hm. destruct (Ascii.eqb_spec c d) as [->|N]; [|destruct Hm].
    destruct Hm as [<-|[]]. apply IH in Hq. cbn [rest] in Hq. rewrite Hq. reflexivity.
Qed.

Lemma lit_complete (w : string) :
  forall p r, rest p = w +++ r -> exists b, In {| before := b; rest := r |} (run false (lit w) p).
Proof.
  induction w as [|c w IH]; intros p r H.
  - exists (before p). cbn. left. destruct p; cbn in *. rewrite H. reflexivity.
  - cbn [String.append] in H.
    destruct (IH {| before := Some c; rest := w +++ r |} r eq_refl) as (b & Hb).
    exists b. cbn [lit]. apply in_seq. exists {| before := Some c; rest := w +++ r |}.
    split; [|exact Hb]. cbn [run]. unfold eat. rewrite H.
    unfold sameChar. rewrite Ascii.eqb_refl. left. reflexivity.
Qed.

(** ** Runs of one class *)

Lemma iterate_sound (ok : ascii -> bool) (fuel : nat) :
  forall p q, In q (iterate (eat ok) fuel p) ->
              exists w, rest p = w +++ rest q /\ allChars ok w = true.
Proof.
  induction fuel as [|n IH]; intros p q H.
  - destruct H as [<-|[]]. exists "". split; reflexivity.
  - cbn [iterate] in H. destruct H as [<-|H]; [exists ""; split; reflexivity|].
    apply in_flat_map in H as (m & Hm & Hq).
    apply filter_In in Hm as [Hm _]. unfold eat in Hm.
    destruct (rest p) as [|d t] eqn:R; [destruct Hm|].
    destruct (ok d) eqn:D; [|destruct Hm]. destruct Hm as [<-|[]].
    apply IH in Hq as (w & Hw & A). cbn [rest] in Hw.
    exists (String d w). split; [rewrite Hw; reflexivity|].
    cbn [allChars]. rewrite D, A. reflexivity.
Qed.

Lemma iterate_complete (ok : ascii -> bool) (w : string) :
  allChars ok w = true ->
  forall b r fuel, String.length w <= fuel ->
    exists b', In {| before := b'; rest := r |}
                  (iterate (eat ok) fuel {| before := b; rest := w +++ r |}).
Proof.
  induction w as [|d w IH]; intros A b r fuel L.
  - exists b. destruct fuel; left; reflexivity.
  - cbn [allChars] in A. apply andb_true_iff in A as [D A].
    destruct fuel as [|n]; [cbn in L; lia|].
    destruct (IH A (Some d) r n) as (b' & Hb); [cbn in L; lia|].
    exists b'. cbn [iterate]. right. apply in_flat_map.
    exists {| before := Some d; rest := w +++ r |}. split; [|exact Hb].
    apply filter_In. split.
    + unfold eat. cbn [rest String.append]. rewrite D. left. reflexivity.
    + unfold shorter. cbn [rest String.append String.length]. apply Nat.ltb_lt. lia.
Qed.

Lemma length_append (a b : string) :
  String.length (a +++ b) = String.length a + String.length b.
Proof. induction a as [|c a IH]; cbn; [reflexivity|]. rewrite IH. reflexivity. Qed.

(** ** Patterns anchored at the start *)

Lemma anchored_only_at_start (r : node) (i : bool) (c : ascii) (s : string) :
  search {| body := Seq Bol r; ignoreCase := i |} (Some c) s = false.
Proof.
  revert c. induction s as [|d s IH]; intros c; cbn [search].
  - reflexivity.
  - rewrite IH. reflexivity.
Qed.

Lemma anchored_test (r : node) (i : bool) (s : string) :
  test {| body := Seq Bol r; ignoreCase := i |} s = true <->
  exists q, In q (run i r {| before := None; rest := s |}).
Proof.
  unfold test.
  assert (E : search {| body := Seq Bol r; ignoreCase := i |} None s
              = match run i r {| before := None; rest := s |} with
                | [] => false | _ :: _ => true end).
  { destruct s as [|d s]; cbn [search]; unfold matchesAt;
      cbn [body ignoreCase run before flat_map]; rewrite app_nil_r;
      rewrite ?anchored_only_at_start, ?orb_false_r; reflexivity. }
  rewrite E. destruct (run i r _) as [|q qs]; split.
  - discriminate.
  - intros (q & []).
  - intros _. exists q. left. reflexivity.
  - reflexivity.
Qed.

Lemma at_end (i : bool) (p q : cursor) :
  In q (run i (Seq Eol Empty) p) <-> rest p = "" /\ q = p.
Proof.
  cbn [run flat_map]. destruct (rest p) eqn:R; cbn; split.
  - intros [<-|[]]. split; [exact eq_refl|reflexivity].
  - intros [_ ->]. left. reflexivity.
  - intros [].
  - intros [E _]. discriminate E.
Qed.

(** A start-anchored, end-anchored pattern of one head class and a run of a
    tail class: what it accepts. *)
Lemma anchored_match_inv (A B : list (ascii * ascii)) (s : string) :
  test (caseSensitive (seq [Bol; Class false A; Star (Class false B); Eol])) s = true ->
  exists h r, s = String h r /\
              existsb (inRange false h) A = true /\
              allChars (fun d => existsb (inRange false d) B) r = true.
Proof.
  unfold caseSensitive, seq. cbn [fold_right]. intros T.
  apply anchored_test in T as (q & Hq).
  apply in_seq in Hq as (m & Hm & Hq).
  cbn [run] in Hm. unfold eat in Hm. cbn [rest] in Hm.
  destruct s as [|h r]; [destruct Hm|].
  destruct (xorb false (existsb (inRange false h) A)) eqn:HA; [|destruct Hm].
  destruct Hm as [<-|[]].
  apply in_seq in Hq as (e & He & Hq).
  apply at_end in Hq as [Eend ->].
  cbn [run] in He. unfold closure in He. apply iterate_sound in He as (w & Hw & Aw).
  cbn [rest] in Hw. rewrite Eend in Hw.
  assert (Ew : w +++ "" = w) by (clear; induction w; cbn; congruence).
  rewrite Ew in Hw. subst w.
  exists h, r. split; [reflexivity|]. split; [exact HA|].
  clear -Aw. induction r as [|d r IH]; [reflexivity|].
  cbn [allChars] in *. apply andb_true_iff in Aw as [H1 H2].
  rewrite (IH H2), andb_true_r. exact H1.
Qed.

End RegExpFacts.

(* ================================================================== *)
(** * Table names and column names *)
(* ================================================================== *)

Module NameFacts.
Import JS RegExp Connector RegExpFacts IdentifierFacts.

(** A letter, then letters, digits and underscores. *)
Definition identifierShape (n : string) : bool :=
  match n with
  | EmptyString => false
  | String c t => (isUpper c || isLower c) && allChars isWordChar t
  end.

Lemma letter_class (c : ascii) :
  existsb (inRange false c) [range "a" "z"; range "A" "Z"] = isUpper c || isLower c.
Proof. every_char c; reflexivity. Qed.

Lemma word_class (c : ascii) :
  existsb (inRange false c) [range "a" "z"; range "A" "Z"; range "0" "9"; one "_"]
  = isWordChar c.
Proof. every_char c; reflexivity. Qed.

Lemma allChars_ext (f g : ascii -> bool) (s : string) :
  (forall c, f c = g c) -> allChars f s = allChars g s.
Proof.
  intros E. induction s as [|c s IH]; [reflexivity|]. cbn. rewrite E, IH. reflexivity.
Qed.

Lemma identifier_shape (n : string) : test identifier n = identifierShape n.
Proof.
  destruct (identifierShape n) eqn:S.
  - destruct n as [|h r]; [discriminate S|]. cbn [identifierShape] in S.
    apply andb_true_iff in S as [H R]. unfold identifier.
    apply anchored_match.
    + rewrite letter_class. exact H.
    + rewrite (allChars_ext _ isWordChar); [exact R|apply word_class].
  - destruct (test identifier n) eqn:T; [|reflexivity].
    unfold identifier in T. apply anchored_match_inv in T as (h & r & -> & H & R).
    cbn [identifierShape] in S. rewrite letter_class in H.
    rewrite (allChars_ext _ isWordChar) in R by apply word_class.
    rewrite H, R in S. discriminate S.
Qed.

(** X1: [isValidTableName] accepts exactly the names of at most 63 characters
    that start with a letter and go on with letters, digits and
    underscores; the empty name, a leading digit and a leading underscore are
    refused. *)
Theorem valid_table_names (n : string) :
  isValidTableName n = identifierShape n && (String.length n <=? 63).
Proof. unfold isValidTableName. rewrite identifier_shape. reflexivity. Qed.

(** ** Sanitizing *)

Lemma mapString_fixed (f : ascii -> ascii) (ok : ascii -> bool) (s : string) :
  (forall c, ok c = true -> f c = c) -> allChars ok s = true -> mapString f s = s.
Proof.
  intros F. induction s as [|c s IH]; intros A; [reflexivity|].
  cbn [allChars] in A. apply andb_true_iff in A as [C A].
  cbn [mapString]. rewrite (F c C), (IH A). reflexivity.
Qed.

Lemma mapString_length (f : ascii -> ascii) (s : string) :
  String.length (mapString f s) = String.length s.
Proof. induction s as [|c s IH]; cbn; congruence. Qed.

Lemma tail_char_replaced (c : ascii) :
  existsb (inRange false c) tailRanges = true ->
  (if isWordChar c then c else underscore) = c.
Proof. every_char c; intros H; try reflexivity; discriminate H. Qed.

Lemma tail_char_lower (c : ascii) :
  existsb (inRange false c) tailRanges = true -> lowerChar c = c.
Proof. every_char c; intros H; try reflexivity; discriminate H. Qed.

Lemma head_char_tail (c : ascii) :
  existsb (inRange false c) headRanges = true ->
  existsb (inRange false c) tailRanges = true /\ isDigit c = false.
Proof. every_char c; intros H; try (split; reflexivity); discriminate H. Qed.

(** X2: sanitizing a column name twice gives what sanitizing it once gives. *)
Theorem sanitize_idempotent (n : string) :
  sanitizeColumnName (sanitizeColumnName n) = sanitizeColumnName n.
Proof.
  destruct n as [|c t]; [reflexivity|].
  destruct (sanitize_shape c t) as (h & r & -> & H & R).
  apply head_char_tail in H as [H D].
  assert (A : allChars (fun d => existsb (inRange false d) tailRanges) (String h r) = true).
  { cbn [allChars]. rewrite H, R. reflexivity. }
  unfold sanitizeColumnName, replaceNonWord.
  rewrite (mapString_fixed _ _ _ tail_char_replaced A).
  cbn [prefixLeadingDigit]. rewrite D.
  apply (mapString_fixed _ _ _ tail_char_lower A).
Qed.

Lemma word_char_replaced (c : ascii) :
  isWordChar c = true -> (if isWordChar c then c else underscore) = c.
Proof. intros ->. reflexivity. Qed.

Lemma lower_letter (c : ascii) :
  isUpper c || isLower c = true ->
  isUpper (lowerChar c) || isLower (lowerChar c) = true /\ isDigit c = false.
Proof. every_char c; intros H; try (split; reflexivity); discriminate H. Qed.

Lemma lower_word (c : ascii) : isWordChar c = true -> isWordChar (lowerChar c) = true.
Proof. every_char c; intros H; try reflexivity; discriminate H. Qed.

Lemma allChars_map (f : ascii -> ascii) (ok : ascii -> bool) (s : string) :
  (forall c, ok c = true -> ok (f c) = true) ->
  allChars ok s = true -> allChars ok (mapString f s) = true.
Proof.
  intros F. induction s as [|c s IH]; intros A; [reflexivity|].
  cbn [allChars mapString] in *. apply andb_true_iff in A as [C A].
  rewrite (F c C), (IH A). reflexivity.
Qed.

(** X3: a valid table name used as a column name is only put in lower case, and
    the result is a valid table name again. *)
Theorem valid_name_sanitized (n : string) :
  isValidTableName n = true ->
  sanitizeColumnName n = toLowerCase n /\
  isValidTableName (sanitizeColumnName n) = true.
Proof.
  unfold isValidTableName. rewrite identifier_shape. intros V. apply andb_true_iff in V as [S L].
  destruct n as [|h r]; [discriminate S|]. cbn [identifierShape] in S.
  apply andb_true_iff in S as [H R].
  destruct (lower_letter h H) as [H' D].
  assert (W : allChars isWordChar (String h r) = true).
  { cbn [allChars]. rewrite R, andb_true_r.
    unfold isWordChar. apply orb_true_iff in H as [U|Lo]; rewrite ?U, ?Lo;
      rewrite ?orb_true_r; reflexivity. }
  assert (E : sanitizeColumnName (String h r) = toLowerCase (String h r)).
  { unfold sanitizeColumnName, replaceNonWord.
    rewrite (mapString_fixed _ _ _ word_char_replaced W).
    cbn [prefixLeadingDigit]. rewrite D. reflexivity. }
  split; [exact E|]. rewrite E. unfold isValidTableName. rewrite identifier_shape.
  unfold toLowerCase. rewrite mapString_length, L, andb_true_r.
  cbn [mapString identifierShape]. rewrite H'. cbn [andb].
  apply allChars_map; [exact lower_word|exact R].
Qed.

Lemma valid_name_sanitized_witness :
  sanitizeColumnName "OrderItems_2024" = "orderitems_2024" /\
  isValidTableName (sanitizeColumnName "OrderItems_2024") = true.
Proof. exact (valid_name_sanitized "OrderItems_2024" eq_refl). Defined.

Example refused_table_names :
  map isValidTableName [""; "1st"; "_tmp"; "my table"; "orders; DROP TABLE x"]
  = [false; false; false; false; false].
Proof. vm_compute; reflexivity. Qed.

End NameFacts.

(* ================================================================== *)
(** * Letter case and the sensitivity patterns *)
(* ================================================================== *)

Module CaseFacts.
Import JS RegExp Connector RegExpFacts IdentifierFacts.

Definition lowerCursor (p : cursor) : cursor :=
  {| before := option_map lowerChar (before p); rest := toLowerCase (rest p) |}.

Lemma canonicalize_lower (c : ascii) : canonicalize (lowerChar c) = canonicalize c.
Proof. every_char c; reflexivity. Qed.

Lemma lower_lower (c : ascii) : lowerChar (lowerChar c) = lowerChar c.
Proof. every_char c; reflexivity. Qed.

Lemma lower_or_canonical (c : ascii) : lowerChar c = c \/ canonicalize c = c.
Proof. every_char c; (left; reflexivity) || (right; reflexivity). Qed.

Lemma word_lower (c : ascii) : isWordChar (lowerChar c) = isWordChar c.
Proof. every_char c; reflexivity. Qed.

Lemma terminator_lower (c : ascii) : isLineTerminator (lowerChar c) = isLineTerminator c.
Proof. every_char c; reflexivity. Qed.

Lemma inRange_lower (c : ascii) (r : ascii * ascii) :
  inRange true (lowerChar c) r = inRange true c r.
Proof.
  assert (H : forall hit : ascii -> bool,
             hit (lowerChar c) || hit (canonicalize c) || hit (lowerChar c)
             = hit c || hit (canonicalize c) || hit (lowerChar c)).
  { intros hit. destruct (lower_or_canonical c) as [E|E]; rewrite E.
    - reflexivity.
    - destruct (hit c), (hit (lowerChar c)); reflexivity. }
  unfold inRange. rewrite canonicalize_lower, lower_lower.
  exact (H (fun x => (code (fst r) <=? code x) && (code x <=? code (snd r)))).
Qed.

Lemma eat_lower (ok : ascii -> bool) (p : cursor) :
  (forall d, ok (lowerChar d) = ok d) ->
  eat ok (lowerCursor p) = map lowerCursor (eat ok p).
Proof.
  intros E. unfold eat, lowerCursor. cbn [rest]. destruct (rest p) as [|d t]; [reflexivity|].
  unfold toLowerCase. cbn [mapString]. rewrite E. destruct (ok d); reflexivity.
Qed.

Lemma flat_map_lower (f : cursor -> list cursor) (l : list cursor) :
  (forall p, f (lowerCursor p) = map lowerCursor (f p)) ->
  flat_map f (map lowerCursor l) = map lowerCursor (flat_map f l).
Proof.
  intros F. induction l as [|p l IH]; [reflexivity|].
  cbn [map flat_map]. rewrite F, IH, map_app. reflexivity.
Qed.

Lemma lower_length (s : string) : String.length (toLowerCase s) = String.length s.
Proof. apply NameFacts.mapString_length. Qed.

Lemma shorter_lower (p q : cursor) :
  shorter (lowerCursor p) (lowerCursor q) = shorter p q.
Proof. unfold shorter, lowerCursor. cbn [rest]. rewrite !lower_length. reflexivity. Qed.

Lemma filter_lower (p : cursor) (l : list cursor) :
  filter (shorter (lowerCursor p)) (map lowerCursor l)
  = map lowerCursor (filter (shorter p) l).
Proof.
  induction l as [|q l IH]; [reflexivity|].
  cbn [map filter]. rewrite shorter_lower, IH. destruct (shorter p q); reflexivity.
Qed.

Lemma iterate_lower (f : cursor -> list cursor) (fuel : nat) :
  (forall p, f (lowerCursor p) = map lowerCursor (f p)) ->
  forall p, iterate f fuel (lowerCursor p) = map lowerCursor (iterate f fuel p).
Proof.
  intros F. induction fuel as [|n IH]; intros p; cbn [iterate map]; [reflexivity|].
  f_equal. rewrite F, filter_lower. apply flat_map_lower. exact IH.
Qed.

Lemma closure_lower (f : cursor -> list cursor) :
  (forall p, f (lowerCursor p) = map lowerCursor (f p)) ->
  forall p, closure f (lowerCursor p) = map lowerCursor (closure f p).
Proof.
  intros F p. unfold closure. cbn [lowerCursor rest]. rewrite lower_length.
  apply iterate_lower. exact F.
Qed.

Lemma power_lower (f : cursor -> list cursor) (n : nat) :
  (forall p, f (lowerCursor p) = map lowerCursor (f p)) ->
  forall l, power f n (map lowerCursor l) = map lowerCursor (power f n l).
Proof.
  intros F. induction n as [|n IH]; intros l; cbn [power]; [reflexivity|].
  rewrite flat_map_lower by exact F. apply IH.
Qed.

(** A case-insensitive pattern matches a subject and its lower-case form at
    the same places. *)
Lemma run_lower (r : node) :
  forall p, run true r (lowerCursor p) = map lowerCursor (run true r p).
Proof.
  induction r as [|c| |neg rs|a IHa b IHb|a IHa b IHb|a IHa|a IHa|a IHa
                 |n a IHa|n a IHa| | |]; intros p; cbn [run].
  - reflexivity.
  - apply eat_lower. intros d. unfold sameChar. rewrite canonicalize_lower. reflexivity.
  - apply eat_lower. intros d. rewrite terminator_lower. reflexivity.
  - apply eat_lower. intros d. f_equal.
    induction rs as [|r rs IH]; [reflexivity|]. cbn [existsb].
    rewrite inRange_lower, IH. reflexivity.
  - rewrite IHa. apply flat_map_lower. exact IHb.
  - rewrite IHa, IHb, map_app. reflexivity.
  - apply closure_lower. exact IHa.
  - rewrite IHa. apply flat_map_lower. apply closure_lower. exact IHa.
  - rewrite IHa. reflexivity.
  - apply (power_lower _ n IHa [p]).
  - change [lowerCursor p] with (map lowerCursor [p]).
    rewrite (power_lower _ n IHa [p]). apply flat_map_lower. apply closure_lower. exact IHa.
  - destruct p as [[b|] t]; reflexivity.
  - destruct p as [b [|d t]]; reflexivity.
  - destruct p as [[b|] [|d t]]; unfold next, wordAt, lowerCursor;
      cbn [before rest option_map toLowerCase mapString map];
      rewrite ?word_lower;
      match goal with |- (if ?c then _ else _) = _ => destruct c end; reflexivity.
Qed.

Lemma matchesAt_lower (re : pattern) (p : cursor) :
  ignoreCase re = true -> matchesAt re (lowerCursor p) = matchesAt re p.
Proof.
  intros I. unfold matchesAt. rewrite I, run_lower.
  destruct (run true (body re) p); reflexivity.
Qed.

Lemma search_lower (re : pattern) (s : string) :
  ignoreCase re = true ->
  forall prev, search re (option_map lowerChar prev) (toLowerCase s) = search re prev s.
Proof.
  intros I. induction s as [|c s IH]; intros prev.
  - cbn [search toLowerCase mapString]. f_equal.
    exact (matchesAt_lower re {| before := prev; rest := "" |} I).
  - change (toLowerCase (String c s)) with (String (lowerChar c) (toLowerCase s)).
    cbn [search]. rewrite <- (IH (Some c)). cbn [option_map]. f_equal.
    exact (matchesAt_lower re {| before := prev; rest := String c s |} I).
Qed.

Lemma test_lower (re : pattern) (s : string) :
  ignoreCase re = true -> test re (toLowerCase s) = test re s.
Proof. intros I. exact (search_lower re s I None). Qed.

Lemma sensitive_patterns_ignore_case :
  forall p, In p sensitivePatterns -> ignoreCase p = true.
Proof.
  intros p H. unfold sensitivePatterns in H. apply in_map_iff in H as (r & <- & _).
  reflexivity.
Qed.

Definition labelText (f : field) : string :=
  match label f with Some l => l | None => "" end.

(** X4: [isSensitiveField] does not look at letter case: two fields whose names
    agree up to case, and whose labels do, are both sensitive or both not. *)
Theorem sensitivity_ignores_case (f g : field) :
  toLowerCase (name f) = toLowerCase (name g) ->
  toLowerCase (labelText f) = toLowerCase (labelText g) ->
  isSensitiveField f = isSensitiveField g.
Proof.
  intros N L. unfold isSensitiveField. fold (labelText f). fold (labelText g).
  pose proof sensitive_patterns_ignore_case as I.
  induction sensitivePatterns as [|p ps IH]; [reflexivity|].
  cbn [existsb]. rewrite IH by (intros q Hq; apply I; right; exact Hq).
  assert (Ip : ignoreCase p = true) by (apply I; left; reflexivity).
  rewrite <- (test_lower p (name f) Ip), <- (test_lower p (labelText f) Ip), N, L.
  rewrite (test_lower p (name g) Ip), (test_lower p (labelText g) Ip). reflexivity.
Qed.

Lemma sensitivity_ignores_case_witness :
  isSensitiveField (ofName "E-MAIL Address") = isSensitiveField (ofName "e-mail address").
Proof. exact (sensitivity_ignores_case _ _ eq_refl eq_refl). Defined.

End CaseFacts.

(* ================================================================== *)
(** * Substrings, and what the classifier finds in a record *)
(* ================================================================== *)

Module TextFacts.
Import JS RegExp RegExpFacts IdentifierFacts.

Lemma append_assoc (a b c : string) : (a +++ b) +++ c = a +++ b +++ c.
Proof. induction a as [|x a IH]; cbn; congruence. Qed.

Lemma append_empty (a : string) : a +++ "" = a.
Proof. induction a as [|x a IH]; cbn; congruence. Qed.

Lemma prefix_iff (w s : string) :
  String.prefix w s = true <-> exists b, s = w +++ b.
Proof.
  revert s. induction w as [|c w IH]; intros s.
  - split; [intros _; exists s; reflexivity|]. intros _. destruct s; reflexivity.
  - destruct s as [|d s]; cbn [String.prefix].
    + split; [discriminate|]. intros (b & E). discriminate E.
    + destruct (ascii_dec c d) as [->|N].
      * rewrite IH. split; intros (b & E); exists b; cbn in *; congruence.
      * split; [discriminate|]. intros (b & E). cbn in E. congruence.
Qed.

Lemma includes_iff (w s : string) :
  includes w s = true <-> exists a b, s = a +++ w +++ b.
Proof.
  induction s as [|d s IH]; cbn [includes]; rewrite orb_true_iff, prefix_iff.
  - split.
    + intros [(b & E)|F]; [|discriminate F]. exists "", b. exact E.
    + intros (a & b & E). left. destruct a; [exists b; exact E|discriminate E].
  - rewrite IH. split.
    + intros [(b & E)|(a & b & E)].
      * exists "", b. exact E.
      * exists (String d a), b. cbn. congruence.
    + intros (a & b & E). destruct a as [|x a].
      * left. exists b. exact E.
      * right. exists a, b. cbn in E. congruence.
Qed.

Lemma includes_within (w s a b : string) :
  includes w s = true -> includes w (a +++ s +++ b) = true.
Proof.
  rewrite !includes_iff. intros (x & y & ->). exists (a +++ x), (y +++ b).
  rewrite !append_assoc. reflexivity.
Qed.

Lemma lower_append (a b : string) :
  toLowerCase (a +++ b) = toLowerCase a +++ toLowerCase b.
Proof. unfold toLowerCase. induction a as [|x a IH]; cbn; congruence. Qed.

Lemma escape_append (a b : string) : escape (a +++ b) = escape a +++ escape b.
Proof.
  induction a as [|x a IH]; cbn [String.append escape]; [reflexivity|].
  rewrite IH, append_assoc. reflexivity.
Qed.

Lemma escapeChar_lower (c : ascii) :
  toLowerCase (escapeChar c) = escapeChar (lowerChar c).
Proof. every_char c; reflexivity. Qed.

Lemma escape_lower (s : string) : toLowerCase (escape s) = escape (toLowerCase s).
Proof.
  induction s as [|c s IH]; [reflexivity|].
  cbn [escape]. rewrite lower_append, escapeChar_lower, IH. reflexivity.
Qed.

(** A word without special characters survives quoting and lower-casing. *)
Lemma includes_quote (w x : string) :
  escape w = w -> includes w (toLowerCase x) = true ->
  includes w (toLowerCase (quote x)) = true.
Proof.
  intros P H. apply includes_iff in H as (a & b & E).
  unfold quote.
  change (String dquote (escape x +++ String dquote ""))
    with (String dquote "" +++ escape x +++ String dquote "").
  rewrite !lower_append, escape_lower, E, !escape_append, P.
  apply includes_within. apply includes_iff. exists (escape a), (escape b). reflexivity.
Qed.

Lemma join_includes (sep x : string) (l : list string) :
  In x l -> exists a b, join sep l = a +++ x +++ b.
Proof.
  unfold join. induction l as [|y l IH]; intros H; [destruct H|].
  destruct l as [|z l].
  - destruct H as [->|[]]. exists "", "". cbn. rewrite append_empty. reflexivity.
  - change (String.concat sep (y :: z :: l))
      with (y +++ sep +++ String.concat sep (z :: l)).
    destruct H as [->|H].
    + exists "", (sep +++ String.concat sep (z :: l)). reflexivity.
    + destruct (IH H) as (a & b & E). exists (y +++ sep +++ a), b.
      rewrite E, !append_assoc. reflexivity.
Qed.

(** ** Literal patterns look for a substring *)

Lemma literal_here (i : bool) (w : string) :
  forall p r, rest p = w +++ r -> run i (lit w) p <> [].
Proof.
  induction w as [|c w IH]; intros p r H.
  - cbn. discriminate.
  - cbn [lit run]. unfold eat. rewrite H. cbn [String.append].
    assert (S : sameChar i c c = true).
    { unfold sameChar. destruct i; apply Ascii.eqb_refl. }
    rewrite S. cbn [flat_map]. rewrite app_nil_r.
    apply (IH _ r). reflexivity.
Qed.

Lemma literal_found (i : bool) (w a b : string) :
  forall prev, search {| body := lit w; ignoreCase := i |} prev (a +++ w +++ b) = true.
Proof.
  induction a as [|x a IH]; intros prev.
  - cbn [String.append]. 
    assert (M : matchesAt {| body := lit w; ignoreCase := i |}
                  {| before := prev; rest := w +++ b |} = true).
    { unfold matchesAt. cbn [body ignoreCase].
      pose proof (literal_here i w {| before := prev; rest := w +++ b |} b eq_refl) as N.
      destruct (run i (lit w) _); [contradiction|reflexivity]. }
    destruct (w +++ b); cbn [search]; rewrite M; reflexivity.
  - cbn [String.append search]. rewrite IH. apply orb_true_r.
Qed.

Lemma literal_test (i : bool) (w s : string) :
  includes w s = true -> test {| body := lit w; ignoreCase := i |} s = true.
Proof.
  intros H. apply includes_iff in H as (a & b & ->). apply literal_found.
Qed.

End TextFacts.

Module ContentFacts.
Import JS RegExp Connector ObjectFacts TextFacts.

(** The restricted patterns that are plain words. *)
Definition restrictedWords : list string :=
  ["proprietary"; "confidential"; "patent"; "classified"].

Lemma restricted_word_pattern (w : string) :
  In w restrictedWords ->
  In (caseInsensitive (lit w)) restrictedPatterns /\ escape w = w.
Proof.
  intros [<-|[<-|[<-|[<-|[]]]]]; split; try reflexivity; cbn; tauto.
Qed.

(** The text of a record holds every field whose value is not undefined. *)
Lemma stringify_member (data : object) (k t : string) (v : value) :
  wellFormed data -> In (k, v) data -> serializeValue v = Some t ->
  exists a b, stringify data = a +++ (quote k +++ ":" +++ t) +++ b.
Proof.
  intros W H S. unfold stringify, serializeObject.
  destruct (join_includes "," (quote k +++ ":" +++ t)
              (flat_map (fun k0 => member k0 data) (keys data))) as (a & b & E).
  { apply in_flat_map. exists k. split; [eapply in_keys; exact H|].
    unfold member. rewrite (get_in _ _ _ W H), S. left. reflexivity. }
  exists ("{" +++ a), (b +++ "}"). rewrite E, !append_assoc. reflexivity.
Qed.

(** X5: a record is restricted as soon as the name of one of its fields, or one
    of its text values, contains one of the words proprietary, confidential,
    patent or classified, in any letter case. A field whose value is
    undefined is not looked at. *)
Theorem restricted_word_restricts (data : object) (k w : string) (v : value) :
  wellFormed data -> In (k, v) data -> In w restrictedWords ->
  (v <> Undefined /\ includes w (toLowerCase k) = true) \/
  (exists s, v = Str s /\ includes w (toLowerCase s) = true) ->
  classifyData data = restricted.
Proof.
  intros W H Hw Found.
  destruct (restricted_word_pattern w Hw) as [P Plain].
  assert (T : test (caseInsensitive (lit w)) (toLowerCase (stringify data)) = true).
  { apply literal_test.
    assert (S : exists t, serializeValue v = Some t /\
                          includes w (toLowerCase (quote k +++ ":" +++ t)) = true).
    { destruct Found as [[D K]|(s & -> & V)].
      - destruct (serializeValue v) as [t|] eqn:S.
        + exists t. split; [reflexivity|]. rewrite lower_append.
          apply (includes_within w _ "" _). apply includes_quote; assumption.
        + destruct v as [| |[|]| |]; try discriminate S. contradiction.
      - exists (quote s). split; [reflexivity|].
        rewrite <- append_assoc, lower_append.
        rewrite <- (append_empty (toLowerCase (quote s))).
        apply includes_within. apply includes_quote; assumption. }
    destruct S as (t & S & I).
    destruct (stringify_member data k t v W H S) as (a & b & E).
    rewrite E, !lower_append. rewrite !lower_append in I.
    apply includes_within. exact I. }
  unfold classifyData.
  assert (E : existsb (fun p => test p (toLowerCase (stringify data))) restrictedPatterns
              = true).
  { apply existsb_exists. exists (caseInsensitive (lit w)). split; assumption. }
  rewrite E. reflexivity.
Qed.

Lemma restricted_word_restricts_witness :
  classifyData [("qty", Num 2); ("Patent_Number", Null)] = restricted.
Proof.
  apply (restricted_word_restricts [("qty", Num 2); ("Patent_Number", Null)]
           "Patent_Number" "patent" Null).
  - unfold wellFormed. cbn. repeat constructor; cbn; intuition discriminate.
  - right. left. reflexivity.
  - cbn. tauto.
  - left. split; [discriminate|reflexivity].
Defined.

End ContentFacts.

(* ================================================================== *)
(** * The generated SQL *)
(* ================================================================== *)

Module SqlFacts.
Import JS RegExp Connector Session TextFacts.

(** ** Columns *)

Lemma includes_left (w s b : string) : includes w s = true -> includes w (s +++ b) = true.
Proof. intros H. exact (includes_within w s "" b H). Qed.

Lemma includes_right (w s a : string) : includes w s = true -> includes w (a +++ s) = true.
Proof.
  intros H. rewrite <- (append_empty s). apply includes_within. exact H.
Qed.

Lemma includes_refl (w : string) : includes w w = true.
Proof. apply includes_iff. exists "", "". cbn. rewrite append_empty. reflexivity. Qed.

(** The lines that one field contributes to the table. *)
Definition columnsOf (opts : schemaOptions) (f : field) : list string :=
  let columnName := sanitizeColumnName (name f) in
  if enableEncryption opts && isSensitiveField f
  then [ quoted (columnName +++ "_encrypted") +++ " TEXT,";
         quoted (columnName +++ "_hash") +++ " TEXT," ]
  else [ quoted columnName +++ " " +++ mapFieldTypeToPostgreSQL (type f) +++ " "
           +++ (if required f then "NOT NULL" else "") ].

Lemma addField_keeps (opts : schemaOptions) (count index : nat) (f : field)
    (w acc : string) :
  includes w acc = true -> includes w (addField opts count index f acc) = true.
Proof.
  intros H. unfold addField.
  destruct (enableEncryption opts && isSensitiveField f); apply includes_left; exact H.
Qed.

Lemma addField_columns (opts : schemaOptions) (count index : nat) (f : field)
    (acc line : string) :
  In line (columnsOf opts f) -> includes line (addField opts count index f acc) = true.
Proof.
  unfold columnsOf, addField.
  destruct (enableEncryption opts && isSensitiveField f); cbn [In].
  - intros [<-|[<-|[]]]; apply includes_iff.
    + exists (acc +++ "    ").
      eexists. rewrite !append_assoc. reflexivity.
    + exists (acc +++ "    " +++ quoted (sanitizeColumnName (name f) +++ "_encrypted")
                +++ " TEXT," +++ newline +++ "    "), newline.
      rewrite !append_assoc. reflexivity.
  - intros [<-|[]]. apply includes_iff. exists (acc +++ "    ").
    eexists. rewrite !append_assoc. reflexivity.
Qed.

Lemma forEachField_keeps (opts : schemaOptions) (count : nat) (fields : list field)
    (w : string) :
  forall index acc,
    includes w acc = true -> includes w (forEachField opts count index fields acc) = true.
Proof.
  induction fields as [|f fields IH]; intros index acc H; [exact H|].
  cbn [forEachField]. apply IH. apply addField_keeps. exact H.
Qed.

Lemma forEachField_columns (opts : schemaOptions) (count : nat) (fields : list field)
    (f : field) (line : string) :
  In f fields -> In line (columnsOf opts f) ->
  forall index acc, includes line (forEachField opts count index fields acc) = true.
Proof.
  induction fields as [|g fields IH]; intros Hf Hl index acc; [destruct Hf|].
  cbn [forEachField]. destruct Hf as [->|Hf].
  - apply forEachField_keeps. apply addField_columns. exact Hl.
  - apply IH; assumption.
Qed.

(** X6: every field of the list shows in the CREATE TABLE text: a sensitive
    field under encryption as its [_encrypted] and [_hash] TEXT columns, any
    other field as a column of its sanitized name with its mapped type and
    NOT NULL when it is required. The type of the field is a name that the
    type table is read under. *)
Theorem every_field_has_its_columns (tableName : string) (fields : list field)
    (opts : schemaOptions) (f : field) (line : string) :
  In f fields -> ownName (type f) = true -> In line (columnsOf opts f) ->
  includes line (generateSecureTableSchema tableName fields opts) = true.
Proof.
  intros Hf _ Hl. unfold generateSecureTableSchema. cbv zeta.
  destruct (departmentLevel opts); repeat apply includes_left;
    apply (forEachField_columns opts _ fields f line Hf Hl).
Qed.

Lemma every_field_has_its_columns_witness :
  includes (quoted "first_name_hash" +++ " TEXT,")
    (generateSecureTableSchema "people"
       [ {| name := "Age"; label := None; type := "number"; required := false |};
         {| name := "First Name"; label := None; type := "text"; required := true |} ]
       (createTableOptions
          {| optAuditLog := None; optEncryption := None;
             optDepartmentLevel := None; optAccessLevel := None |}))
  = true.
Proof.
  apply (every_field_has_its_columns "people" _ _
           {| name := "First Name"; label := None; type := "text"; required := true |}).
  - right. left. reflexivity.
  - reflexivity.
  - right. left. reflexivity.
Defined.

(** ** The comma before the closing parenthesis *)

(** Whether the last line before the closing parenthesis ends in a comma:
    it does when there is no field, when the audit column is on, and when the
    last field is an encrypted one. *)
Fixpoint commaBeforeClose (opts : schemaOptions) (fields : list field) : bool :=
  match fields with
  | [] => true
  | [f] => enableAuditLog opts || (enableEncryption opts && isSensitiveField f)
  | _ :: rest => commaBeforeClose opts rest
  end.

Definition endsWithComma (s : string) : Prop := exists a, s = a +++ "," +++ newline.

Lemma comma_line (x l : string) :
  x +++ (l +++ ",") +++ newline = (x +++ l) +++ "," +++ newline.
Proof. rewrite !append_assoc. reflexivity. Qed.

Lemma addField_comma (opts : schemaOptions) (count index : nat) (f : field) (acc : string) :
  enableAuditLog opts || (enableEncryption opts && isSensitiveField f) = true ->
  endsWithComma (addField opts count index f acc).
Proof.
  intros H. unfold addField, endsWithComma.
  destruct (enableEncryption opts && isSensitiveField f).
  - exists (acc +++ "    " +++ quoted (sanitizeColumnName (name f) +++ "_encrypted")
              +++ " TEXT," +++ newline +++ "    "
              +++ quoted (sanitizeColumnName (name f) +++ "_hash") +++ " TEXT").
    rewrite !append_assoc. reflexivity.
  - rewrite orb_false_r in H. rewrite H, orb_true_r.
    exists (acc +++ "    " +++ quoted (sanitizeColumnName (name f)) +++ " "
              +++ mapFieldTypeToPostgreSQL (type f) +++ " "
              +++ (if required f then "NOT NULL" else "")).
    rewrite !append_assoc. reflexivity.
Qed.

Lemma forEachField_comma (opts : schemaOptions) (count : nat) (fields : list field) :
  commaBeforeClose opts fields = true ->
  forall index acc,
    (fields = [] -> endsWithComma acc) ->
    endsWithComma (forEachField opts count index fields acc).
Proof.
  induction fields as [|f fields IH]; intros C index acc A.
  - apply A. reflexivity.
  - cbn [forEachField]. destruct fields as [|g fields].
    + cbn [forEachField]. apply addField_comma. exact C.
    + apply IH; [exact C|]. discriminate.
Qed.

(** X7: the CREATE TABLE text has a comma right before its closing parenthesis
    whenever the field list is empty, the audit column is on (the default of
    [createSecureTable]) or the last field is an encrypted one: the column
    list then ends in a dangling comma. *)
Theorem dangling_comma (tableName : string) (fields : list field) (opts : schemaOptions) :
  commaBeforeClose opts fields = true ->
  includes ("," +++ newline +++ ");") (generateSecureTableSchema tableName fields opts)
  = true.
Proof.
  intros C. unfold generateSecureTableSchema. cbv zeta.
  match goal with
  | |- context [forEachField opts ?n 0 fields ?acc] =>
      destruct (forEachField_comma opts n fields C 0 acc) as (a & E)
  end.
  { intros _. unfold endsWithComma. destruct (enableAuditLog opts).
    - eexists. exact (comma_line _ "    audit_log JSONB DEFAULT '[]'::jsonb").
    - eexists. exact (comma_line _ "    data_hash TEXT"). }
  rewrite E.
  destruct (departmentLevel opts); apply includes_iff; exists a; eexists;
    rewrite !append_assoc; reflexivity.
Qed.

Lemma dangling_comma_witness :
  includes ("," +++ newline +++ ");")
    (generateSecureTableSchema "orders"
       [ {| name := "quantity"; label := None; type := "number"; required := true |} ]
       (createTableOptions
          {| optAuditLog := None; optEncryption := None;
             optDepartmentLevel := None; optAccessLevel := None |}))
  = true.
Proof. apply dangling_comma. reflexivity. Defined.

(** Without the audit column, a plain last field closes the list cleanly. *)
Example clean_close :
  includes ("NOT NULL" +++ newline +++ ");")
    (generateSecureTableSchema "orders"
       [ {| name := "quantity"; label := None; type := "number"; required := true |} ]
       (createTableOptions
          {| optAuditLog := Some false; optEncryption := None;
             optDepartmentLevel := None; optAccessLevel := None |}))
  = true.
Proof. vm_compute; reflexivity. Qed.

(** ** The placeholder of the retention policy *)

Lemma includes_cons (w : string) (c : ascii) (s : string) :
  includes w s = true -> includes w (String c s) = true.
Proof. intros H. exact (includes_right w s (String c "") H). Qed.

Lemma dropChars_zero (s : string) : dropChars 0 s = s.
Proof. destruct s; reflexivity. Qed.

Lemma dropChars_includes (w c : string) (x : string) :
  forall n, n <= String.length x -> includes w (dropChars n (x +++ w +++ c)) = true.
Proof.
  induction x as [|d x IH]; intros n L.
  - assert (n = 0) by (cbn in L; lia). subst n.
    rewrite dropChars_zero. apply includes_iff. exists "", c. reflexivity.
  - destruct n as [|n].
    + rewrite dropChars_zero. apply includes_iff. exists (String d x), c. reflexivity.
    + cbn [String.append dropChars]. apply IH. cbn in L. lia.
Qed.

(** Replacing the first of two occurrences leaves the second. *)
Lemma replaceFrom_leaves_second (w rep b c : string) (a : string) :
  forall before,
    includes w (replaceFrom w rep before (a +++ w +++ b +++ w +++ c)) = true.
Proof.
  induction a as [|d a IH]; intros before.
  - cbn [String.append].
    assert (P : String.prefix w (w +++ b +++ w +++ c) = true)
      by (apply prefix_iff; eexists; reflexivity).
    destruct (w +++ b +++ w +++ c) eqn:E; cbn [replaceFrom]; rewrite P; cbv zeta;
      apply includes_right; rewrite <- E, <- append_assoc;
      apply dropChars_includes; rewrite RegExpFacts.length_append; lia.
  - cbn [String.append replaceFrom].
    destruct (String.prefix w (String d (a +++ w +++ b +++ w +++ c))).
    + cbv zeta. apply includes_right.
      change (String d (a +++ w +++ b +++ w +++ c))
        with (String d a +++ w +++ b +++ w +++ c).
      rewrite <- (append_assoc w b), <- (append_assoc (String d a)).
      apply dropChars_includes. rewrite !RegExpFacts.length_append. lia.
    + apply includes_cons. apply IH.
Qed.

Lemma retention_two_placeholders (tableName : string) :
  exists a b c,
    generateRetentionPolicy tableName
    = a +++ daysPlaceholder +++ b +++ daysPlaceholder +++ c.
Proof.
  exists (newline +++ "-- Create retention policy for " +++ tableName +++ newline
            +++ "CREATE OR REPLACE FUNCTION cleanup_" +++ tableName +++ "()" +++ newline
            +++ "RETURNS void AS $$" +++ newline
            +++ "BEGIN" +++ newline
            +++ "    -- Archive old data before deletion" +++ newline
            +++ "    INSERT INTO " +++ quoted (tableName +++ "_archive") +++ " " +++ newline
            +++ "    SELECT * FROM " +++ quoted tableName +++ " " +++ newline
            +++ "    WHERE created_at < NOW() - INTERVAL '"),
         (" days';" +++ newline
            +++ "    " +++ newline
            +++ "    -- Delete old data" +++ newline
            +++ "    DELETE FROM " +++ quoted tableName +++ " " +++ newline
            +++ "    WHERE created_at < NOW() - INTERVAL '").
  eexists.
  unfold generateRetentionPolicy, lines, join. cbn [String.concat].
  rewrite !append_assoc. cbn [String.append]. reflexivity.
Qed.

(** X8: the retention statement that [createSecureTable] builds still holds the
    placeholder for the number of days after the number was put in, whatever
    is given for the number: the template has the placeholder twice, in the
    archiving and in the deleting statement, and only the first one is
    replaced. *)
Theorem retention_placeholder_remains (tableName : string) (retentionDays : value) :
  includes daysPlaceholder
    (replaceFirst daysPlaceholder (toStr retentionDays)
       (generateRetentionPolicy tableName)) = true.
Proof.
  destruct (retention_two_placeholders tableName) as (a & b & c & ->).
  apply replaceFrom_leaves_second.
Qed.

Example retention_for_orders :
  let sql := replaceFirst daysPlaceholder "90" (generateRetentionPolicy "orders") in
  includes "WHERE created_at < NOW() - INTERVAL '90 days';" sql = true /\
  includes "WHERE created_at < NOW() - INTERVAL '{{DAYS}} days';" sql = true.
Proof. split; vm_compute; reflexivity. Qed.

End SqlFacts.

(* ================================================================== *)
(** * More on the field cipher and on what is sent *)
(* ================================================================== *)

Module TransformFacts.
Import JS RegExp Connector Runtime ObjectFacts AuditFacts CipherFacts PipelineFacts.

Lemma set_fresh (k : string) (v : value) (o : object) :
  ~ In k (keys o) -> set k v o = o ++ [(k, v)].
Proof.
  induction o as [|[k' v'] o IH]; intros N; [reflexivity|].
  cbn [set]. destruct (String.eqb_spec k' k) as [->|D].
  - exfalso. apply N. left. reflexivity.
  - cbn [app]. f_equal. apply IH. intros H. apply N. right. exact H.
Qed.

Lemma keys_set (k : string) (v : value) (o : object) :
  keys (set k v o) = if in_dec string_dec k (keys o) then keys o else keys o ++ [k].
Proof.
  unfold keys. induction o as [|[k' v'] o IH]; [reflexivity|].
  cbn [set]. destruct (String.eqb_spec k' k) as [->|D]; cbn [map fst].
  - destruct (in_dec string_dec k (k :: map fst o)) as [_|N]; [reflexivity|].
    exfalso. apply N. left. reflexivity.
  - rewrite IH.
    destruct (in_dec string_dec k (map fst o)) as [I|N];
      destruct (in_dec string_dec k (k' :: map fst o)) as [I'|N']; try reflexivity.
    + exfalso. apply N'. right. exact I.
    + destruct I' as [E|I']; [congruence|contradiction].
Qed.

Lemma set_wellFormed (k : string) (v : value) (o : object) :
  wellFormed o -> wellFormed (set k v o).
Proof.
  unfold wellFormed. intros W. rewrite keys_set.
  destruct (in_dec string_dec k (keys o)) as [_|N]; [exact W|].
  apply NoDup_app; [exact W|repeat constructor; intros []|].
  intros x Hx [<-|[]]. contradiction.
Qed.

Section Transform.

Variable navigatorUserAgent : string.
Variable isoTime : nat -> string.
Variable subtleDigest : string -> option string.
Variable subtleGenerateKey : nat -> option nat.
Variable subtleEncrypt : nat -> nat -> string -> option string.
Variable fetch : nat -> request -> reply.

Let encryptRecord := encryptSensitiveData subtleDigest subtleGenerateKey subtleEncrypt.
Let loop := forEntries subtleDigest subtleGenerateKey subtleEncrypt.
Let submit :=
  submitSecureData navigatorUserAgent isoTime subtleDigest subtleGenerateKey
    subtleEncrypt fetch.

Definition needsCipher (kv : string * value) : bool :=
  isSensitiveField (ofName (fst kv)) && truthy (snd kv).

(** ** Records with nothing to encrypt *)

Lemma forEntries_plain (entries : list (string * value)) :
  forall acc st,
    NoDup (keys (acc ++ entries)) ->
    (forall kv, In kv entries -> needsCipher kv = false) ->
    loop entries acc st = (Ok (acc ++ entries), st).
Proof.
  induction entries as [|[k v] entries IH]; intros acc st N P.
  - rewrite app_nil_r. reflexivity.
  - unfold loop. cbn [forEntries]. unfold bind, encryptEntry.
    pose proof (P (k, v) (or_introl eq_refl)) as Pk. unfold needsCipher in Pk.
    cbn [fst snd] in Pk. rewrite Pk. cbn [ret].
    assert (F : ~ In k (keys acc)).
    { unfold keys in N. rewrite map_app in N. cbn [map fst] in N.
      apply NoDup_remove_2 in N. intros H. apply N. apply in_or_app. left. exact H. }
    rewrite (set_fresh _ _ _ F).
    fold loop. rewrite IH.
    + rewrite <- app_assoc. reflexivity.
    + rewrite <- app_assoc. exact N.
    + intros kv H. apply P. right. exact H.
Qed.

(** X9: a record in which no field is both sensitive and non-empty comes out of
    [encryptSensitiveData] as it went in, and neither the key nor the random
    source is touched. *)
Theorem nothing_to_encrypt (data : object) (st : state) :
  wellFormed data ->
  (forall kv, In kv data -> needsCipher kv = false) ->
  encryptRecord data st = (Ok data, st).
Proof.
  intros W P. unfold encryptRecord, encryptSensitiveData.
  exact (forEntries_plain data [] st W P).
Qed.

(** ** When the cipher is not available *)

(** The cipher is down when the primitive refuses every encryption, or when
    there is no key and none can be generated. *)
Definition cipherDown (st : state) : Prop :=
  (forall k iv text, subtleEncrypt k iv text = None) \/
  (encryptionKey (this st) = None /\ forall n, subtleGenerateKey n = None).

Lemma encrypt_down (text : string) (st : state) :
  cipherDown st ->
  exists st', encrypt subtleGenerateKey subtleEncrypt text st = (Ok text, st') /\
              sameSession st st'.
Proof.
  intros D.
  unfold encrypt, initializeEncryption, random, bind, gets, modify, ret. cbn [fst snd].
  destruct (encryptionKey (this st)) as [k|] eqn:K.
  - cbn [this withWindow withThis window encryptionKey]. rewrite K.
    destruct D as [D|[D _]]; [|congruence]. rewrite D.
    eexists. split; [reflexivity|constructor; reflexivity].
  - destruct (subtleGenerateKey (entropy (window st))) as [k|] eqn:G;
      cbn [this withWindow withThis window encryptionKey setKey draw entropy].
    + destruct D as [D|[_ D]]; [|rewrite D in G; discriminate G]. rewrite D.
      eexists. split; [reflexivity|constructor; reflexivity].
    + rewrite K. eexists. split; [reflexivity|constructor; reflexivity].
Qed.

(** X10: with the cipher down, the round of a sensitive, non-empty field stores
    the plain text of the value under [key_encrypted], next to its hash. *)
Theorem cipher_down_stores_plaintext (key text : string) (v : value)
    (acc : object) (st : state) :
  cipherDown st ->
  isSensitiveField (ofName key) = true ->
  truthy v = true ->
  toStringMethod v = Some text ->
  exists st',
    encryptEntry subtleDigest subtleGenerateKey subtleEncrypt (key, v) acc st
    = (Ok (set (key +++ "_hash") (Str (hash subtleDigest (this st) text))
             (set (key +++ "_encrypted") (Str text) acc)), st').
Proof.
  intros D S T TS. destruct (encrypt_down text st D) as (st' & E & Same).
  exists st'. unfold encryptEntry. rewrite S, T, TS. cbn [andb].
  unfold bind, gets, ret. rewrite E.
  unfold hash. rewrite (same_url _ _ Same). reflexivity.
Qed.

(** ** The plain name of an encrypted field *)

Lemma writer_or_not (key : string) (entries : list (string * value)) :
  (exists kv, In kv entries /\ In key (writes kv)) \/
  (forall kv, In kv entries -> ~ In key (writes kv)).
Proof.
  induction entries as [|kv entries [(kv' & I & Wr)|None]].
  - right. intros kv [].
  - left. exists kv'. split; [right; exact I|exact Wr].
  - destruct (in_dec string_dec key (writes kv)) as [Y|N].
    + left. exists kv. split; [left; reflexivity|exact Y].
    + right. intros kv' [<-|I]; [exact N|apply None; exact I].
Qed.

(** X11: a sensitive field with a non-empty value does not keep its own name in
    the encrypted record: a property of that name is there only if it is the
    encrypted or hashed column of another field. *)
Theorem encrypted_field_drops_its_name (data : object) (key : string) (v : value)
    (st : state) :
  wellFormed data -> In (key, v) data ->
  isSensitiveField (ofName key) = true -> truthy v = true ->
  exists out st',
    encryptRecord data st = (Ok out, st') /\
    (get key out <> None ->
     exists k' v', In (k', v') data /\ needsCipher (k', v') = true /\
                   (key = k' +++ "_encrypted" \/ key = k' +++ "_hash")).
Proof.
  intros W H S T. unfold encryptRecord, encryptSensitiveData.
  destruct (forEntries_frame subtleDigest subtleGenerateKey subtleEncrypt data [] st)
    as (out & st' & R & _ & F).
  exists out, st'. split; [exact R|]. intros Present.
  destruct (writer_or_not key data) as [([k' v'] & I & Wr)|None].
  - unfold writes in Wr. cbn [fst snd] in Wr.
    destruct (isSensitiveField (ofName k') && truthy v') eqn:N.
    + exists k', v'. split; [exact I|]. split; [exact N|].
      destruct Wr as [E|[E|[]]]; [left|right]; congruence.
    + destruct Wr as [E|[]]. subst k'.
      rewrite (value_unique _ _ _ _ W I H), S, T in N. discriminate N.
  - exfalso. apply Present. rewrite (F key None). reflexivity.
Qed.

End Transform.

Lemma cipher_down_stores_plaintext_witness :
  exists st',
    encryptEntry Samples.digest (fun _ => None) Samples.cipher
      ("ssn", Str "123-45-6789") [] (Samples.start true)
    = (Ok [ ("ssn_encrypted", Str "123-45-6789");
            ("ssn_hash", Str "sha256(123-45-6789salt-https://demo.supabase.co)") ], st').
Proof.
  apply (cipher_down_stores_plaintext Samples.digest (fun _ => None) Samples.cipher
           "ssn" "123-45-6789" (Str "123-45-6789") [] (Samples.start true)).
  - right. split; reflexivity.
  - reflexivity.
  - reflexivity.
  - reflexivity.
Defined.

Lemma nothing_to_encrypt_witness :
  encryptSensitiveData Samples.digest Samples.keygen Samples.cipher
    [("quantity", Num 3); ("colour", Str "red"); ("email", Str "")] (Samples.start true)
  = (Ok [("quantity", Num 3); ("colour", Str "red"); ("email", Str "")],
     Samples.start true).
Proof.
  apply (nothing_to_encrypt Samples.digest Samples.keygen Samples.cipher).
  - unfold wellFormed. cbn. repeat constructor; cbn; intuition discriminate.
  - intros kv [<-|[<-|[<-|[]]]]; reflexivity.
Defined.

Lemma encrypted_field_drops_its_name_witness :
  exists out st',
    encryptSensitiveData Samples.digest Samples.keygen Samples.cipher
      [("ssn", Str "123-45-6789"); ("qty", Num 1)] (Samples.start true) = (Ok out, st') /\
    (get "ssn" out <> None ->
     exists k' v', In (k', v') [("ssn", Str "123-45-6789"); ("qty", Num 1)] /\
                   needsCipher (k', v') = true /\
                   ("ssn" = k' +++ "_encrypted" \/ "ssn" = k' +++ "_hash")).
Proof.
  apply (encrypted_field_drops_its_name Samples.digest Samples.keygen Samples.cipher
           [("ssn", Str "123-45-6789"); ("qty", Num 1)] "ssn" (Str "123-45-6789")).
  - unfold wellFormed. cbn. repeat constructor; cbn; intuition discriminate.
  - left. reflexivity.
  - reflexivity.
  - reflexivity.
Defined.

End TransformFacts.

Module SubmissionFacts.
Import JS RegExp Connector Runtime ObjectFacts AuditFacts CipherFacts PipelineFacts
       TransformFacts.

Ltac suffix_clash E :=
  apply (f_equal list_ascii_of_string) in E; rewrite ?chars_append in E;
  apply (f_equal (@rev ascii)) in E; rewrite ?rev_app_distr in E;
  cbn in E; discriminate E.

(** The three properties that [submitSecureData] adds to a record. *)
Definition metadataKeys : list string :=
  ["department"; "security_classification"; "created_by"].

Lemma metadata_not_derived (k k' : string) :
  In k metadataKeys -> k <> k' +++ "_encrypted" /\ k <> k' +++ "_hash".
Proof.
  intros [<-|[<-|[<-|[]]]]; split; intros E; suffix_clash E.
Qed.

Lemma metadata_not_sensitive (k : string) :
  In k metadataKeys -> isSensitiveField (ofName k) = false /\ k <> "data_hash".
Proof.
  intros [<-|[<-|[<-|[]]]]; split; try reflexivity; discriminate.
Qed.

Section Submission.

Variable navigatorUserAgent : string.
Variable isoTime : nat -> string.
Variable subtleDigest : string -> option string.
Variable subtleGenerateKey : nat -> option nat.
Variable subtleEncrypt : nat -> nat -> string -> option string.
Variable fetch : nat -> request -> reply.

Let validate := validateSubmission navigatorUserAgent isoTime.
Let submit :=
  submitSecureData navigatorUserAgent isoTime subtleDigest subtleGenerateKey
    subtleEncrypt fetch.
Let encryptRecord := encryptSensitiveData subtleDigest subtleGenerateKey subtleEncrypt.

(** A field that needs no cipher and whose name no encrypted column takes
    is in the encrypted record as it was. *)
Lemma plain_entry_kept (data : object) (k : string) (v : value) (st : state)
    (out : object) (st' : state) :
  wellFormed data -> In (k, v) data ->
  needsCipher (k, v) = false ->
  (forall k' v', In (k', v') data -> needsCipher (k', v') = true ->
                 k <> k' +++ "_encrypted" /\ k <> k' +++ "_hash") ->
  encryptRecord data st = (Ok out, st') ->
  get k out = Some v.
Proof.
  intros W H P Free R. unfold encryptRecord, encryptSensitiveData in R.
  destruct (in_split _ _ H) as (pre & post & ->).
  rewrite forEntries_app in R. unfold bind in R.
  destruct (forEntries_frame subtleDigest subtleGenerateKey subtleEncrypt pre [] st)
    as (a & st1 & R1 & _ & _).
  rewrite R1 in R. cbn [forEntries] in R. unfold bind in R.
  unfold encryptEntry at 1 in R. unfold needsCipher in P. cbn [fst snd] in P.
  rewrite P in R. cbn [ret] in R.
  destruct (forEntries_frame subtleDigest subtleGenerateKey subtleEncrypt post
              (set k v a) st1) as (out' & st2 & R2 & _ & F2).
  rewrite R2 in R. inversion R; subst out' st2.
  rewrite F2; [apply get_set_same|].
  intros [k' v'] Hin'. unfold writes. cbn [fst snd].
  assert (Hin'' : In (k', v') (pre ++ (k, v) :: post)).
  { apply in_or_app. right. right. exact Hin'. }
  destruct (isSensitiveField (ofName k') && truthy v') eqn:T.
  - destruct (Free k' v' Hin'' T) as [N1 N2]. intros [E|[E|[]]]; congruence.
  - intros [E|[]]. subst k'.
    unfold wellFormed, keys in W. rewrite map_app in W. cbn [map fst] in W.
    apply NoDup_remove_2 in W. apply W. apply in_or_app. right.
    change (In k (keys post)). eapply in_keys. exact Hin'.
Qed.

Lemma secureData_wellFormed (formData securityContext : object) :
  wellFormed formData -> wellFormed (secureDataOf formData securityContext).
Proof. intros W. unfold secureDataOf. repeat apply set_wellFormed. exact W. Qed.

Lemma secureData_metadata (formData securityContext : object) :
  get "department" (secureDataOf formData securityContext)
  = Some (orElse (prop "department" securityContext) (Str "general")) /\
  get "security_classification" (secureDataOf formData securityContext)
  = Some (Str (levelName (classifyData formData))) /\
  get "created_by" (secureDataOf formData securityContext)
  = Some (orElse (prop "userEmail" securityContext) (Str "anonymous")).
Proof.
  unfold secureDataOf. repeat split.
  - rewrite !get_set_other by discriminate. apply get_set_same.
  - rewrite get_set_other by discriminate. apply get_set_same.
  - apply get_set_same.
Qed.

(** X12: the record that is sent carries the department and the user of the
    security context and the classification that the connector computed,
    whatever the form data hold under the names [department],
    [security_classification] and [created_by]: a form cannot choose them. *)
Theorem metadata_from_context (tableName : string) (formData securityContext : object)
    (st : state) (v : validation) (st1 : state) :
  wellFormed formData ->
  connected (this st) = true ->
  validate formData tableName securityContext st = (Ok v, st1) ->
  isValid v = true ->
  exists r,
    network (window (snd (submit tableName formData securityContext st)))
    = network (window st) ++ [r] /\
    get "department" (payload r)
    = Some (orElse (prop "department" securityContext) (Str "general")) /\
    get "security_classification" (payload r)
    = Some (Str (levelName (classifyData formData))) /\
    get "created_by" (payload r) = Some (prop "userEmail" securityContext).
Proof.
  intros W C V I.
  destruct (submit_runs navigatorUserAgent isoTime subtleDigest subtleGenerateKey
              subtleEncrypt fetch tableName formData securityContext st)
    as (out & st' & Eq & R).
  unfold submit. rewrite Eq. cbn [snd].
  destruct (run_network _ _ _ _ _ _ _ _ _ _ _ R)
    as [[_ [C'|(v' & st1' & V' & I')]]
       |(v' & st1' & enc & st2 & r & _ & V' & _ & E & P & N)].
  - congruence.
  - unfold validate in V. rewrite V in V'. inversion V'; subst. congruence.
  - exists r. split; [exact N|].
    assert (K : forall k x, In k metadataKeys ->
                 get k (secureDataOf formData securityContext) = Some x ->
                 get k (payload r) = Some x).
    { intros k x Hk G. destruct (metadata_not_sensitive k Hk) as [NS ND].
      rewrite P, get_set_other by exact ND.
      apply (plain_entry_kept (secureDataOf formData securityContext) k x st1' enc st2).
      - apply secureData_wellFormed. exact W.
      - apply get_some_in. exact G.
      - unfold needsCipher. cbn [fst snd]. rewrite NS. reflexivity.
      - intros k' x' _ _. apply metadata_not_derived. exact Hk.
      - exact E. }
    destruct (secureData_metadata formData securityContext) as (D & S & B).
    repeat split.
    + apply K; [cbn; tauto|exact D].
    + apply K; [cbn; tauto|exact S].
    + apply K; [cbn; tauto|]. rewrite B. f_equal.
      destruct (validateSubmission_run navigatorUserAgent isoTime formData tableName
                  securityContext st) as (v0 & d & V0 & I0 & _).
      unfold validate in V. rewrite V in V0. inversion V0; subst v0.
      rewrite I in I0. symmetry in I0. apply andb_true_iff in I0 as [A _].
      unfold unauthenticated in A. apply negb_true_iff, negb_false_iff in A.
      unfold orElse. rewrite A. reflexivity.
Qed.

(** X13: a restricted record from anybody but an administrator never leaves the
    browser: [submitSecureData] returns a failure and sends nothing; on a
    connected connector the failure names the missing permission. *)
Theorem restricted_record_stays (tableName : string) (formData securityContext : object)
    (st : state) :
  classifyData formData = restricted ->
  prop "role" securityContext <> Str "admin" ->
  exists message st',
    submit tableName formData securityContext st = (Ok (Failed message), st') /\
    network (window st') = network (window st) /\
    (connected (this st) = true ->
       includes "Restricted data requires admin permissions" message = true).
Proof.
  intros Restricted NotAdmin.
  destruct (validateSubmission_run navigatorUserAgent isoTime formData tableName
              securityContext st) as (v & d & V & I & Errs).
  assert (F : forbidden formData securityContext = true).
  { unfold forbidden. rewrite Restricted. cbn [classification_eqb andb].
    destruct (value_eqb _ _) eqn:E; [|reflexivity].
    apply value_eqb_str in E. contradiction. }
  rewrite F, andb_false_r in I. rewrite F in Errs.
  destruct (submit_runs navigatorUserAgent isoTime subtleDigest subtleGenerateKey
              subtleEncrypt fetch tableName formData securityContext st)
    as (out & st' & Eq & R).
  inversion R as [C|v' st1 C V' I'|v' st1 enc st2 r out' d' C V' I' E P U]; subst.
  - eexists; eexists. split; [exact Eq|]. split; [apply logged_network|].
    intros C'. congruence.
  - rewrite V in V'. inversion V'; subst v' st1.
    eexists; eexists. split; [exact Eq|]. split.
    + rewrite !logged_network. reflexivity.
    + intros _. unfold validationFailed. rewrite Errs.
      destruct (unauthenticated securityContext); vm_compute; reflexivity.
  - rewrite V in V'. inversion V'; subst. congruence.
Qed.

(** X14: when the digest primitive fails, the [data_hash] that is sent is the
    canonical JSON text of the raw record itself: every value of the form,
    the sensitive ones included, travels in the clear in that property. *)
Theorem failed_digest_sends_record (tableName : string)
    (formData securityContext : object) (st : state) (v : validation) (st1 : state) :
  (forall text, subtleDigest text = None) ->
  connected (this st) = true ->
  validate formData tableName securityContext st = (Ok v, st1) ->
  isValid v = true ->
  exists r,
    network (window (snd (submit tableName formData securityContext st)))
    = network (window st) ++ [r] /\
    get "data_hash" (payload r)
    = Some (Str (stringifyWith (sort (keys formData)) formData)).
Proof.
  intros Down C V I.
  destruct (submit_runs navigatorUserAgent isoTime subtleDigest subtleGenerateKey
              subtleEncrypt fetch tableName formData securityContext st)
    as (out & st' & Eq & R).
  unfold submit. rewrite Eq. cbn [snd].
  destruct (run_network _ _ _ _ _ _ _ _ _ _ _ R)
    as [[_ [C'|(v' & st1' & V' & I')]]
       |(v' & st1' & enc & st2 & r & _ & V' & _ & E & P & N)].
  - congruence.
  - unfold validate in V. rewrite V in V'. inversion V'; subst. congruence.
  - exists r. split; [exact N|]. rewrite P, get_set_same.
    unfold generateDataHash, hash. rewrite Down. reflexivity.
Qed.

End Submission.

Definition spoofing : object :=
  [ ("note", Str "hello"); ("created_by", Str "ceo@company.com");
    ("security_classification", Str "public") ].

Lemma metadata_from_context_witness :
  exists r,
    network (window (snd (Samples.submit "orders" spoofing Samples.clerk
                            (Samples.start true)))) = [] ++ [r] /\
    get "department" (payload r) = Some (Str "sales") /\
    get "security_classification" (payload r) = Some (Str "internal") /\
    get "created_by" (payload r) = Some (Str "clerk@company.com").
Proof.
  eapply (metadata_from_context Samples.agent Samples.time Samples.digest Samples.keygen
            Samples.cipher Samples.accepting "orders" spoofing Samples.clerk
            (Samples.start true)).
  - unfold wellFormed. cbn. repeat constructor; cbn; intuition discriminate.
  - reflexivity.
  - reflexivity.
  - reflexivity.
Defined.

Lemma restricted_record_stays_witness :
  exists message st',
    Samples.submit "orders" PipelineFacts.patent Samples.clerk (Samples.start true)
    = (Ok (Failed message), st') /\
    network (window st') = [] /\
    (connected (this (Samples.start true)) = true ->
       includes "Restricted data requires admin permissions" message = true).
Proof.
  apply (restricted_record_stays Samples.agent Samples.time Samples.digest Samples.keygen
           Samples.cipher Samples.accepting "orders" PipelineFacts.patent Samples.clerk
           (Samples.start true)).
  - reflexivity.
  - vm_compute. discriminate.
Defined.

Lemma failed_digest_sends_record_witness :
  exists r,
    network (window (snd (submitSecureData Samples.agent Samples.time (fun _ => None)
                            Samples.keygen Samples.cipher Samples.accepting "orders"
                            [("ssn", Str "123-45-6789")] Samples.clerk
                            (Samples.start true)))) = [] ++ [r] /\
    get "data_hash" (payload r)
    = Some (Str (stringifyWith (sort (keys [("ssn", Str "123-45-6789")]))
                   [("ssn", Str "123-45-6789")])).
Proof.
  eapply (failed_digest_sends_record Samples.agent Samples.time (fun _ => None)
            Samples.keygen Samples.cipher Samples.accepting "orders"
            [("ssn", Str "123-45-6789")] Samples.clerk (Samples.start true)).
  - reflexivity.
  - reflexivity.
  - reflexivity.
  - reflexivity.
Defined.

End SubmissionFacts.

(* ================================================================== *)
(** * Connecting and disconnecting *)
(* ================================================================== *)

Module UrlFacts.
Import JS RegExp Connector Session RegExpFacts TextFacts IdentifierFacts.

(** A character of the project label of an endpoint. *)
Definition labelChar (c : ascii) : bool :=
  isLower c || isUpper c || isDigit c || (code c =? 45).

Lemma label_class (c : ascii) :
  xorb false (existsb (inRange false c) hostLabel) = labelChar c.
Proof. every_char c; reflexivity. Qed.

Lemma class_step (p q : cursor) :
  In q (run false (Class false hostLabel) p) <->
  exists d, rest p = String d (rest q) /\ labelChar d = true /\ before q = Some d.
Proof.
  cbn [run]. unfold eat. destruct (rest p) as [|d t].
  - split; [intros []|]. intros (d & E & _). discriminate E.
  - rewrite label_class. destruct (labelChar d) eqn:L; split.
    + intros [<-|[]]. exists d. repeat split. exact L.
    + intros (d' & E & _ & B). inversion E; subst. left.
      destruct q as [bq rq]. cbn in *. subst. reflexivity.
    + intros [].
    + intros (d' & E & L' & _). inversion E; subst. congruence.
Qed.

Lemma allChars_label (w : string) :
  allChars (fun d => xorb false (existsb (inRange false d) hostLabel)) w = allChars labelChar w.
Proof. apply NameFacts.allChars_ext. exact label_class. Qed.

(** X15: [isValidSupabaseUrl] accepts exactly the addresses
    [https://<label>.supabase.co] whose label is a non-empty run of letters,
    digits and hyphens: no other scheme, no port, no path, no further
    subdomain. *)
Theorem valid_endpoints (url : string) :
  isValidSupabaseUrl url = true <->
  exists label, label <> "" /\ allChars labelChar label = true /\
                url = "https://" +++ label +++ ".supabase.co".
Proof.
  unfold isValidSupabaseUrl, supabaseUrl_re, caseSensitive, seq. cbn [fold_right].
  rewrite anchored_test. split.
  - intros (q & Hq).
    apply in_seq in Hq as (m1 & H1 & Hq). apply lit_sound in H1. cbn [rest] in H1.
    apply in_seq in Hq as (m2 & H2 & Hq).
    cbn [run] in H2. apply in_flat_map in H2 as (m' & Hm' & H2).
    change (In m' (run false (Class false hostLabel) m1)) in Hm'.
    apply class_step in Hm' as (d & E1 & L & _).
    unfold closure in H2. apply iterate_sound in H2 as (w & E2 & A).
    apply in_seq in Hq as (m3 & H3 & Hq). apply lit_sound in H3.
    apply at_end in Hq as [E3 _].
    exists (String d w). split; [discriminate|]. split.
    + cbn [allChars]. rewrite L. rewrite allChars_label in A. exact A.
    + rewrite H1, E1, E2, H3, E3. reflexivity.
  - intros (label & NE & A & ->).
    destruct label as [|d w]; [contradiction|]. cbn [allChars] in A.
    apply andb_true_iff in A as [L A].
    destruct (lit_complete "https://" {| before := None;
                rest := "https://" +++ String d w +++ ".supabase.co" |}
                (String d w +++ ".supabase.co") eq_refl) as (b1 & H1).
    rewrite <- allChars_label in A.
    destruct (iterate_complete _ w A (Some d) ".supabase.co" (String.length (w +++ ".supabase.co")))
      as (b2 & H2).
    { rewrite length_append. lia. }
    destruct (lit_complete ".supabase.co" {| before := b2; rest := ".supabase.co" |} ""
                eq_refl) as (b3 & H3).
    exists {| before := b3; rest := "" |}.
    apply in_seq. eexists. split; [exact H1|].
    apply in_seq. exists {| before := b2; rest := ".supabase.co" |}. split.
    + cbn [run]. apply in_flat_map.
      exists {| before := Some d; rest := w +++ ".supabase.co" |}. split.
      * change (In {| before := Some d; rest := w +++ ".supabase.co" |}
                  (run false (Class false hostLabel)
                     {| before := b1; rest := String d w +++ ".supabase.co" |})).
        apply class_step. exists d. repeat split. exact L.
      * unfold closure. cbn [rest]. exact H2.
    + apply in_seq. eexists. split; [exact H3|]. apply at_end. split; reflexivity.
Qed.

Example endpoints :
  map isValidSupabaseUrl
    [ "https://demo.supabase.co"; "https://my-project-1.supabase.co";
      "http://demo.supabase.co"; "https://.supabase.co"; "https://demo.supabase.co/";
      "https://demo.supabase.co.evil.example"; "https://evil.example/x.supabase.co" ]
  = [true; true; false; false; false; false; false].
Proof. vm_compute; reflexivity. Qed.

End UrlFacts.

Module SessionFacts.
Import JS RegExp Connector Runtime Session ObjectFacts AuditFacts CipherFacts PipelineFacts
       UrlFacts.

Section Lifecycle.

Variable navigatorUserAgent : string.
Variable isoTime : nat -> string.
Variable subtleDigest : string -> option string.
Variable subtleGenerateKey : nat -> option nat.
Variable subtleEncrypt : nat -> nat -> string -> option string.
Variable fetch : nat -> request -> reply.
Variable probeFetch : nat -> probe -> probeReply.
Variable connectedMarkup : string.
Variable failedMarkup : string.

Let connect := connectToSupabase navigatorUserAgent isoTime subtleGenerateKey probeFetch.
Let submit :=
  submitSecureData navigatorUserAgent isoTime subtleDigest subtleGenerateKey
    subtleEncrypt fetch.

Ltac unfold_world :=
  cbv beta iota zeta delta [tryCatchW bindW retW throwW getsW modifyW lift logEvent
                            testConnection modify gets ret bind].

(** The world after [logSecurityEvent]. *)
Definition loggedW (event : string) (details : object) (w : world) : world :=
  withCore (logged navigatorUserAgent isoTime event details (core w)) w.

Lemma logEvent_run (event : string) (details : object) (w : world) :
  logEvent navigatorUserAgent isoTime event details w = (Ok tt, loggedW event details w).
Proof. reflexivity. Qed.

(** The liveness request for an endpoint and a key. *)
Definition probeOf (url apiKey : string) : probe :=
  {| target := url +++ "/rest/v1/";
     credentials := [ ("apikey", apiKey);
                      ("Authorization", "Bearer " +++ apiKey);
                      ("Content-Type", "application/json") ] |}.

Definition keyAccepted (apiKey : string) : bool := 20 <=? String.length apiKey.

Lemma key_guard (apiKey : string) :
  (apiKey =? "")%string || (String.length apiKey <? 20) = negb (keyAccepted apiKey).
Proof.
  unfold keyAccepted. destruct apiKey as [|c s]; [reflexivity|].
  cbn [String.eqb orb]. rewrite Nat.leb_antisym. destruct (_ <? _); reflexivity.
Qed.

(** ** Refused before any traffic *)

Lemma refused_by_guards (url apiKey : string) (userContext : object) (w : world) :
  isValidSupabaseUrl url && keyAccepted apiKey = false ->
  let message := if isValidSupabaseUrl url then "Invalid API key format"
                 else "Invalid Supabase URL format" in
  connect url apiKey userContext w
  = (Ok (Refused message), loggedW "CONNECTION_FAILED" [("error", Str message)] w).
Proof.
  intros G. unfold connect, connectToSupabase. unfold_world.
  rewrite key_guard.
  destruct (isValidSupabaseUrl url); cbn [andb] in G.
  - rewrite G. cbn [negb]. reflexivity.
  - reflexivity.
Qed.

(** X16: an address that is not a Supabase endpoint, or a key of fewer than 20
    characters, is refused before anything is sent: the connector keeps its
    endpoint, key, user and connection flag, and the only trace is one
    CONNECTION_FAILED entry. *)
Theorem connect_refused_early (url apiKey : string) (userContext : object) (w : world) :
  isValidSupabaseUrl url && keyAccepted apiKey = false ->
  let message := if isValidSupabaseUrl url then "Invalid API key format"
                 else "Invalid Supabase URL format" in
  connect url apiKey userContext w
  = (Ok (Refused message), loggedW "CONNECTION_FAILED" [("error", Str message)] w).
Proof. exact (refused_by_guards url apiKey userContext w). Qed.

(** ** After the guards *)

Definition answerOf (url apiKey : string) (w : world) : probeReply :=
  probeFetch (List.length (probes w)) (probeOf url apiKey).

Definition reachable (r : probeReply) : bool :=
  match r with Reachable => true | _ => false end.

Lemma past_the_guards (url apiKey : string) (userContext : object) (w : world) :
  isValidSupabaseUrl url = true -> keyAccepted apiKey = true ->
  exists outcome w',
    connect url apiKey userContext w = (Ok outcome, w') /\
    probes w' = probes w ++ [probeOf url apiKey] /\
    supabaseUrl (this (core w')) = url /\
    supabaseKey (this (core w')) = apiKey /\
    currentUser (this (core w')) = Some userContext /\
    network (window (core w')) = network (window (core w)) /\
    (exists e, auditLog (this (core w')) = auditLog (this (core w)) ++ [e] /\
               user e = orElse (prop "email" userContext) (Str "anonymous")) /\
    if reachable (answerOf url apiKey w)
    then outcome = Connected "Connected to secure database" url "enterprise" /\
         connected (this (core w')) = true
    else (exists error, outcome = Refused error) /\
         connected (this (core w')) = connected (this (core w)).
Proof.
  intros U K. unfold connect, connectToSupabase. unfold_world.
  rewrite key_guard, U, K. cbn [negb].
  cbn [core this withThis setSession supabaseUrl supabaseKey withCore probes].
  fold (probeOf url apiKey). unfold answerOf.
  destruct (probeFetch (List.length (probes w)) (probeOf url apiKey)) as [|status text|m];
    cbn [reachable].
  - unfold initializeEncryption, random. unfold_world.
    cbn [core withCore].
    destruct (subtleGenerateKey _);
      eexists; eexists; (split; [reflexivity|]); repeat split; try reflexivity;
      eexists; split; reflexivity.
  - eexists; eexists. split; [reflexivity|]. repeat split; try reflexivity;
      eexists; try split; reflexivity.
  - eexists; eexists. split; [reflexivity|]. repeat split; try reflexivity;
      eexists; try split; reflexivity.
Qed.

(** X17: past the two guards, the connector takes the new endpoint, key and user
    and sends one liveness request to [<url>/rest/v1/] with the key. If the
    endpoint answers, the connector is connected. If not, the call is refused
    but the new endpoint, key and user stay, and the connection flag is what
    it was before: a connector that was connected still says so. *)
Theorem connect_after_guards (url apiKey : string) (userContext : object) (w : world) :
  isValidSupabaseUrl url = true -> keyAccepted apiKey = true ->
  exists outcome w',
    connect url apiKey userContext w = (Ok outcome, w') /\
    probes w' = probes w ++ [probeOf url apiKey] /\
    supabaseUrl (this (core w')) = url /\
    supabaseKey (this (core w')) = apiKey /\
    currentUser (this (core w')) = Some userContext /\
    network (window (core w')) = network (window (core w)) /\
    (exists e, auditLog (this (core w')) = auditLog (this (core w)) ++ [e] /\
               user e = orElse (prop "email" userContext) (Str "anonymous")) /\
    if reachable (answerOf url apiKey w)
    then outcome = Connected "Connected to secure database" url "enterprise" /\
         connected (this (core w')) = true
    else (exists error, outcome = Refused error) /\
         connected (this (core w')) = connected (this (core w)).
Proof. exact (past_the_guards url apiKey userContext w). Qed.

(** ** Disconnecting *)

(** X18: [disconnect] forgets the endpoint, the key, the cipher key and the user
    before it writes its audit entry, so the DISCONNECTED entry is always
    attributed to "anonymous", whoever was connected; and a submission made
    afterwards fails without validation, encryption or traffic. *)
Theorem disconnect_forgets (w : world) :
  let w' := snd (disconnect navigatorUserAgent isoTime w) in
  fst (disconnect navigatorUserAgent isoTime w) = Ok tt /\
  connected (this (core w')) = false /\
  supabaseUrl (this (core w')) = "" /\
  supabaseKey (this (core w')) = "" /\
  encryptionKey (this (core w')) = None /\
  currentUser (this (core w')) = None /\
  (exists e, auditLog (this (core w')) = auditLog (this (core w)) ++ [e] /\
             event e = "DISCONNECTED" /\ user e = Str "anonymous") /\
  forall tableName formData securityContext,
    exists st'',
      submit tableName formData securityContext (core w')
      = (Ok (Failed notConnected), st'') /\
      network (window st'') = network (window (core w)) /\
      List.length (auditLog (this st'')) = S (List.length (auditLog (this (core w')))).
Proof.
  cbv zeta. unfold disconnect. unfold_world. cbn [fst snd].
  repeat split; try reflexivity.
  - eexists. repeat split.
  - intros tableName formData securityContext.
    destruct (submit_runs navigatorUserAgent isoTime subtleDigest subtleGenerateKey
                subtleEncrypt fetch tableName formData securityContext
                (core (loggedW "DISCONNECTED" []
                   (withCore (withThis (fun c =>
                      {| supabaseUrl := ""; supabaseKey := ""; connected := false;
                         encryptionKey := None; currentUser := None;
                         auditLog := auditLog c |}) (core w)) w))))
      as (out & st'' & Eq & R).
    inversion R as [C|v st1 C V I|v st1 enc st2 r out' d C V I E P U]; subst;
      try (cbn in C; discriminate C).
    eexists. split; [exact Eq|]. split.
    + rewrite logged_network. reflexivity.
    + rewrite logged_auditLog, length_app. cbn [List.length].
      rewrite Nat.add_1_r. reflexivity.
Qed.

(** ** Provisioning *)

Let provision := createSecureTable navigatorUserAgent isoTime.

Definition ranAll (sqls : list string) (w : world) : world :=
  {| core := core w; probes := probes w; executed := executed w ++ sqls;
     statusElement := statusElement w |}.

Lemma ranAll_nil (w : world) : ranAll [] w = w.
Proof. destruct w. unfold ranAll. cbn. rewrite app_nil_r. reflexivity. Qed.

Lemma ranAll_ran (sql : string) (sqls : list string) (w : world) :
  ranAll sqls (ran sql w) = ranAll (sql :: sqls) w.
Proof. unfold ranAll, ran. cbn. rewrite <- app_assoc. reflexivity. Qed.

Lemma forEachPolicy_run (ps : list string) (w : world) :
  forEachPolicy ps w = (Ok tt, ranAll ps w).
Proof.
  revert w. induction ps as [|p ps IH]; intros w.
  - cbn [forEachPolicy]. unfold retW. rewrite ranAll_nil. reflexivity.
  - cbn [forEachPolicy]. unfold executeSQL. unfold_world. rewrite IH, ranAll_ran.
    reflexivity.
Qed.

(** The statements for a table, in the order [createSecureTable] runs
    them. *)
Definition statementsFor (tableName : string) (fields : list field)
    (securityOptions : object) : list string :=
  let enableAuditLog := defaulted (Bool true) (prop "enableAuditLog" securityOptions) in
  let enableEncryption := defaulted (Bool true) (prop "enableEncryption" securityOptions) in
  let departmentLevel := defaulted (Bool true) (prop "departmentLevel" securityOptions) in
  let retentionDays := defaulted Null (prop "retentionDays" securityOptions) in
  let accessLevel := defaulted (Str "internal") (prop "accessLevel" securityOptions) in
  [ generateSecureTableSchema tableName fields
      (passedOn enableAuditLog enableEncryption departmentLevel accessLevel) ]
  ++ policies tableName
  ++ (if truthy enableAuditLog then [generateAuditTrigger tableName] else [])
  ++ (if truthy retentionDays
      then [replaceFirst daysPlaceholder (toStr retentionDays)
              (generateRetentionPolicy tableName)]
      else []).

Lemma refused_to_provision (tableName : string) (fields : list field)
    (securityOptions : object) (w : world) :
  connected (this (core w)) && isValidTableName tableName = false ->
  let message :=
    if connected (this (core w))
    then "Invalid table name. Use only letters, numbers, and underscores."
    else "Not connected to database. Please connect first." in
  provision tableName fields securityOptions w
  = (Ok (NotCreated message),
     loggedW "TABLE_CREATION_FAILED"
       [("tableName", Str tableName); ("error", Str message)] w).
Proof.
  intros G. unfold provision, createSecureTable. unfold_world.
  destruct (connected (this (core w))); cbn [andb] in G.
  - rewrite G. reflexivity.
  - reflexivity.
Qed.

(** X19: [createSecureTable] refuses to work on a connector that is not
    connected and on a table name that is not an identifier: it reports the
    failure, hands no statement to [executeSQL], and only writes a
    TABLE_CREATION_FAILED entry. *)
Theorem provisioning_refused (tableName : string) (fields : list field)
    (securityOptions : object) (w : world) :
  connected (this (core w)) && isValidTableName tableName = false ->
  let message :=
    if connected (this (core w))
    then "Invalid table name. Use only letters, numbers, and underscores."
    else "Not connected to database. Please connect first." in
  provision tableName fields securityOptions w
  = (Ok (NotCreated message),
     loggedW "TABLE_CREATION_FAILED"
       [("tableName", Str tableName); ("error", Str message)] w).
Proof. exact (refused_to_provision tableName fields securityOptions w). Qed.

(** X20: on a connected connector and with a valid table name,
    [createSecureTable] always reports success. It hands to [executeSQL] the
    table definition, the four policies, the audit trigger unless the audit
    log is switched off, and the retention statement when a number of days is
    given, in this order; it sends nothing to the endpoint. The types of the
    fields are names that the type table is read under. *)
Theorem provisioning_statements (tableName : string) (fields : list field)
    (securityOptions : object) (w : world) :
  connected (this (core w)) = true -> isValidTableName tableName = true ->
  forallb (fun f => ownName (type f)) fields = true ->
  exists w',
    provision tableName fields securityOptions w
    = (Ok (Created tableName
             (defaulted (Str "internal") (prop "accessLevel" securityOptions))
             (map fst (filter (fun kv => truthy (snd kv)) securityOptions))), w') /\
    executed w' = executed w ++ statementsFor tableName fields securityOptions /\
    probes w' = probes w /\
    network (window (core w')) = network (window (core w)) /\
    exists e, auditLog (this (core w')) = auditLog (this (core w)) ++ [e] /\
              event e = "TABLE_CREATED".
Proof.
  intros C V _. unfold provision, createSecureTable, setupRLSPolicies, executeSQL.
  unfold_world. rewrite C, V. rewrite forEachPolicy_run.
  unfold statementsFor. cbv zeta.
  destruct (truthy (defaulted (Bool true) (prop "enableAuditLog" securityOptions)));
    destruct (truthy (defaulted Null (prop "retentionDays" securityOptions)));
    eexists; (split; [reflexivity|]);
    cbn [executed ranAll ran withCore core probes];
    (split; [rewrite <- ?app_assoc; cbn [app]; rewrite ?app_nil_r; reflexivity|]);
    repeat split; eexists; split; reflexivity.
Qed.

(** ** Reporting *)

Definition occurrences (e : string) (logs : list logEntry) : nat :=
  List.length (filter (fun l => (event l =? e)%string) logs).

Definition countValue (n : nat) : value :=
  match n with O => Undefined | S _ => Num (Z.of_nat n) end.

Lemma increment_count (n : nat) : increment (countValue n) = countValue (S n).
Proof.
  destruct n as [|n]; [reflexivity|].
  unfold countValue, increment, orElse. cbn [truthy].
  replace (Z.of_nat (S n) =? 0)%Z with false by (symmetry; apply Z.eqb_neq; lia).
  cbn [negb]. f_equal. lia.
Qed.

Lemma prop_set_same (k : string) (v : value) (o : object) : prop k (set k v o) = v.
Proof. unfold prop. rewrite get_set_same. reflexivity. Qed.

Lemma prop_set_other (k k' : string) (v : value) (o : object) :
  k <> k' -> prop k (set k' v o) = prop k o.
Proof. intros N. unfold prop. rewrite get_set_other by exact N. reflexivity. Qed.

Lemma summarize_from (logs : list logEntry) :
  forall (summary : object) (seen : list logEntry),
    (forall e, prop e summary = countValue (occurrences e seen)) ->
    forall e,
      prop e (fold_left
                (fun s l => set (event l) (increment (prop (event l) s)) s) logs summary)
      = countValue (occurrences e (seen ++ logs)).
Proof.
  induction logs as [|l logs IH]; intros summary seen H e.
  - rewrite app_nil_r. apply H.
  - cbn [fold_left].
    replace (seen ++ l :: logs) with ((seen ++ [l]) ++ logs)
      by (rewrite <- app_assoc; reflexivity).
    apply IH. intros e'. unfold occurrences. rewrite filter_app, length_app.
    cbn [filter]. destruct (String.eqb_spec (event l) e') as [<-|N].
    + rewrite prop_set_same, H, increment_count. cbn [List.length].
      unfold occurrences. f_equal. lia.
    + rewrite prop_set_other by congruence. rewrite H. cbn [List.length].
      unfold occurrences. f_equal. lia.
Qed.

(** X21: the summary of a log gives, for every kind of event, the number of
    entries of that kind, and nothing for a kind that does not occur. The
    kinds are names that the summary is read under. *)
Theorem summary_counts (logs : list logEntry) (e : string) :
  forallb (fun l => ownName (event l)) logs = true -> ownName e = true ->
  prop e (summarizeEvents logs) = countValue (occurrences e logs).
Proof.
  intros _ _. unfold summarizeEvents.
  exact (summarize_from logs [] [] (fun _ => eq_refl) e).
Qed.

Lemma keepLast_last (l : list logEntry) (x : logEntry) :
  exists l', keepLast (l ++ [x]) = l' ++ [x].
Proof.
  unfold keepLast. destruct (capacity <? List.length (l ++ [x])) eqn:E.
  - rewrite length_app. cbn [List.length].
    exists (skipn (List.length l + 1 - capacity) l).
    rewrite skipn_app.
    replace (List.length l + 1 - capacity - List.length l) with 0
      by (unfold capacity; lia).
    reflexivity.
  - exists l. reflexivity.
Qed.

Lemma lastFifty_last (l : list logEntry) (x : logEntry) :
  exists l', lastFifty (l ++ [x]) = l' ++ [x].
Proof.
  unfold lastFifty. rewrite length_app. cbn [List.length].
  exists (skipn (List.length l + 1 - 50) l). rewrite skipn_app.
  replace (List.length l + 1 - 50 - List.length l) with 0 by lia. reflexivity.
Qed.

Lemma last_some (l : list logEntry) (x : logEntry) :
  List.last (map Some (l ++ [x])) None = Some x.
Proof. rewrite map_app. cbn [map]. apply last_last. Qed.

(** X22: a report drawn right after an event has that event as its last recent
    one and as the last activity, and never shows more than 1000 events in
    all or more than 50 recent ones. *)
Theorem report_after_event (event : string) (details : object) (w : world) :
  let new := stored (entryAt navigatorUserAgent isoTime (core w) event details) in
  exists r w',
    getSecurityReport isoTime (loggedW event details w) = (Ok r, w') /\
    totalEvents r <= 1000 /\
    List.length (recentEvents r) <= 50 /\
    (exists older, recentEvents r = older ++ [new]) /\
    lastActivity (status r) = Some (timestamp new).
Proof.
  cbv zeta. unfold getSecurityReport, now. unfold_world.
  eexists; eexists. split; [reflexivity|].
  cbn [totalEvents recentEvents status lastActivity eventSummary core loggedW withCore].
  rewrite logged_securityLog.
  destruct (keepLast_last (securityLog (window (core w)))
              (stored (entryAt navigatorUserAgent isoTime (core w) event details)))
    as (l' & E).
  repeat split.
  - rewrite keepLast_length. apply Nat.le_min_l.
  - unfold lastFifty. rewrite length_skipn. lia.
  - rewrite E. apply lastFifty_last.
  - rewrite E, last_some. reflexivity.
Qed.

(** ** Connecting from the page *)

Let auto := autoConnect navigatorUserAgent isoTime subtleGenerateKey probeFetch
              connectedMarkup failedMarkup.

(** The user that [autoConnect] connects as. *)
Definition builtInAdmin : object :=
  [("email", Str "admin@company.com"); ("role", Str "admin")].

(** The configuration that [autoConnect] reads: the first source that is
    there, and nothing when there is none. *)
Definition chosen (pg : page) : option (result config) :=
  match embeddedConfig pg, secureConfig pg, standardConfig pg with
  | Some c, _, _ => Some (Ok c)
  | None, Some r, _ => Some r
  | None, None, Some c => Some (Ok c)
  | None, None, None => None
  end.

Definition usable (c : config) : bool :=
  negb (configUrl c =? "")%string && negb (configKey c =? "")%string
  && negb (configKey c =? "your-anon-key-here")%string.

Lemma showStatus_core (html : string) (w : world) :
  core (showStatus html w) = core w /\ probes (showStatus html w) = probes w.
Proof. split; reflexivity. Qed.

Lemma autoConnect_cases (pg : page) (w : world) :
  (exists message,
      auto pg w = (Ok (Refused message), showStatus failedMarkup w) /\
      match chosen pg with
      | Some (Ok c) => usable c = false /\ message = "No valid configuration found"
      | Some (Throw m) => message = m
      | None => message = "No valid configuration found"
      end) \/
  (exists c, chosen pg = Some (Ok c) /\ usable c = true /\
      auto pg w
      = let (r, w') := connect (configUrl c) (configKey c) builtInAdmin w in
        match r with
        | Ok (Connected _ _ _) => (r, showStatus connectedMarkup w')
        | Ok (Refused _) => (r, w')
        | Throw m => (Ok (Refused m), showStatus failedMarkup w')
        end).
Proof.
  unfold auto, autoConnect, chosen.
  destruct (embeddedConfig pg) as [c|]; [|destruct (secureConfig pg) as [[c|m]|];
    [| |destruct (standardConfig pg) as [c|]]].
  1,2,4: unfold_world; fold (usable c); destruct (usable c) eqn:U;
    [right; exists c; split; [reflexivity|]; split; [exact U|];
       fold connect; unfold builtInAdmin;
       destruct (connect (configUrl c) (configKey c)
                   [("email", Str "admin@company.com"); ("role", Str "admin")] w)
         as [[[? ? ?|?]|?] ?];
       reflexivity
    |left; eexists; split; [reflexivity|split; reflexivity]].
  - left. unfold_world. eexists. split; reflexivity.
  - left. unfold_world. eexists. split; reflexivity.
Qed.

(** X23: a page without a configuration source, or whose source misses the
    address or the key, or still has the key "your-anon-key-here", is not
    connected: [autoConnect] reports that no valid configuration was found,
    sends nothing and leaves the connector and its audit log untouched. *)
Theorem autoConnect_without_configuration (pg : page) (w : world) :
  match chosen pg with
  | Some (Ok c) => usable c = false
  | Some (Throw _) => False
  | None => True
  end ->
  exists w',
    auto pg w = (Ok (Refused "No valid configuration found"), w') /\
    core w' = core w /\ probes w' = probes w.
Proof.
  intros H. destruct (autoConnect_cases pg w) as [(m & E & M)|(c & Ch & U & _)].
  - exists (showStatus failedMarkup w). destruct (chosen pg) as [[c|m']|].
    + destruct M as [_ ->]. split; [exact E|apply showStatus_core].
    + destruct H.
    + subst m. split; [exact E|apply showStatus_core].
  - rewrite Ch in H. congruence.
Qed.

(** X24: whoever sits at the page, a connection that [autoConnect] makes is made
    as the built-in administrator: when it reports a connection, the user of
    the connector is admin@company.com with the role admin, and the audit
    entry of the connection carries that address. *)
Theorem autoConnect_as_admin (pg : page) (w w' : world) (message url level : string) :
  auto pg w = (Ok (Connected message url level), w') ->
  connected (this (core w')) = true /\
  currentUser (this (core w')) = Some builtInAdmin /\
  exists e, auditLog (this (core w')) = auditLog (this (core w)) ++ [e] /\
            user e = Str "admin@company.com".
Proof.
  intros A. destruct (autoConnect_cases pg w) as [(m & E & _)|(c & _ & _ & E)].
  - rewrite E in A. discriminate A.
  - rewrite E in A. clear E.
    destruct (isValidSupabaseUrl (configUrl c) && keyAccepted (configKey c)) eqn:G.
    + apply andb_true_iff in G as [U K].
      destruct (past_the_guards (configUrl c) (configKey c) builtInAdmin w U K)
        as (out & w1 & E & _ & _ & _ & Who & _ & Audit & Answer).
      rewrite E in A.
      destruct (reachable (answerOf (configUrl c) (configKey c) w)).
      * destruct Answer as [-> C]. inversion A; subst. cbn [showStatus core].
        split; [exact C|]. split; [exact Who|exact Audit].
      * destruct Answer as [(err & ->) _]. inversion A.
    + rewrite (refused_by_guards _ _ builtInAdmin w G) in A.
      destruct (isValidSupabaseUrl (configUrl c)); inversion A.
Qed.

(** ** Where credentials and records go *)

Inductive action : Type :=
| Connect (url apiKey : string) (userContext : object)
| AutoConnect (pg : page)
| Disconnect
| Submit (tableName : string) (formData securityContext : object)
| CreateTable (tableName : string) (fields : list field) (securityOptions : object)
| Report.

Definition perform (a : action) (w : world) : world :=
  match a with
  | Connect url apiKey userContext => snd (connect url apiKey userContext w)
  | AutoConnect pg => snd (auto pg w)
  | Disconnect => snd (disconnect navigatorUserAgent isoTime w)
  | Submit tableName formData securityContext =>
      snd (lift (submit tableName formData securityContext) w)
  | CreateTable tableName fields securityOptions =>
      snd (provision tableName fields securityOptions w)
  | Report => snd (getSecurityReport isoTime w)
  end.

Definition performAll (actions : list action) (w : world) : world :=
  fold_left (fun w a => perform a w) actions w.

(** A connected connector holds a validated endpoint and key, and every
    request so far went to a validated endpoint. *)
Record trusted (w : world) : Prop := {
  endpoint_valid :
    connected (this (core w)) = true ->
    isValidSupabaseUrl (supabaseUrl (this (core w))) = true /\
    keyAccepted (supabaseKey (this (core w))) = true;
  posts_valid :
    forall r, In r (network (window (core w))) ->
      exists url tableName,
        isValidSupabaseUrl url = true /\ endpoint r = url +++ "/rest/v1/" +++ tableName;
  probes_valid :
    forall p, In p (probes w) ->
      exists url apiKey,
        isValidSupabaseUrl url = true /\ keyAccepted apiKey = true /\ p = probeOf url apiKey
}.

Lemma trusted_same (w w' : world) :
  connected (this (core w')) = connected (this (core w)) ->
  supabaseUrl (this (core w')) = supabaseUrl (this (core w)) ->
  supabaseKey (this (core w')) = supabaseKey (this (core w)) ->
  network (window (core w')) = network (window (core w)) ->
  probes w' = probes w ->
  trusted w -> trusted w'.
Proof.
  intros C U K N P [E Po Pr]. constructor.
  - rewrite C, U, K. exact E.
  - rewrite N. exact Po.
  - rewrite P. exact Pr.
Qed.

Lemma trusted_logged (event : string) (details : object) (w : world) :
  trusted w -> trusted (loggedW event details w).
Proof. apply trusted_same; reflexivity. Qed.

Lemma trusted_showStatus (html : string) (w : world) :
  trusted w -> trusted (showStatus html w).
Proof. apply trusted_same; reflexivity. Qed.

Lemma trusted_connect (url apiKey : string) (userContext : object) (w : world) :
  trusted w -> trusted (snd (connect url apiKey userContext w)).
Proof.
  intros T. destruct (isValidSupabaseUrl url && keyAccepted apiKey) eqn:G.
  - apply andb_true_iff in G as [U K].
    destruct (past_the_guards url apiKey userContext w U K)
      as (out & w' & E & P & Eu & Ek & _ & N & _ & _).
    rewrite E. cbn [snd]. destruct T as [_ Po Pr]. constructor.
    + intros _. rewrite Eu, Ek. split; assumption.
    + rewrite N. exact Po.
    + rewrite P. intros p H. apply in_app_or in H as [H|[<-|[]]]; [apply Pr; exact H|].
      exists url, apiKey. repeat split; assumption.
  - rewrite (refused_by_guards url apiKey userContext w G). cbn [snd].
    apply trusted_logged. exact T.
Qed.

Lemma trusted_submit (tableName : string) (formData securityContext : object) (w : world) :
  trusted w -> trusted (snd (lift (submit tableName formData securityContext) w)).
Proof.
  intros T. unfold lift.
  destruct (submit_runs navigatorUserAgent isoTime subtleDigest subtleGenerateKey
              subtleEncrypt fetch tableName formData securityContext (core w))
    as (out & st' & Eq & R).
  unfold submit. rewrite Eq. cbn [snd].
  inversion R as [C|v st1 C V I|v st1 enc st2 r out' d C V I E P U]; subst.
  - revert T. apply trusted_same; reflexivity.
  - destruct (validate_state _ _ _ _ _ _ _ _ V) as (d & ->).
    revert T. apply trusted_same; reflexivity.
  - destruct (validate_state _ _ _ _ _ _ _ _ V) as (d' & ->).
    pose proof (encryptSensitiveData_session _ _ _ _ _ _ _ E) as S.
    destruct T as [En Po Pr]. constructor; cbn [core withCore probes].
    + rewrite logged_connected, !logged_this. cbn [withWindow this pushAudit supabaseUrl
        supabaseKey connected].
      rewrite (same_connected _ _ S), (same_url _ _ S), (same_key _ _ S).
      exact En.
    + rewrite logged_network. cbn [withWindow window sent network].
      rewrite (same_network _ _ S), logged_network.
      intros r' H. apply in_app_or in H as [H|[<-|[]]]; [apply Po; exact H|].
      exists (supabaseUrl (this (core w))), tableName. split.
      * apply En. exact C.
      * rewrite U, (same_url _ _ S). reflexivity.
    + exact Pr.
Qed.

Lemma provision_core (tableName : string) (fields : list field)
    (securityOptions : object) (w : world) :
  exists out w' event details,
    provision tableName fields securityOptions w = (Ok out, w') /\
    core w' = logged navigatorUserAgent isoTime event details (core w) /\
    probes w' = probes w.
Proof.
  destruct (connected (this (core w)) && isValidTableName tableName) eqn:G.
  - apply andb_true_iff in G as [C V].
    unfold provision, createSecureTable, setupRLSPolicies, executeSQL.
    unfold_world. rewrite C, V. rewrite forEachPolicy_run.
    destruct (truthy (defaulted (Bool true) (prop "enableAuditLog" securityOptions)));
      destruct (truthy (defaulted Null (prop "retentionDays" securityOptions)));
      do 4 eexists; (split; [reflexivity|]); split; reflexivity.
  - rewrite (refused_to_provision tableName fields securityOptions w G).
    do 4 eexists. split; [reflexivity|]. split; reflexivity.
Qed.

Lemma trusted_perform (a : action) (w : world) : trusted w -> trusted (perform a w).
Proof.
  intros T. destruct a as [url apiKey user|pg| |t f c|t fs o|]; cbn [perform].
  - apply trusted_connect. exact T.
  - destruct (autoConnect_cases pg w) as [(m & E & _)|(c & _ & _ & E)]; rewrite E.
    + cbn [snd]. apply trusted_showStatus. exact T.
    + pose proof (trusted_connect (configUrl c) (configKey c) builtInAdmin w T) as T'.
      destruct (connect (configUrl c) (configKey c) builtInAdmin w)
        as [[[? ? ?|?]|?] w']; cbn [snd] in *;
        try apply trusted_showStatus; exact T'.
  - destruct T as [_ Po Pr]. constructor.
    + intros C. cbn in C. discriminate C.
    + exact Po.
    + exact Pr.
  - apply trusted_submit. exact T.
  - destruct (provision_core t fs o w) as (out & w' & ev & d & E & Co & P).
    rewrite E. cbn [snd]. revert T. apply trusted_same; rewrite ?Co, ?P; reflexivity.
  - revert T. apply trusted_same; reflexivity.
Qed.

(** X25: whatever is done with a connector (connecting by hand or from the
    page, disconnecting, submitting, provisioning, reporting), in any order
    and with any arguments: a connector that says it is connected holds an
    endpoint that passed [isValidSupabaseUrl] and a key of at least 20
    characters, and every liveness request and every record went to such an
    endpoint, under [/rest/v1/]. *)
Theorem traffic_goes_to_validated_endpoints (actions : list action) (w : world) :
  trusted w -> trusted (performAll actions w).
Proof.
  revert w. induction actions as [|a actions IH]; intros w T; [exact T|].
  cbn [performAll fold_left]. apply IH. apply trusted_perform. exact T.
Qed.

(** ** The two audit logs *)

Lemma keepLast_absorb (l : list logEntry) (x : logEntry) :
  keepLast (keepLast l ++ [x]) = keepLast (l ++ [x]).
Proof.
  destruct (Nat.le_gt_cases (List.length l) capacity) as [Le|Gt].
  - rewrite (keepLast_below l Le). reflexivity.
  - unfold keepLast at 2. replace (capacity <? List.length l) with true
      by (symmetry; apply Nat.ltb_lt; exact Gt).
    unfold keepLast. rewrite !length_app, length_skipn. cbn [List.length].
    replace (capacity <? List.length l - (List.length l - capacity) + 1) with true
      by (symmetry; apply Nat.ltb_lt; unfold capacity in *; lia).
    replace (capacity <? List.length l + 1) with true
      by (symmetry; apply Nat.ltb_lt; lia).
    rewrite !skipn_app, length_skipn, skipn_skipn.
    replace (List.length l - (List.length l - capacity) + 1 - capacity
             + (List.length l - capacity)) with (List.length l + 1 - capacity)
      by (unfold capacity in *; lia).
    replace (List.length l - (List.length l - capacity) + 1 - capacity
             - (List.length l - (List.length l - capacity)))
      with (List.length l + 1 - capacity - List.length l)
      by (unfold capacity in *; lia).
    reflexivity.
Qed.

(** The state [st'] has the logs of [st] with the entries [es] appended to
    both, the persisted one trimmed after every entry. *)
Definition appended (es : list logEntry) (st st' : state) : Prop :=
  auditLog (this st') = auditLog (this st) ++ es /\
  securityLog (window st')
  = fold_left (fun l e => keepLast (l ++ [stored e])) es (securityLog (window st)).

Lemma appended_none (st st' : state) :
  auditLog (this st') = auditLog (this st) ->
  securityLog (window st') = securityLog (window st) ->
  appended [] st st'.
Proof. intros A S. split; [rewrite app_nil_r; exact A|exact S]. Qed.

Lemma appended_logged (es : list logEntry) (st st0 : state) (event : string)
    (details : object) :
  appended es st st0 ->
  appended (es ++ [entryAt navigatorUserAgent isoTime st0 event details]) st
    (logged navigatorUserAgent isoTime event details st0).
Proof.
  intros [A S]. split.
  - rewrite logged_auditLog, A, app_assoc. reflexivity.
  - rewrite logged_securityLog, S, fold_left_app. reflexivity.
Qed.

Lemma appended_same (es : list logEntry) (st st0 st1 : state) :
  auditLog (this st1) = auditLog (this st0) ->
  securityLog (window st1) = securityLog (window st0) ->
  appended es st st0 -> appended es st st1.
Proof. intros A S [A0 S0]. split; congruence. Qed.

Lemma submit_appends (tableName : string) (formData securityContext : object)
    (st : state) :
  exists es, appended es st (snd (submit tableName formData securityContext st)).
Proof.
  destruct (submit_runs navigatorUserAgent isoTime subtleDigest subtleGenerateKey
              subtleEncrypt fetch tableName formData securityContext st)
    as (out & st' & Eq & R).
  unfold submit. rewrite Eq. cbn [snd].
  inversion R as [C|v st1 C V I|v st1 enc st2 r out' d C V I E P U]; subst.
  - eexists. apply (appended_logged [] st st). apply appended_none; reflexivity.
  - destruct (validate_state _ _ _ _ _ _ _ _ V) as (d & ->).
    eexists. apply appended_logged. apply (appended_logged [] st st).
    apply appended_none; reflexivity.
  - destruct (validate_state _ _ _ _ _ _ _ _ V) as (d' & ->).
    pose proof (encryptSensitiveData_session _ _ _ _ _ _ _ E) as S.
    eexists. apply appended_logged.
    apply (appended_same _ st st2).
    + reflexivity.
    + reflexivity.
    + apply (appended_same _ st (logged navigatorUserAgent isoTime "VALIDATION_ATTEMPT" d' st)).
      * exact (same_auditLog _ _ S).
      * exact (same_securityLog _ _ S).
      * apply (appended_logged [] st st). apply appended_none; reflexivity.
Qed.

Lemma connect_appends (url apiKey : string) (userContext : object) (w : world) :
  exists es, appended es (core w) (core (snd (connect url apiKey userContext w))).
Proof.
  destruct (isValidSupabaseUrl url && keyAccepted apiKey) eqn:G.
  - apply andb_true_iff in G as [U K].
    unfold connect, connectToSupabase. unfold_world.
    rewrite key_guard, U, K. cbn [negb].
    destruct (probeFetch _ _) as [|status text|m].
    + unfold initializeEncryption, random. unfold_world.
      destruct (subtleGenerateKey _); cbn [snd]; eexists;
        apply (appended_logged [] (core w)); apply appended_none; reflexivity.
    + cbn [snd]. eexists.
      apply (appended_logged [] (core w)); apply appended_none; reflexivity.
    + cbn [snd]. eexists.
      apply (appended_logged [] (core w)); apply appended_none; reflexivity.
  - rewrite (refused_by_guards url apiKey userContext w G). cbn [snd].
    eexists. apply (appended_logged [] (core w) (core w)). apply appended_none; reflexivity.
Qed.

Lemma perform_appends (a : action) (w : world) :
  exists es, appended es (core w) (core (perform a w)).
Proof.
  destruct a as [url apiKey user|pg| |t f c|t fs o|]; cbn [perform].
  - apply connect_appends.
  - destruct (autoConnect_cases pg w) as [(m & E & _)|(c & _ & _ & E)]; rewrite E.
    + exists []. apply appended_none; reflexivity.
    + destruct (connect_appends (configUrl c) (configKey c) builtInAdmin w) as (es & A).
      exists es.
      destruct (connect (configUrl c) (configKey c) builtInAdmin w)
        as [[[? ? ?|?]|?] w']; exact A.
  - eexists. unfold disconnect. unfold_world. cbn [snd].
    apply (appended_logged [] (core w)). apply appended_none; reflexivity.
  - unfold lift.
    destruct (submit_appends t f c (core w)) as (es & A). exists es.
    destruct (submit t f c (core w)) as [r st']. exact A.
  - destruct (provision_core t fs o w) as (out & w' & ev & d & E & Co & _).
    rewrite E. cbn [snd]. rewrite Co. eexists.
    apply (appended_logged [] (core w) (core w)). apply appended_none; reflexivity.
  - exists []. apply appended_none; reflexivity.
Qed.

(** The persisted log is what was in the store when the connector was made,
    followed by the connector's own entries, cut to the last 1000. *)
Definition mirrors (old : list logEntry) (st : state) : Prop :=
  securityLog (window st) = keepLast (old ++ map stored (auditLog (this st))).

Lemma mirror_fold (old es : list logEntry) :
  forall al sl,
    sl = keepLast (old ++ map stored al) ->
    fold_left (fun l e => keepLast (l ++ [stored e])) es sl
    = keepLast (old ++ map stored (al ++ es)).
Proof.
  induction es as [|e es IH]; intros al sl H.
  - rewrite app_nil_r. exact H.
  - cbn [fold_left]. rewrite (IH (al ++ [e])).
    + rewrite <- app_assoc. reflexivity.
    + rewrite H, keepLast_absorb, map_app, app_assoc. reflexivity.
Qed.

Lemma mirrors_appended (old es : list logEntry) (st st' : state) :
  appended es st st' -> mirrors old st -> mirrors old st'.
Proof.
  intros [A S] M. unfold mirrors in *. rewrite S, A.
  apply mirror_fold. exact M.
Qed.

(** X26: on a page whose store held the entries [old], the persisted log is at
    every moment the last 1000 of [old] followed by everything the connector
    has logged, as stored: nothing is lost but by the trimming, and nothing
    is reordered, whatever the connector is used for. *)
Theorem persisted_log_is_recent_history (old : list logEntry) (actions : list action)
    (w : world) :
  mirrors old (core w) -> mirrors old (core (performAll actions w)).
Proof.
  revert w. induction actions as [|a actions IH]; intros w M; [exact M|].
  cbn [performAll fold_left]. apply IH.
  destruct (perform_appends a w) as (es & A).
  exact (mirrors_appended old es _ _ A M).
Qed.

End Lifecycle.

(** ** The connector on the sample page *)

Definition answering (n : nat) (p : probe) : probeReply := Reachable.
Definition silent (n : nat) (p : probe) : probeReply := Unreachable "Failed to fetch".

(** A new connector on a page with an empty store and a status element. *)
Definition newWorld : world :=
  {| core := {| this := newConnector; window := Samples.fresh |};
     probes := []; executed := []; statusElement := Some "" |}.

Definition goodKey : string := "public-anon-key-0123456789".

Definition connectedWorld : world :=
  snd (connectToSupabase Samples.agent Samples.time Samples.keygen answering
         "https://demo.supabase.co" goodKey [("email", Str "clerk@company.com")] newWorld).

Lemma connect_refused_early_witness :
  connectToSupabase Samples.agent Samples.time Samples.keygen answering
    "https://demo.supabase.co.evil.example" goodKey [] newWorld
  = (Ok (Refused "Invalid Supabase URL format"),
     loggedW Samples.agent Samples.time "CONNECTION_FAILED"
       [("error", Str "Invalid Supabase URL format")] newWorld).
Proof.
  exact (connect_refused_early Samples.agent Samples.time Samples.keygen answering
           "https://demo.supabase.co.evil.example" goodKey [] newWorld eq_refl).
Defined.

(** A connector that was connected stays marked so when a later attempt to
    connect elsewhere gets no answer, while it already holds the new
    endpoint. *)
Lemma connect_after_guards_witness :
  exists outcome w',
    connectToSupabase Samples.agent Samples.time Samples.keygen silent
      "https://other.supabase.co" goodKey [] connectedWorld = (Ok outcome, w') /\
    (exists error, outcome = Refused error) /\
    supabaseUrl (this (core w')) = "https://other.supabase.co" /\
    connected (this (core w')) = true.
Proof.
  destruct (connect_after_guards Samples.agent Samples.time Samples.keygen silent
              "https://other.supabase.co" goodKey [] connectedWorld eq_refl eq_refl)
    as (out & w' & E & _ & U & _ & _ & _ & _ & R & C).
  exists out, w'. split; [exact E|]. split; [exact R|]. split; [exact U|].
  rewrite C. reflexivity.
Defined.

Lemma provisioning_refused_witness :
  createSecureTable Samples.agent Samples.time "orders; DROP TABLE users" [] []
    connectedWorld
  = (Ok (NotCreated "Invalid table name. Use only letters, numbers, and underscores."),
     loggedW Samples.agent Samples.time "TABLE_CREATION_FAILED"
       [ ("tableName", Str "orders; DROP TABLE users");
         ("error", Str "Invalid table name. Use only letters, numbers, and underscores.") ]
       connectedWorld).
Proof.
  exact (provisioning_refused Samples.agent Samples.time "orders; DROP TABLE users" [] []
           connectedWorld eq_refl).
Defined.

Lemma provisioning_statements_witness :
  exists w',
    fst (createSecureTable Samples.agent Samples.time "orders" [SchemaFacts.ssnField]
           [("retentionDays", Num 90)] connectedWorld)
    = Ok (Created "orders" (Str "internal") ["retentionDays"]) /\
    executed w'
    = executed connectedWorld
      ++ statementsFor "orders" [SchemaFacts.ssnField] [("retentionDays", Num 90)] /\
    network (window (core w')) = [].
Proof.
  destruct (provisioning_statements Samples.agent Samples.time "orders"
              [SchemaFacts.ssnField] [("retentionDays", Num 90)] connectedWorld
              eq_refl eq_refl eq_refl) as (w' & E & X & _ & N & _).
  exists w'. rewrite E. split; [reflexivity|]. split; [exact X|exact N].
Defined.

Example seven_statements :
  List.length (statementsFor "orders" [SchemaFacts.ssnField] [("retentionDays", Num 90)])
  = 7.
Proof. vm_compute; reflexivity. Qed.

Definition placeholderPage : page :=
  {| embeddedConfig := None; secureConfig := None;
     standardConfig := Some {| configUrl := "https://demo.supabase.co";
                               configKey := "your-anon-key-here" |} |}.

Definition embeddedPage : page :=
  {| embeddedConfig := Some {| configUrl := "https://demo.supabase.co";
                               configKey := goodKey |};
     secureConfig := None; standardConfig := None |}.

Lemma autoConnect_without_configuration_witness :
  exists w',
    autoConnect Samples.agent Samples.time Samples.keygen answering "on" "off"
      placeholderPage newWorld
    = (Ok (Refused "No valid configuration found"), w') /\
    core w' = core newWorld /\ probes w' = [].
Proof.
  exact (autoConnect_without_configuration Samples.agent Samples.time Samples.keygen
           answering "on" "off" placeholderPage newWorld eq_refl).
Defined.

Lemma autoConnect_as_admin_witness :
  let w' := snd (autoConnect Samples.agent Samples.time Samples.keygen answering
                   "on" "off" embeddedPage newWorld) in
  connected (this (core w')) = true /\
  currentUser (this (core w')) = Some builtInAdmin /\
  exists e, auditLog (this (core w')) = auditLog (this (core newWorld)) ++ [e] /\
            user e = Str "admin@company.com".
Proof.
  exact (autoConnect_as_admin Samples.agent Samples.time Samples.keygen answering
           "on" "off" embeddedPage newWorld _ _ _ _ eq_refl).
Defined.

Lemma trusted_newWorld : trusted newWorld.
Proof.
  constructor.
  - intros C. discriminate C.
  - intros r [].
  - intros p [].
Defined.

Definition busyDay : list action :=
  [ Connect "https://demo.supabase.co" goodKey [("email", Str "clerk@company.com")];
    Submit "orders" [("note", Str "hello world")] Samples.clerk;
    CreateTable "orders" [SchemaFacts.ssnField] [];
    Connect "http://insecure.example" goodKey [];
    Submit "orders" [("ssn", Str "123-45-6789")] Samples.clerk;
    Report;
    Disconnect;
    Submit "orders" [("note", Str "too late")] Samples.clerk ].

Lemma traffic_goes_to_validated_endpoints_witness :
  trusted (performAll Samples.agent Samples.time Samples.digest Samples.keygen
             Samples.cipher Samples.accepting answering "on" "off" busyDay newWorld).
Proof.
  exact (traffic_goes_to_validated_endpoints Samples.agent Samples.time Samples.digest
           Samples.keygen Samples.cipher Samples.accepting answering "on" "off"
           busyDay newWorld trusted_newWorld).
Defined.

Example busy_day_traffic :
  let w := performAll Samples.agent Samples.time Samples.digest Samples.keygen
             Samples.cipher Samples.accepting answering "on" "off" busyDay newWorld in
  map endpoint (network (window (core w)))
  = [ "https://demo.supabase.co/rest/v1/orders"; "https://demo.supabase.co/rest/v1/orders" ] /\
  map target (probes w) = ["https://demo.supabase.co/rest/v1/"] /\
  map event (auditLog (this (core w)))
  = [ "CONNECTION_SUCCESS"; "VALIDATION_ATTEMPT"; "DATA_SUBMITTED"; "TABLE_CREATED";
      "CONNECTION_FAILED"; "VALIDATION_ATTEMPT"; "DATA_SUBMITTED"; "DISCONNECTED";
      "DATA_SUBMISSION_FAILED" ].
Proof. vm_compute. repeat split. Qed.

Lemma summary_counts_witness :
  let w := performAll Samples.agent Samples.time Samples.digest Samples.keygen
             Samples.cipher Samples.accepting answering "on" "off" busyDay newWorld in
  prop "DATA_SUBMITTED" (summarizeEvents (securityLog (window (core w)))) = Num 2.
Proof.
  exact (summary_counts
           (securityLog (window (core
              (performAll Samples.agent Samples.time Samples.digest Samples.keygen
                 Samples.cipher Samples.accepting answering "on" "off" busyDay newWorld))))
           "DATA_SUBMITTED" eq_refl eq_refl).
Defined.

Lemma persisted_log_is_recent_history_witness :
  mirrors [] (core (performAll Samples.agent Samples.time Samples.digest Samples.keygen
                      Samples.cipher Samples.accepting answering "on" "off" busyDay
                      newWorld)).
Proof.
  exact (persisted_log_is_recent_history Samples.agent Samples.time Samples.digest
           Samples.keygen Samples.cipher Samples.accepting answering "on" "off"
           [] busyDay newWorld eq_refl).
Defined.

End SessionFacts.
